(** * Campaign sync service: a shallow embedding and its verified properties

    The development follows the layout of the repository:

    - [Js]      the fragment of JavaScript values and errors the code relies on
                (truthiness, property access, [parseInt], timers);
    - [Logger]  [src/utils/logger.ts];
    - [Conf]    [src/config.ts];
    - [Api]     [src/services/api.ts] ([AdPlatformClient]);
    - [Db]      [src/services/db.ts] ([DatabaseService]);
    - [Sync]    [src/services/sync.ts] ([SyncService]) and [src/index.ts].

    Asynchronous code is sequential here (every call is awaited by its only
    caller), so an [async] function is a state transformer that ends in a
    returned value or a thrown error. *)

From Stdlib Require Import ZArith List Lia Bool Ascii.
From stdpp Require Import gmap strings pretty.

Set Warnings "-register-all".
Open Scope Z_scope.

(* ===================================================================== *)
(** ** JavaScript values                                                   *)
(* ===================================================================== *)

Module Js.

(** Values of type [any] that reach the code: parsed JSON plus [undefined].
    [Num] is an integer, as every number the code computes with; a number
    with a fractional part (a budget, a rate) is only passed along and is kept
    as its literal, [Decimal]. *)
Inductive Value : Type :=
| Undefined
| Null
| Bool (b : bool)
| Num (n : Z)
| Decimal (literal : string)
| Str (s : string)
| Arr (items : list Value)
| Obj (fields : list (string * Value)).

(** A JavaScript number that may be [NaN]. *)
Definition Number := option Z.
Definition NaN : Number := None.

(** Errors that are thrown in the code base. [ApiError] is the class declared
    in [api.ts]; [AbortError] is what an aborted [fetch] rejects with;
    [TypeError] is raised by a property access on [null] or [undefined];
    [Failure] stands for any other [Error] (network fault, driver error). *)
Inductive Error : Type :=
| ApiError (message : string) (status : option Z)
| AbortError
| TypeError (message : string)
| Failure (message : string).

Definition message (e : Error) : string :=
  match e with
  | ApiError m _ => m
  | AbortError => "The user aborted a request."
  | TypeError m => m
  | Failure m => m
  end.

Definition is_ApiError (e : Error) : bool :=
  match e with ApiError _ _ => true | _ => false end.

(** How an awaited promise ends. [Pending] is a promise that never settles:
    the scripted remote has nothing left to answer. *)
Inductive Outcome (A : Type) : Type :=
| Returned (a : A)
| Threw (e : Error)
| Pending.
Arguments Returned {A} a.
Arguments Threw {A} e.
Arguments Pending {A}.

(** [ToBoolean]. *)
Definition truthy (v : Value) : bool :=
  match v with
  | Undefined | Null => false
  | Bool b => b
  | Num n => negb (n =? 0)
  | Str s => negb (String.eqb s "")
  | Decimal _ | Arr _ | Obj _ => true
  end.

(** The value bound to [k] in a parsed object: the last binding wins. *)
Definition field (k : string) (fs : list (string * Value)) : Value :=
  match find (fun kv => String.eqb k (fst kv)) (rev fs) with
  | Some kv => snd kv
  | None => Undefined
  end.

(** [v.k] for the data properties the code reads ([data], [pagination],
    [has_more], [id], [name], ...): a [TypeError] on [null] and [undefined],
    [undefined] on primitives and arrays, the field on objects. *)
Definition prop (k : string) (v : Value) : Outcome Value :=
  match v with
  | Undefined =>
      Threw (TypeError ("Cannot read properties of undefined (reading '" +:+ k +:+ "')"))
  | Null =>
      Threw (TypeError ("Cannot read properties of null (reading '" +:+ k +:+ "')"))
  | Obj fs => Returned (field k fs)
  | _ => Returned Undefined
  end.

(** [v.k] where it cannot throw. *)
Definition get (k : string) (v : Value) : Value :=
  match prop k v with
  | Returned x => x
  | _ => Undefined
  end.

(** Going on with the value of an expression that may throw. *)
Definition reading {A S : Type} (o : Outcome Value) (s : S)
    (k : Value -> Outcome A * S) : Outcome A * S :=
  match o with
  | Returned v => k v
  | Threw e => (Threw e, s)
  | Pending => (Pending, s)
  end.

Definition nullish (v : Value) : bool :=
  match v with Undefined | Null => true | _ => false end.

(** [Array.prototype.concat]: an array argument is spread, anything else is
    appended as one element. *)
Definition concat (xs : list Value) (v : Value) : list Value :=
  match v with
  | Arr ys => xs ++ ys
  | _ => xs ++ [v]
  end.

(** Template-literal conversion [`${v}`]. An integer is printed in full, as
    JavaScript prints the integers below 10^21 that a double holds exactly. *)
Fixpoint to_string (v : Value) : string :=
  match v with
  | Undefined => "undefined"
  | Null => "null"
  | Bool true => "true"
  | Bool false => "false"
  | Num n => pretty n
  | Decimal literal => literal
  | Str s => s
  | Arr items =>
      (fix join (l : list Value) : string :=
         match l with
         | [] => ""
         | [x] => if nullish x then "" else to_string x
         | x :: rest => (if nullish x then "" else to_string x) +:+ "," +:+ join rest
         end) items
  | Obj _ => "[object Object]"
  end.

(** [a || b] on optional strings: [undefined] and the empty string are falsy. *)
Definition or_else (o : option string) (d : string) : string :=
  match o with
  | Some s => if String.eqb s "" then d else s
  | None => d
  end.

(** *** [parseInt(s)] without a radix

    Strings are ASCII here, and so is the white space that is skipped. The
    result is the integer the digits denote: it is the one JavaScript returns
    up to 2^53, above which a double rounds. *)

Definition is_space (a : ascii) : bool :=
  let n := nat_of_ascii a in
  ((9 <=? n) && (n <=? 13))%nat || (n =? 32)%nat.

Fixpoint skip_space (s : string) : string :=
  match s with
  | String a rest => if is_space a then skip_space rest else s
  | EmptyString => s
  end.

Definition digit_of (radix : Z) (a : ascii) : option Z :=
  let n := Z.of_nat (nat_of_ascii a) in
  let d := if (48 <=? n) && (n <=? 57) then n - 48
           else if (97 <=? n) && (n <=? 122) then n - 87
           else if (65 <=? n) && (n <=? 90) then n - 55
           else radix in
  if d <? radix then Some d else None.

Fixpoint digits (radix : Z) (s : string) (acc : Number) : Number :=
  match s with
  | String a rest =>
      match digit_of radix a with
      | Some d => digits radix rest (Some (default 0 acc * radix + d))
      | None => acc
      end
  | EmptyString => acc
  end.

Definition parseInt (s : string) : Number :=
  let s := skip_space s in
  let '(sign, s) :=
    match s with
    | String "-" rest => (-1, rest)
    | String "+" rest => (1, rest)
    | _ => (1, s)
    end in
  let '(radix, s) :=
    match s with
    | String "0" (String "x" rest) => (16, rest)
    | String "0" (String "X" rest) => (16, rest)
    | _ => (10, s)
    end in
  Z.mul sign <$> digits radix s NaN.

(** *** Timers

    [setTimeout(f, ms)]: a delay below 1, above 2^31-1 or [NaN] is set to 1. *)
Definition timer_delay (ms : Number) : Z :=
  match ms with
  | Some d => if (1 <=? d) && (d <=? 2147483647) then d else 1
  | None => 1
  end.

End Js.

(* ===================================================================== *)
(** ** [src/utils/logger.ts]                                               *)
(* ===================================================================== *)

Module Logger.

Inductive LogLevel := INFO | WARN | ERROR | DEBUG.

(** The optional [meta] argument of a logging call. *)
Inductive Meta : Type :=
| NoMeta
| MetaValue (v : Js.Value)
| MetaError (e : Js.Error).

(** One call of [logger.info], [logger.warn], [logger.error] or
    [logger.debug] (the console output adds a timestamp, and drops [DEBUG]
    lines outside development). *)
Record Entry := { level : LogLevel; text : string; meta : Meta }.

Definition is_level (l : LogLevel) (e : Entry) : bool :=
  match l, level e with
  | INFO, INFO | WARN, WARN | ERROR, ERROR | DEBUG, DEBUG => true
  | _, _ => false
  end.

Definition warnings (log : list Entry) : list Entry := filter (fun e => is_level WARN e = true) log.
Definition errors (log : list Entry) : list Entry := filter (fun e => is_level ERROR e = true) log.

End Logger.

(* ===================================================================== *)
(** ** [src/config.ts]                                                     *)
(* ===================================================================== *)

Module Conf.

Record AuthConfig := { email : string; password : string }.

Record ApiConfig := {
  baseUrl : string;
  auth : AuthConfig;
  minRequestIntervalMs : Z;
  timeoutMs : Z;
  maxRetries : Z
}.

Record DbConfig := {
  host : string;
  port : Js.Number;
  database : string;
  user : string;
  dbPassword : string;
  useMock : bool
}.

Record Config := { api : ApiConfig; db : DbConfig }.

(** [dotenv.config]: variables of the [.env] file are added to
    [process.env]; a variable that is already set keeps its value. *)
Definition dotenv_config (processEnv dotenvFile : gmap string string) : gmap string string :=
  processEnv ∪ dotenvFile.

(** The exported [config] object, as a function of [process.env]. *)
Definition config (env : gmap string string) : Config :=
  {| api := {| baseUrl := Js.or_else (env !! "AD_PLATFORM_API_URL") "http://localhost:3001";
               auth := {| email := Js.or_else (env !! "API_USERNAME") "admin@mixoads.com";
                          password := Js.or_else (env !! "API_PASSWORD") "SuperSecret123!" |};
               minRequestIntervalMs := 6500;
               timeoutMs := 10000;
               maxRetries := 3 |};
     db := {| host := Js.or_else (env !! "DB_HOST") "localhost";
              port := Js.parseInt (Js.or_else (env !! "DB_PORT") "5432");
              database := Js.or_else (env !! "DB_NAME") "mixoads";
              user := Js.or_else (env !! "DB_USER") "postgres";
              dbPassword := Js.or_else (env !! "DB_PASSWORD") "postgres";
              useMock := bool_decide (env !! "USE_MOCK_DB" = Some "true") |} |}.

(** What a process loads: [dotenv.config] runs first, as the module is
    evaluated, and [config] is read off the environment it leaves. *)
Definition load (processEnv dotenvFile : gmap string string) : Config :=
  config (dotenv_config processEnv dotenvFile).

(** The recognized options, and the value each one has in a configuration. *)
Inductive Option_ :=
| ApiBaseUrl | ApiEmail | ApiPassword
| MinRequestInterval | RequestTimeout | MaxRetries
| DbHost | DbPort | DbName | DbUser | DbPassword
| MockToggle.

Inductive Setting :=
| Text (s : string)
| Numeric (n : Js.Number)
| Flag (b : bool).

Definition setting (o : Option_) (c : Config) : Setting :=
  match o with
  | ApiBaseUrl => Text (baseUrl (api c))
  | ApiEmail => Text (email (auth (api c)))
  | ApiPassword => Text (password (auth (api c)))
  | MinRequestInterval => Numeric (Some (minRequestIntervalMs (api c)))
  | RequestTimeout => Numeric (Some (timeoutMs (api c)))
  | MaxRetries => Numeric (Some (maxRetries (api c)))
  | DbHost => Text (host (db c))
  | DbPort => Numeric (port (db c))
  | DbName => Text (database (db c))
  | DbUser => Text (user (db c))
  | DbPassword => Text (dbPassword (db c))
  | MockToggle => Flag (useMock (db c))
  end.

(** An option is overridable when two environments load different values. *)
Definition overridable (o : Option_) : Prop :=
  exists env1 env2 : gmap string string,
    setting o (config env1) <> setting o (config env2).

(** The options whose value is read from [process.env]. *)
Definition env_variable (o : Option_) : option string :=
  match o with
  | ApiBaseUrl => Some "AD_PLATFORM_API_URL"
  | ApiEmail => Some "API_USERNAME"
  | ApiPassword => Some "API_PASSWORD"
  | DbHost => Some "DB_HOST"
  | DbPort => Some "DB_PORT"
  | DbName => Some "DB_NAME"
  | DbUser => Some "DB_USER"
  | DbPassword => Some "DB_PASSWORD"
  | MockToggle => Some "USE_MOCK_DB"
  | MinRequestInterval | RequestTimeout | MaxRetries => None
  end.

End Conf.

(* ===================================================================== *)
(** ** [src/services/api.ts]                                               *)
(* ===================================================================== *)

Module Api.
Import Js Logger.

(** *** The remote side

    What [fetch] hands back: a response (status line, the [retry-after]
    header, the parsed body, [None] when [response.json()] rejects), an abort
    by the [AbortController], or any other rejection. The error of a
    [response.json()] that rejects is written [Failure "invalid json response
    body"]: the message node-fetch gives it starts so, and goes on with the
    URL and the reason of the parser. *)
Record Response (B : Type) := {
  status : Z;
  statusText : string;
  retryAfter : option string;
  body : option B
}.
Arguments status {B} _.
Arguments statusText {B} _.
Arguments retryAfter {B} _.
Arguments body {B} _.

Inductive Settled (B : Type) : Type :=
| Responds (r : Response B)
| Aborts
| Fails (reason : string).
Arguments Responds {B} r.
Arguments Aborts {B}.
Arguments Fails {B} reason.

(** One [fetch]: the time until its promise settles, and how it settles. *)
Record Exchange (B : Type) := { elapsed : N; settles : Settled B }.
Arguments elapsed {B} _.
Arguments settles {B} _.

(** Body of [POST /auth/token]; a field is [None] when the server omits it. *)
Record AuthPayload := { access_token : option string; expires_in : option Z }.

(** The parts of the world the client cannot see: the answer to the [j]-th
    token exchange and the lateness of the [k]-th timer. *)
Record Remote := {
  authServer : nat -> Exchange AuthPayload;
  timerLag : nat -> N
}.

(** [response.ok] *)
Definition ok {B} (r : Response B) : bool := (200 <=? status r) && (status r <=? 299).

(** *** The client and what it observes *)

(** [RequestInit] as the client fills it ([body] before [JSON.stringify]). *)
Record RequestInit := { method : string; payload : option Value }.

(** An outbound call: when [fetch] was invoked, and with what. *)
Record Call := {
  startedAt : Z;
  verb : string;
  url : string;
  authorization : string
}.

(** The private fields of [AdPlatformClient], followed by the clock
    ([Date.now()]), the answers [request] will still receive, and what has
    been observed so far. *)
Record State := {
  accessToken : option string;
  tokenExpiry : Z;
  lastRequestTime : Z;
  minRequestInterval : Z;
  now : Z;
  apiServer : list (Exchange Value);
  authExchanges : nat;
  timers : nat;
  calls : list Call;
  log : list Entry
}.

(** [new AdPlatformClient()] at time [t0], facing the answers [script]. *)
Definition create (cfg : Conf.Config) (t0 : Z) (script : list (Exchange Value)) : State :=
  {| accessToken := None;
     tokenExpiry := 0;
     lastRequestTime := 0;
     minRequestInterval := Conf.minRequestIntervalMs (Conf.api cfg);
     now := t0;
     apiServer := script;
     authExchanges := 0;
     timers := 0;
     calls := [];
     log := [] |}.

Definition set_token (t : option string) (e : Z) (s : State) : State :=
  {| accessToken := t; tokenExpiry := e;
     lastRequestTime := lastRequestTime s; minRequestInterval := minRequestInterval s;
     now := now s; apiServer := apiServer s; authExchanges := authExchanges s;
     timers := timers s; calls := calls s; log := log s |}.

Definition set_lastRequestTime (t : Z) (s : State) : State :=
  {| accessToken := accessToken s; tokenExpiry := tokenExpiry s;
     lastRequestTime := t; minRequestInterval := minRequestInterval s;
     now := now s; apiServer := apiServer s; authExchanges := authExchanges s;
     timers := timers s; calls := calls s; log := log s |}.

(** Time passes. *)
Definition tick (d : Z) (s : State) : State :=
  {| accessToken := accessToken s; tokenExpiry := tokenExpiry s;
     lastRequestTime := lastRequestTime s; minRequestInterval := minRequestInterval s;
     now := now s + d; apiServer := apiServer s; authExchanges := authExchanges s;
     timers := timers s; calls := calls s; log := log s |}.

Definition logged (l : LogLevel) (t : string) (m : Meta) (s : State) : State :=
  {| accessToken := accessToken s; tokenExpiry := tokenExpiry s;
     lastRequestTime := lastRequestTime s; minRequestInterval := minRequestInterval s;
     now := now s; apiServer := apiServer s; authExchanges := authExchanges s;
     timers := timers s; calls := calls s;
     log := log s ++ [{| level := l; text := t; meta := m |}] |}.

(** [fetch] is invoked: the call is recorded with the current time. *)
Definition called (v u a : string) (s : State) : State :=
  {| accessToken := accessToken s; tokenExpiry := tokenExpiry s;
     lastRequestTime := lastRequestTime s; minRequestInterval := minRequestInterval s;
     now := now s; apiServer := apiServer s; authExchanges := authExchanges s;
     timers := timers s;
     calls := calls s ++ [{| startedAt := now s; verb := v; url := u; authorization := a |}];
     log := log s |}.

Definition answered_auth (s : State) : State :=
  {| accessToken := accessToken s; tokenExpiry := tokenExpiry s;
     lastRequestTime := lastRequestTime s; minRequestInterval := minRequestInterval s;
     now := now s; apiServer := apiServer s; authExchanges := S (authExchanges s);
     timers := timers s; calls := calls s; log := log s |}.

Definition answered_api (rest : list (Exchange Value)) (s : State) : State :=
  {| accessToken := accessToken s; tokenExpiry := tokenExpiry s;
     lastRequestTime := lastRequestTime s; minRequestInterval := minRequestInterval s;
     now := now s; apiServer := rest; authExchanges := authExchanges s;
     timers := timers s; calls := calls s; log := log s |}.

Definition timer_set (s : State) : State :=
  {| accessToken := accessToken s; tokenExpiry := tokenExpiry s;
     lastRequestTime := lastRequestTime s; minRequestInterval := minRequestInterval s;
     now := now s; apiServer := apiServer s; authExchanges := authExchanges s;
     timers := S (timers s); calls := calls s; log := log s |}.

(** How a number is printed inside a template literal (in full: see
    [Js.to_string]). *)
Definition show (n : Number) : string :=
  match n with Some z => pretty z | None => "NaN" end.

(** [Buffer.from(s).toString('base64')] *)
Definition base64_alphabet : string :=
  "ABCDEFGHIJKLMNOPQRSTUVWXYZabcdefghijklmnopqrstuvwxyz0123456789+/".

Definition sextet (n : N) : ascii :=
  match String.get (N.to_nat (n mod 64)%N) base64_alphabet with
  | Some a => a
  | None => "="%char
  end.

Fixpoint base64_bytes (bs : list N) : string :=
  match bs with
  | a :: b :: c :: rest =>
      let n := (a * 65536 + b * 256 + c)%N in
      String (sextet (n / 262144)) (String (sextet (n / 4096))
        (String (sextet (n / 64)) (String (sextet n) (base64_bytes rest))))
  | [a; b] =>
      let n := (a * 65536 + b * 256)%N in
      String (sextet (n / 262144)) (String (sextet (n / 4096))
        (String (sextet (n / 64)) "="))
  | [a] =>
      let n := (a * 65536)%N in
      String (sextet (n / 262144)) (String (sextet (n / 4096)) "==")
  | [] => ""
  end.

Definition base64 (s : string) : string :=
  base64_bytes (map N_of_ascii (String.list_ascii_of_string s)).

Section Client.

Variable cfg : Conf.Config.
Variable remote : Remote.

Let api := Conf.api cfg.

(** [sleep(ms)]: the timer fires after its delay, possibly late. *)
Definition sleep (ms : Number) (s : State) : State :=
  timer_set (tick (timer_delay ms + Z.of_N (timerLag remote (timers s))) s).

Definition enforceRateLimit (s : State) : State :=
  let timeSinceLastRequest := now s - lastRequestTime s in
  let s :=
    if timeSinceLastRequest <? minRequestInterval s then
      let waitTime := minRequestInterval s - timeSinceLastRequest in
      sleep (Some waitTime)
        (logged DEBUG ("Rate limiting: waiting " +:+ pretty waitTime +:+ "ms") NoMeta s)
    else s in
  set_lastRequestTime (now s) s.

(** [this.accessToken && ...]: [null] and the empty string are falsy. *)
Definition cached (t : option string) : bool :=
  match t with
  | Some tok => negb (String.eqb tok "")
  | None => false
  end.

(** [(data.expires_in || 3600) * 1000] *)
Definition expiresIn (data : AuthPayload) : Z :=
  match expires_in data with
  | Some n => (if n =? 0 then 3600 else n) * 1000
  | None => 3600 * 1000
  end.

(** The [catch] block of [getAccessToken]. *)
Definition authenticationFailed {A} (e : Error) (s : State) : Outcome A * State :=
  (Threw e,
   logged ERROR "Authentication failed" (MetaValue (Obj [("error", Str (message e))])) s).

Definition getAccessToken (s : State) : Outcome (option string) * State :=
  if cached (accessToken s) && (now s <? tokenExpiry s) then
    (Returned (accessToken s), s)
  else
    let s := logged INFO "Authenticating with Ad Platform API..." NoMeta s in
    let authString :=
      base64 (Conf.email (Conf.auth api) +:+ ":" +:+ Conf.password (Conf.auth api)) in
    let s := enforceRateLimit s in
    let x := authServer remote (authExchanges s) in
    let s := called "POST" (Conf.baseUrl api +:+ "/auth/token") ("Basic " +:+ authString) s in
    let s := answered_auth (tick (Z.of_N (elapsed x)) s) in
    match settles x with
    | Responds r =>
        if negb (ok r) then
          authenticationFailed
            (ApiError ("Auth failed: " +:+ statusText r) (Some (status r))) s
        else
          match body r with
          | Some data =>
              let s := set_token (access_token data) (now s + expiresIn data - 30000) s in
              let s := logged INFO "Authentication successful" NoMeta s in
              (Returned (accessToken s), s)
          | None => authenticationFailed (Failure "invalid json response body") s
          end
    | Aborts => authenticationFailed AbortError s
    | Fails reason => authenticationFailed (Failure reason) s
    end.

(** The outer [catch] of [request]: the error of this attempt is logged when
    it is the first attempt, and thrown. *)
Definition finalFailure (endpoint : string) (retryCount : nat) (e : Error) (s : State)
  : Outcome Value * State :=
  (Threw e,
   match retryCount with
   | O => logged ERROR ("Final failure for " +:+ endpoint +:+ ": " +:+ message e) NoMeta s
   | S _ => s
   end).

(** [retryCount < n] *)
Definition below (retryCount : nat) (n : Z) : bool := Z.of_nat retryCount <? n.

(** [1000 * Math.pow(2, retryCount)] and [2000 * Math.pow(2, retryCount)] *)
Definition backoff (base : Z) (retryCount : nat) : Number :=
  Some (base * 2 ^ Z.of_nat retryCount).

(** The wait after a 429: the [retry-after] header when it is there (in
    seconds), the fallback backoff otherwise. *)
Definition rateLimitWait (retryAfter : option string) (retryCount : nat) : Number :=
  match retryAfter with
  | Some h =>
      if String.eqb h "" then backoff 2000 retryCount
      else (fun n => n * 1000) <$> parseInt h
  | None => backoff 2000 retryCount
  end.

(** The end of the inner [catch]: an error that is neither an abort nor an
    [ApiError]. [retry] is the recursive call [this.request(endpoint,
    options, retryCount + 1)]. *)
Definition networkError (retry : State -> Outcome Value * State)
    (endpoint : string) (retryCount : nat) (e : Error) (s : State)
  : Outcome Value * State :=
  if below retryCount (Conf.maxRetries api) then
    let waitMs := backoff 1000 retryCount in
    let s := logged WARN
               ("Network error: " +:+ message e +:+ ". Retrying in " +:+ show waitMs +:+ "ms...")
               (MetaError e) s in
    retry (sleep waitMs s)
  else finalFailure endpoint retryCount e s.

(** How [request] goes on once [fetch] has produced a response. *)
Definition onResponse (retry : State -> Outcome Value * State)
    (endpoint : string) (retryCount : nat) (r : Response Value) (s : State)
  : Outcome Value * State :=
  if status r =? 429 then
    let waitMs := rateLimitWait (retryAfter r) retryCount in
    let s := logged WARN
               ("Rate limit hit (429). Waiting " +:+ show waitMs +:+ "ms before retry...")
               NoMeta s in
    retry (sleep waitMs s)
  else if (500 <=? status r) && below retryCount (Conf.maxRetries api) then
    let waitMs := backoff 1000 retryCount in
    let s := logged WARN
               ("Server error " +:+ pretty (status r) +:+ ". Retrying in " +:+ show waitMs +:+ "ms...")
               NoMeta s in
    retry (sleep waitMs s)
  else
    let s := if status r =? 401 then set_token None 0 s else s in
    if (status r =? 401) && below retryCount 2 then
      retry (logged WARN "Token expired or invalid (401), refreshing..." NoMeta s)
    else if negb (ok r) then
      finalFailure endpoint retryCount
        (ApiError ("API Error: " +:+ pretty (status r) +:+ " " +:+ statusText r)
                  (Some (status r))) s
    else
      match body r with
      | Some v => (Returned v, s)
      | None => networkError retry endpoint retryCount (Failure "invalid json response body") s
      end.

(** The inner [catch] on an aborted [fetch]. *)
Definition onAbort (retry : State -> Outcome Value * State)
    (endpoint : string) (retryCount : nat) (s : State) : Outcome Value * State :=
  if below retryCount (Conf.maxRetries api) then
    retry (logged WARN "Request timed out. Retrying..." NoMeta s)
  else finalFailure endpoint retryCount (ApiError "Request timeout" (Some 408)) s.

(** [request(endpoint, options, retryCount)], by recursion on the answers
    still to come: every attempt takes the next one. *)
Fixpoint request_from (server : list (Exchange Value))
    (endpoint : string) (options : RequestInit) (retryCount : nat) (s : State)
    {struct server} : Outcome Value * State :=
  let target := Conf.baseUrl api +:+ endpoint in
  match getAccessToken s with
  | (Returned token, s) =>
      let bearer := "Bearer " +:+ default "undefined" token in
      let s := enforceRateLimit s in
      let s := logged DEBUG ("Requesting " +:+ endpoint) NoMeta s in
      match server with
      | x :: rest =>
          let s := called (method options) target bearer s in
          let s := answered_api rest (tick (Z.of_N (elapsed x)) s) in
          let retry := request_from rest endpoint options (S retryCount) in
          match settles x with
          | Responds r => onResponse retry endpoint retryCount r s
          | Aborts => onAbort retry endpoint retryCount s
          | Fails reason => networkError retry endpoint retryCount (Failure reason) s
          end
      | [] => (Pending, s)
      end
  | (Threw e, s) => finalFailure endpoint retryCount e s
  | (Pending, s) => (Pending, s)
  end.

Definition request (endpoint : string) (options : RequestInit) (retryCount : nat)
    (s : State) : Outcome Value * State :=
  request_from (apiServer s) endpoint options retryCount s.

Definition getCampaigns (page limit : Z) (s : State) : Outcome Value * State :=
  request ("/api/campaigns?page=" +:+ pretty page +:+ "&limit=" +:+ pretty limit)
          {| method := "GET"; payload := None |} 0 s.

Definition syncCampaign (campaignId : Value) (s : State) : Outcome Value * State :=
  request ("/api/campaigns/" +:+ to_string campaignId +:+ "/sync")
          {| method := "POST"; payload := Some (Obj [("campaign_id", campaignId)]) |} 0 s.

End Client.

(** *** Vocabulary of the properties *)

(** A use of the public interface of the client, or time passing between
    two uses. *)
Inductive Op : Type :=
| GetAccessToken
| GetCampaigns (page limit : Z)
| SyncCampaign (campaignId : Value)
| Wait (d : N).

Definition perform (cfg : Conf.Config) (remote : Remote) (o : Op) (s : State) : State :=
  match o with
  | GetAccessToken => snd (getAccessToken cfg remote s)
  | GetCampaigns page limit => snd (getCampaigns cfg remote page limit s)
  | SyncCampaign campaignId => snd (syncCampaign cfg remote campaignId s)
  | Wait d => tick (Z.of_N d) s
  end.

Definition session (cfg : Conf.Config) (remote : Remote) (ops : list Op) (s : State) : State :=
  fold_left (fun s o => perform cfg remote o s) ops s.

(** Any two consecutive calls start at least [gap] apart. *)
Definition spaced (gap : Z) (cs : list Call) : Prop :=
  forall (i : nat) (c1 c2 : Call),
    cs !! i = Some c1 -> cs !! S i = Some c2 -> gap <= startedAt c2 - startedAt c1.

(** The invariant of the rate limiter: the clock has not run behind the
    last recorded request, no call started after it, and the calls made so
    far are spaced. *)
Definition paced (s : State) : Prop :=
  minRequestInterval s <= 2147483647 /\
  lastRequestTime s <= now s /\
  Forall (fun c => startedAt c <= lastRequestTime s) (calls s) /\
  spaced (minRequestInterval s) (calls s).

(** The state between [enforceRateLimit] and the [fetch] that follows. *)
Definition cleared (s : State) : Prop :=
  minRequestInterval s <= 2147483647 /\
  lastRequestTime s = now s /\
  Forall (fun c => startedAt c <= now s /\ startedAt c + minRequestInterval s <= now s)
         (calls s) /\
  spaced (minRequestInterval s) (calls s).

(** The state in which a token exchange is answered: the attempt has been
    logged, the rate limiter has let it through, and the call is out. *)
Definition exchanged (cfg : Conf.Config) (remote : Remote) (s : State) : State :=
  let s := enforceRateLimit remote
             (logged INFO "Authenticating with Ad Platform API..." NoMeta s) in
  let x := authServer remote (authExchanges s) in
  answered_auth
    (tick (Z.of_N (elapsed x))
       (called "POST" (Conf.baseUrl (Conf.api cfg) +:+ "/auth/token")
          ("Basic " +:+ base64 (Conf.email (Conf.auth (Conf.api cfg)) +:+ ":"
                                +:+ Conf.password (Conf.auth (Conf.api cfg))))
          s)).

(** The state in which an attempt of [request] is answered by [x]: the rate
    limiter has let it through, the call is out, and [rest] is what the
    server will answer next. *)
Definition arrived (cfg : Conf.Config) (remote : Remote) (endpoint : string)
    (options : RequestInit) (x : Exchange Value) (rest : list (Exchange Value))
    (token : option string) (s : State) : State :=
  answered_api rest
    (tick (Z.of_N (elapsed x))
       (called (method options) (Conf.baseUrl (Conf.api cfg) +:+ endpoint)
          ("Bearer " +:+ default "undefined" token)
          (logged DEBUG ("Requesting " +:+ endpoint) NoMeta (enforceRateLimit remote s)))).

(** A token exchange that succeeds: a 2xx with a body that parses. *)
Definition authenticates (x : Exchange AuthPayload) : bool :=
  match settles x with
  | Responds r => ok r && bool_decide (is_Some (body r))
  | _ => false
  end.

(** The answer is a response with the given status. *)
Definition answers (code : Z) (x : Exchange Value) : Prop :=
  exists r, settles x = Responds r /\ status r = code.

(** The answer is a 5xx response. *)
Definition server_error (x : Exchange Value) : Prop :=
  exists r, settles x = Responds r /\ 500 <= status r.

(** The answer is a 2xx response whose body parses to [v]. *)
Definition delivers (v : Value) (x : Exchange Value) : Prop :=
  exists r, settles x = Responds r /\ ok r = true /\ body r = Some v.

(** An answer after which [request] never retries: a response that is not
    429, 5xx or 401, with a body that parses when it is a 2xx. *)
Definition conclusive (x : Exchange Value) : bool :=
  match settles x with
  | Responds r =>
      negb (status r =? 429) && negb (500 <=? status r) && negb (status r =? 401)
      && (negb (ok r) || bool_decide (is_Some (body r)))
  | _ => false
  end.

(** How many of the answers to come are conclusive. *)
Definition conclusives (server : list (Exchange Value)) : nat :=
  length (filter (fun x => conclusive x = true) server).

(** The targets of the [GET] calls made so far, oldest first. *)
Definition fetched (s : State) : list string :=
  url <$> filter (fun c => verb c = "GET") (calls s).

(** The number of warnings logged so far: one per retry. *)
Definition retryWarnings (s : State) : nat := length (warnings (log s)).

(** The number of retries that followed a 401, each announced by the
    warning that the token is being refreshed. *)
Definition refreshes (s : State) : nat :=
  length (filter (fun e => text e = "Token expired or invalid (401), refreshing...")
                 (warnings (log s))).

(** [s'] is a later state of [s]: the clock has not gone back, and the calls
    made in between started at or after the time of [s]. *)
Definition later (s s' : State) : Prop :=
  now s <= now s' /\
  exists added, calls s' = calls s ++ added /\ Forall (fun c => now s <= startedAt c) added.

(** The invariant of a client whose minimum interval is [gap]. *)
Definition metered (gap : Z) (s : State) : Prop := paced s /\ minRequestInterval s = gap.

(** The most retries a call makes that are not answers to a 429: a 5xx, a
    timeout and a network error are retried below [maxRetries], a 401 below 2. *)
Definition ceiling (cfg : Conf.Config) : nat :=
  Z.to_nat (Z.max (Conf.maxRetries (Conf.api cfg)) 2).

(** The answer is a 429. *)
Definition rate_limited (x : Exchange Value) : bool :=
  match settles x with
  | Responds r => status r =? 429
  | _ => false
  end.

(** The answer is a response that [request] turns into an [ApiError] at any
    attempt: neither a 2xx nor one of the statuses it retries. *)
Definition refused (x : Exchange Value) : bool :=
  match settles x with
  | Responds r =>
      negb (ok r) && negb (status r =? 429) && negb (500 <=? status r)
      && negb (status r =? 401)
  | _ => false
  end.

(** The lines [Final failure for ...] of the log. *)
Definition finalFailures (s : State) : list Entry :=
  filter (fun e => String.prefix "Final failure for " (text e) = true) (errors (log s)).

End Api.

(* ===================================================================== *)
(** ** [src/services/db.ts]                                                *)
(* ===================================================================== *)

Module Db.
Import Js Logger.

(** The [pg] driver as the service sees it: whether the connection test,
    the [k]-th query and the shutdown of the pool reject, and how long the
    [k]-th query takes. *)
Record Postgres := {
  connectError : option Error;
  queryError : nat -> option Error;
  queryTime : nat -> N;
  endError : option Error
}.

(** The running process: the API client with the clock and the log, and the
    [DatabaseService] singleton ([pool] is whether [this.pool] is set;
    [queries] holds the parameter arrays of the statements issued). *)
Record State := {
  client : Api.State;
  pool : bool;
  queries : list (list Value)
}.

Definition on_client (f : Api.State -> Api.State) (s : State) : State :=
  {| client := f (client s); pool := pool s; queries := queries s |}.

Definition logged (l : LogLevel) (t : string) (m : Meta) : State -> State :=
  on_client (Api.logged l t m).

Definition set_pool (b : bool) (s : State) : State :=
  {| client := client s; pool := b; queries := queries s |}.

Definition queried (values : list Value) (s : State) : State :=
  {| client := client s; pool := pool s; queries := queries s ++ [values] |}.

(** The elements of an array literal [[v.k1, v.k2, ...]]. *)
Fixpoint props (ks : list string) (v : Value) : Outcome (list Value) :=
  match ks with
  | [] => Returned []
  | k :: rest =>
      match prop k v, props rest v with
      | Returned x, Returned xs => Returned (x :: xs)
      | Threw e, _ => Threw e
      | _, Threw e => Threw e
      | _, _ => Pending
      end
  end.

Section Service.

Variable cfg : Conf.Config.
Variable pg : Postgres.

Definition connect (s : State) : Outcome unit * State :=
  if Conf.useMock (Conf.db cfg) then
    (Returned tt, logged INFO "Using MOCK Database configuration." NoMeta s)
  else if negb (pool s) then
    let s := set_pool true s in
    match connectError pg with
    | None => (Returned tt, logged INFO "Successfully connected to database" NoMeta s)
    | Some err =>
        (Threw err,
         logged ERROR "Failed to connect to database"
                (MetaValue (Obj [("error", Str (message err))])) s)
    end
  else (Returned tt, s).

Definition upsertCampaign (campaign : Value) (s : State) : Outcome unit * State :=
  if Conf.useMock (Conf.db cfg) then
    reading (prop "id" campaign) s (fun id =>
    reading (prop "name" campaign) s (fun name =>
      (Returned tt,
       logged INFO "[MOCK DB] Upserted campaign"
              (MetaValue (Obj [("id", id); ("name", name)])) s)))
  else if negb (pool s) then
    (Threw (Failure "Database not initialized. Call connect() first."), s)
  else
    match props ["id"; "name"; "status"; "budget"; "impressions"; "clicks"; "conversions"]
                campaign with
    | Returned values =>
        let id := hd Undefined values in
        let k := length (queries s) in
        let s := on_client (Api.tick (Z.of_N (queryTime pg k))) (queried values s) in
        match queryError pg k with
        | None =>
            (Returned tt,
             logged DEBUG "Saved campaign to DB" (MetaValue (Obj [("id", id)])) s)
        | Some err =>
            (Threw err,
             logged ERROR "Failed to save campaign to DB"
                    (MetaValue (Obj [("id", id); ("error", Str (message err))])) s)
        end
    | Threw e => (Threw e, s)
    | Pending => (Pending, s)
    end.

Definition close (s : State) : Outcome unit * State :=
  if pool s then
    match endError pg with
    | None => (Returned tt, logged INFO "Database connection pool closed" NoMeta s)
    | Some err => (Threw err, s)
    end
  else (Returned tt, s).

End Service.

End Db.

(* ===================================================================== *)
(** ** [src/services/sync.ts] and [src/index.ts]                           *)
(* ===================================================================== *)

Module Sync.
Import Js Logger.

Definition State := Db.State.

(** A method of [this.api], run on the client inside the process. *)
Definition on_api {A : Type} (f : Api.State -> Outcome A * Api.State) (s : Db.State)
  : Outcome A * Db.State :=
  let '(r, c) := f (Db.client s) in
  (r, {| Db.client := c; Db.pool := Db.pool s; Db.queries := Db.queries s |}).

(** [new SyncService()] in a fresh process. *)
Definition create (cfg : Conf.Config) (t0 : Z) (script : list (Api.Exchange Value)) : Db.State :=
  {| Db.client := Api.create cfg t0 script; Db.pool := false; Db.queries := [] |}.

Section Service.

Variable cfg : Conf.Config.
Variable remote : Api.Remote.
Variable pg : Db.Postgres.

(** The [while (hasMore)] loop of [fetchAllCampaigns]. A page that is
    returned has taken an answer of the server, so the loop body runs at
    most once per answer still to come: [fuel] counts the iterations left. *)
Fixpoint fetchPages (fuel : nat) (allCampaigns : list Value) (page : Z) (s : Db.State)
  : Outcome (list Value) * Db.State :=
  match fuel with
  | O => (Pending, s)
  | S fuel =>
      let s := Db.logged INFO ("Fetching campaigns page " +:+ pretty page +:+ "...") NoMeta s in
      match on_api (Api.getCampaigns cfg remote page 10) s with
      | (Returned response, s) =>
          reading (if truthy response then prop "data" response else Returned response) s
            (fun guard =>
               if truthy guard then
                 let allCampaigns := concat allCampaigns guard in
                 reading (prop "pagination" response) s (fun pagination =>
                 reading (prop "has_more" pagination) s (fun hasMore =>
                   if truthy hasMore then fetchPages fuel allCampaigns (page + 1) s
                   else (Returned allCampaigns, s)))
               else
                 (Returned allCampaigns,
                  Db.logged WARN "Unexpected response format from API"
                            (MetaValue (Obj [("response", response)])) s))
      | (Threw e, s) => (Threw e, s)
      | (Pending, s) => (Pending, s)
      end
  end.

Definition fetchAllCampaigns (s : Db.State) : Outcome (list Value) * Db.State :=
  fetchPages (S (length (Api.apiServer (Db.client s)))) [] 1 s.

(** The body of the inner [try]: remote trigger, then local upsert. *)
Definition syncOne (campaign name : Value) (s : Db.State) : Outcome unit * Db.State :=
  reading (prop "id" campaign) s (fun id =>
    match on_api (Api.syncCampaign cfg remote id) s with
    | (Returned _, s) =>
        match Db.upsertCampaign cfg pg campaign s with
        | (Returned _, s) =>
            (Returned tt,
             Db.logged INFO ("Successfully synced " +:+ to_string name) NoMeta s)
        | other => other
        end
    | (Threw e, s) => (Threw e, s)
    | (Pending, s) => (Pending, s)
    end).

(** The [for] loop of [start], from index [i] on: [campaigns] are the
    records [allCampaigns[i]], [allCampaigns[i + 1]], ... *)
Fixpoint syncEach (campaigns : list Value) (total i successCount failureCount : nat)
    (s : Db.State) : Outcome (nat * nat) * Db.State :=
  match campaigns with
  | [] => (Returned (successCount, failureCount), s)
  | campaign :: rest =>
      reading (prop "name" campaign) s (fun name =>
      reading (prop "id" campaign) s (fun id =>
        let s := Db.logged INFO
                   ("[" +:+ pretty (i + 1)%nat +:+ "/" +:+ pretty total +:+ "] Processing campaign: "
                    +:+ to_string name +:+ " (" +:+ to_string id +:+ ")") NoMeta s in
        match syncOne campaign name s with
        | (Returned _, s) => syncEach rest total (S i) (S successCount) failureCount s
        | (Threw error, s) =>
            let s := Db.logged ERROR ("Failed to sync campaign " +:+ to_string id)
                       (MetaValue (Obj [("error", Str (message error))])) s in
            syncEach rest total (S i) successCount (S failureCount) s
        | (Pending, s) => (Pending, s)
        end))
  end.

(** The summary object logged when the loop is over. *)
Definition report (successCount failureCount total : nat) : Meta :=
  MetaValue (Obj [("successful", Num (Z.of_nat successCount));
                  ("failed", Num (Z.of_nat failureCount));
                  ("total", Num (Z.of_nat total))]).

(** The [try] block of [start]. *)
Definition run (s : Db.State) : Outcome unit * Db.State :=
  match Db.connect cfg pg s with
  | (Returned _, s) =>
      match fetchAllCampaigns s with
      | (Returned allCampaigns, s) =>
          let total := length allCampaigns in
          let s := Db.logged INFO
                     ("Fetched " +:+ pretty total +:+ " total campaigns from API.") NoMeta s in
          match syncEach allCampaigns total 0 0 0 s with
          | (Returned (successCount, failureCount), s) =>
              (Returned tt,
               Db.logged INFO "Sync Service Completed"
                         (report successCount failureCount total) s)
          | (Threw e, s) => (Threw e, s)
          | (Pending, s) => (Pending, s)
          end
      | (Threw e, s) => (Threw e, s)
      | (Pending, s) => (Pending, s)
      end
  | other => other
  end.

(** [start]: the [try] block, its [catch] and its [finally]. *)
Definition start (s : Db.State) : Outcome unit * Db.State :=
  let s := Db.logged INFO "Starting Campaign Sync Service..." NoMeta s in
  match run s with
  | (Returned _, s) => Db.close pg s
  | (Threw error, s) =>
      let s := Db.logged ERROR "Fatal error in Sync Service"
                 (MetaValue (Obj [("error", Str (message error))])) s in
      match Db.close pg s with
      | (Returned _, s) => (Threw error, s)
      | other => other
      end
  | (Pending, s) => (Pending, s)
  end.

(** [main]: the exit code of the process ([None] while it has not exited). *)
Definition main (s : Db.State) : option Z * Db.State :=
  match start s with
  | (Returned _, s) =>
      (Some 0, Db.logged INFO "Application finished successfully." NoMeta s)
  | (Threw _, s) =>
      (Some 1, Db.logged ERROR "Application finished with errors." NoMeta s)
  | (Pending, s) => (None, s)
  end.

End Service.

(** *** Vocabulary of the properties *)

(** [v] is a page of the campaigns endpoint:
    [{ data: [...records], pagination: { ..., has_more: more } }]. *)
Definition is_page (records : list Value) (more : bool) (v : Value) : Prop :=
  exists fs ps,
    v = Obj fs /\ field "data" fs = Arr records /\
    field "pagination" fs = Obj ps /\ field "has_more" ps = Bool more.

(** The server answers with a page. *)
Definition serves (records : list Value) (more : bool) (x : Api.Exchange Value) : Prop :=
  exists v, Api.delivers v x /\ is_page records more v.

(** The address of page [n]. *)
Definition page_url (cfg : Conf.Config) (n : nat) : string :=
  Conf.baseUrl (Conf.api cfg) +:+ "/api/campaigns?page=" +:+ pretty (Z.of_nat n) +:+ "&limit=10".

(** A record: anything but [null] and [undefined]. *)
Definition is_record (v : Value) : Prop := nullish v = false.

(** The log of the process. *)
Definition journal (s : Db.State) : list Entry := Api.log (Db.client s).

(** The line that reports a record as synced, and the one that reports it
    as failed; how many of each a log holds. *)
Definition is_success (e : Entry) : bool :=
  is_level INFO e && String.prefix "Successfully synced " (text e).

Definition is_failure (e : Entry) : bool :=
  is_level ERROR e && String.prefix "Failed to sync campaign " (text e).

Definition successes (log : list Entry) : nat :=
  length (filter (fun e => is_success e = true) log).

Definition failures (log : list Entry) : nat :=
  length (filter (fun e => is_failure e = true) log).

(** The two counts of a log, the successes first. *)
Definition verdicts (log : list Entry) : nat * nat := (successes log, failures log).

(** The database rejects the statement it is given as its [q]-th (the mock
    is given none, and rejects nothing). *)
Definition rejects (cfg : Conf.Config) (pg : Db.Postgres) (q : nat) : bool :=
  negb (Conf.useMock (Conf.db cfg)) && bool_decide (is_Some (Db.queryError pg q)).

(** How many records fail, when the remote triggers of the records are
    answered by [triggers], one answer each, and [q] statements have been
    issued before: a record whose trigger is refused fails, and no statement
    is issued for it; a record whose trigger is delivered has one statement
    issued, and fails when the database rejects it. *)
Fixpoint failing (cfg : Conf.Config) (pg : Db.Postgres) (q : nat)
    (triggers : list (Api.Exchange Value)) : nat :=
  match triggers with
  | [] => O
  | x :: rest =>
      if Api.refused x then S (failing cfg pg q rest)
      else ((if rejects cfg pg q then 1 else 0) + failing cfg pg (S q) rest)%nat
  end.

(** The line that announces the processing of [allCampaigns[i]]. *)
Definition announcement (total i : nat) (campaign : Value) : Entry :=
  {| level := INFO;
     text := "[" +:+ pretty (i + 1)%nat +:+ "/" +:+ pretty total +:+ "] Processing campaign: "
             +:+ to_string (get "name" campaign)
             +:+ " (" +:+ to_string (get "id" campaign) +:+ ")";
     meta := NoMeta |}.

End Sync.

(* ===================================================================== *)
(** ** A sample world                                                      *)
(* ===================================================================== *)

Module Sample.
Import Js Logger.

(** The configuration loaded from an empty environment, and the one that
    only switches the database mock on. *)
Definition cfg : Conf.Config := Conf.config ∅.
Definition mockCfg : Conf.Config := Conf.config {[ "USE_MOCK_DB" := "true" ]}.

(** A token service that always grants the same one-hour token, and timers
    that fire on time. *)
Definition granted : Api.Exchange Api.AuthPayload :=
  {| Api.elapsed := 50;
     Api.settles :=
       Api.Responds {| Api.status := 200; Api.statusText := "OK"; Api.retryAfter := None;
                       Api.body := Some {| Api.access_token := Some "token-1";
                                           Api.expires_in := Some 3600 |} |} |}.

Definition remote : Api.Remote :=
  {| Api.authServer := fun _ => granted; Api.timerLag := fun _ => 0%N |}.

(** Answers of the API: a response after 100 ms, a timeout after 10 s, a
    connection reset after 10 s. *)
Definition answer (code : Z) (reason : string) (v : Value) : Api.Exchange Value :=
  {| Api.elapsed := 100;
     Api.settles :=
       Api.Responds {| Api.status := code; Api.statusText := reason;
                       Api.retryAfter := None; Api.body := Some v |} |}.

Definition timedOut : Api.Exchange Value :=
  {| Api.elapsed := 10000; Api.settles := Api.Aborts |}.

Definition reset : Api.Exchange Value :=
  {| Api.elapsed := 10000; Api.settles := Api.Fails "ECONNRESET" |}.

(** A 429 that carries a [retry-after] header. *)
Definition tooManyAfter (seconds : string) : Api.Exchange Value :=
  {| Api.elapsed := 100;
     Api.settles :=
       Api.Responds {| Api.status := 429; Api.statusText := "Too Many Requests";
                       Api.retryAfter := Some seconds; Api.body := Some Null |} |}.

Definition unavailable : Api.Exchange Value := answer 503 "Service Unavailable" Null.
Definition tooMany : Api.Exchange Value := answer 429 "Too Many Requests" Null.
Definition unauthorized : Api.Exchange Value := answer 401 "Unauthorized" Null.
Definition notFound : Api.Exchange Value := answer 404 "Not Found" Null.
Definition done : Api.Exchange Value := answer 200 "OK" (Obj [("success", Bool true)]).

(** Campaigns and pages as the mock API serves them. *)
Definition campaign (n : Z) : Value :=
  Obj [("id", Str ("campaign_" +:+ pretty n)); ("name", Str ("Campaign " +:+ pretty n));
       ("status", Str "active"); ("budget", Num 1000); ("impressions", Num 50);
       ("clicks", Num 5); ("conversions", Num 1)].

Definition page (records : list Value) (n : Z) (more : bool) : Value :=
  Obj [("data", Arr records);
       ("pagination", Obj [("page", Num n); ("limit", Num 10); ("has_more", Bool more)])].

(** A client that already holds a token valid for an hour, long after its
    last request. *)
Definition warm (script : list (Api.Exchange Value)) : Api.State :=
  {| Api.accessToken := Some "token-1";
     Api.tokenExpiry := 4600000;
     Api.lastRequestTime := 0;
     Api.minRequestInterval := 6500;
     Api.now := 1000000;
     Api.apiServer := script;
     Api.authExchanges := 1;
     Api.timers := 0;
     Api.calls := [];
     Api.log := [] |}.

(** The campaigns [first], ..., [first + count - 1]. *)
Definition campaigns (first : nat) (count : nat) : list Value :=
  (fun n => campaign (Z.of_nat n)) <$> seq first count.

(** A hundred campaigns served in ten pages of ten, followed by a success
    for each of the hundred remote triggers. *)
Definition hundred : list (Api.Exchange Value) :=
  ((fun p => answer 200 "OK"
               (page (campaigns (10 * p + 1) 10) (Z.of_nat (S p)) (p <? 9)%nat))
     <$> seq 0 10)
  ++ repeat done 100.

(** A database that accepts everything but the statement of index [k]. *)
Definition failingAt (k : nat) : Db.Postgres :=
  {| Db.connectError := None;
     Db.queryError := fun j => if (j =? k)%nat then Some (Failure "deadlock detected") else None;
     Db.queryTime := fun _ => 5%N;
     Db.endError := None |}.

(** A database that accepts everything but the second statement. *)
Definition postgres : Db.Postgres := failingAt 1.

(** A database that cannot be reached, and one whose pool does not shut
    down cleanly. *)
Definition unreachable : Db.Postgres :=
  {| Db.connectError := Some (Failure "connect ECONNREFUSED 127.0.0.1:5432");
     Db.queryError := fun _ => None;
     Db.queryTime := fun _ => 5%N;
     Db.endError := None |}.

Definition stuck : Db.Postgres :=
  {| Db.connectError := None;
     Db.queryError := fun _ => None;
     Db.queryTime := fun _ => 5%N;
     Db.endError := Some (Failure "Called end on pool more than once") |}.

(** A token service that refuses the credentials, and one whose tokens last
    thirty seconds. *)
Definition denied : Api.Exchange Api.AuthPayload :=
  {| Api.elapsed := 50;
     Api.settles :=
       Api.Responds {| Api.status := 401; Api.statusText := "Unauthorized";
                       Api.retryAfter := None; Api.body := None |} |}.

Definition lockedOut : Api.Remote :=
  {| Api.authServer := fun _ => denied; Api.timerLag := fun _ => 0%N |}.

Definition brief : Api.Exchange Api.AuthPayload :=
  {| Api.elapsed := 50;
     Api.settles :=
       Api.Responds {| Api.status := 200; Api.statusText := "OK"; Api.retryAfter := None;
                       Api.body := Some {| Api.access_token := Some "token-2";
                                           Api.expires_in := Some 30 |} |} |}.

(** A token service that gives its tokens a lifetime of zero. *)
Definition lifeless : Api.Remote :=
  {| Api.authServer :=
       fun _ =>
         {| Api.elapsed := 50;
            Api.settles :=
              Api.Responds {| Api.status := 200; Api.statusText := "OK";
                              Api.retryAfter := None;
                              Api.body := Some {| Api.access_token := Some "token-0";
                                                  Api.expires_in := Some 0 |} |} |};
     Api.timerLag := fun _ => 0%N |}.

Definition hasty : Api.Remote :=
  {| Api.authServer := fun _ => brief; Api.timerLag := fun _ => 0%N |}.

(** A 200 whose body is not JSON. *)
Definition garbled : Api.Exchange Value :=
  {| Api.elapsed := 100;
     Api.settles :=
       Api.Responds {| Api.status := 200; Api.statusText := "OK"; Api.retryAfter := None;
                       Api.body := None |} |}.

End Sample.

(* ===================================================================== *)
(** * Properties                                                          *)
(* ===================================================================== *)

Import Js Logger.

Arguments Js.timer_delay : simpl never.
Arguments Js.parseInt : simpl never.
Arguments Api.base64 : simpl never.
Arguments Api.show : simpl never.
Arguments Api.backoff : simpl never.
Arguments Api.enforceRateLimit : simpl never.
Arguments Api.sleep : simpl never.
Arguments Logger.warnings : simpl never.

(** ** Timers *)

Lemma Js_timer_delay_pos ms : 1 <= Js.timer_delay ms.
Proof.
  unfold Js.timer_delay. destruct ms as [d|]; [|lia].
  destruct (Z.leb_spec 1 d); simpl; [|lia].
  destruct (Z.leb_spec d 2147483647); lia.
Qed.

Lemma Js_timer_delay_exact d :
  1 <= d <= 2147483647 -> Js.timer_delay (Some d) = d.
Proof.
  intros [H1 H2]. unfold Js.timer_delay.
  destruct (Z.leb_spec 1 d); [|lia].
  destruct (Z.leb_spec d 2147483647); simpl; lia.
Qed.

(** ** Configuration *)

Lemma or_else_set (v d : string) : v <> "" -> Js.or_else (Some v) d = v.
Proof.
  intros Hv. unfold Js.or_else.
  destruct (String.eqb_spec v ""); [contradiction | reflexivity].
Qed.

(** The three tuning constants of the client do not depend on the
    environment. *)
Lemma config_constants (env : gmap string string) :
  Conf.minRequestIntervalMs (Conf.api (Conf.config env)) = 6500 /\
  Conf.timeoutMs (Conf.api (Conf.config env)) = 10000 /\
  Conf.maxRetries (Conf.api (Conf.config env)) = 3.
Proof. repeat split. Qed.

(** C8, as stated, fails: the maximum number of retries (like the minimum
    request interval and the timeout) is the same in all environments. *)
Lemma not_every_option_overridable :
  ~ (forall o : Conf.Option_, Conf.overridable o).
Proof.
  intros H. destruct (H Conf.MaxRetries) as (env1 & env2 & Hne).
  apply Hne. reflexivity.
Qed.

(** C8 (amended): an option is overridable through the environment exactly
    when [config.ts] reads it from [process.env], that is for the base URL,
    the credentials, the database connection parameters and the mock-database
    toggle; the minimum request interval, the timeout and the maximum number of
    retries are fixed at 6500, 10000 and 3. *)
Theorem config_overridable_options :
  (forall o : Conf.Option_,
     match Conf.env_variable o with
     | Some _ => Conf.overridable o
     | None =>
         forall env1 env2,
           Conf.setting o (Conf.config env1) = Conf.setting o (Conf.config env2)
     end) /\
  (forall env,
     Conf.setting Conf.MinRequestInterval (Conf.config env) = Conf.Numeric (Some 6500) /\
     Conf.setting Conf.RequestTimeout (Conf.config env) = Conf.Numeric (Some 10000) /\
     Conf.setting Conf.MaxRetries (Conf.config env) = Conf.Numeric (Some 3)).
Proof.
  split.
  - intros o. destruct o; simpl; try reflexivity.
    all: match goal with
         | |- Conf.overridable Conf.MockToggle =>
             exists ∅, {[ "USE_MOCK_DB" := "true" ]}
         | |- Conf.overridable Conf.DbPort =>
             exists ∅, {[ "DB_PORT" := "6543" ]}
         | |- Conf.overridable Conf.ApiBaseUrl =>
             exists ∅, {[ "AD_PLATFORM_API_URL" := "x" ]}
         | |- Conf.overridable Conf.ApiEmail =>
             exists ∅, {[ "API_USERNAME" := "x" ]}
         | |- Conf.overridable Conf.ApiPassword =>
             exists ∅, {[ "API_PASSWORD" := "x" ]}
         | |- Conf.overridable Conf.DbHost =>
             exists ∅, {[ "DB_HOST" := "x" ]}
         | |- Conf.overridable Conf.DbName =>
             exists ∅, {[ "DB_NAME" := "x" ]}
         | |- Conf.overridable Conf.DbUser =>
             exists ∅, {[ "DB_USER" := "x" ]}
         | |- Conf.overridable Conf.DbPassword =>
             exists ∅, {[ "DB_PASSWORD" := "x" ]}
         end; vm_compute; discriminate.
  - intros env. repeat split.
Qed.

(** ** The rate limiter *)

Section RateLimiter.

Variable cfg : Conf.Config.
Variable remote : Api.Remote.

Lemma spaced_nil gap : Api.spaced gap [].
Proof. intros i c1 c2 H. rewrite lookup_nil in H. discriminate. Qed.

(** A call that starts [gap] after all earlier ones keeps the calls spaced. *)
Lemma spaced_snoc gap cs c :
  Api.spaced gap cs ->
  Forall (fun c' => Api.startedAt c' + gap <= Api.startedAt c) cs ->
  Api.spaced gap (cs ++ [c]).
Proof.
  intros Hsp Hall i c1 c2 H1 H2.
  destruct (decide (S i < length cs)%nat) as [Hlt | Hge].
  - rewrite lookup_app_l in H1 by lia. rewrite lookup_app_l in H2 by lia.
    eapply Hsp; eassumption.
  - assert (Hi : (i < length cs)%nat).
    { apply lookup_lt_Some in H2. rewrite length_app in H2. simpl in H2. lia. }
    rewrite lookup_app_l in H1 by lia.
    rewrite lookup_app_r in H2 by lia.
    replace (S i - length cs)%nat with 0%nat in H2 by lia.
    simpl in H2. injection H2 as <-.
    rewrite Forall_forall in Hall.
    assert (Hin : c1 ∈ cs) by (eapply list_elem_of_lookup_2; eassumption).
    specialize (Hall c1 Hin). simpl in Hall. lia.
Qed.

Lemma paced_logged l t m s : Api.paced s -> Api.paced (Api.logged l t m s).
Proof. intros H. exact H. Qed.

Lemma paced_set_token t e s : Api.paced s -> Api.paced (Api.set_token t e s).
Proof. intros H. exact H. Qed.

Lemma paced_answered_auth s : Api.paced s -> Api.paced (Api.answered_auth s).
Proof. intros H. exact H. Qed.

Lemma paced_answered_api rest s : Api.paced s -> Api.paced (Api.answered_api rest s).
Proof. intros H. exact H. Qed.

Lemma paced_tick d s : 0 <= d -> Api.paced s -> Api.paced (Api.tick d s).
Proof.
  intros Hd (Hmax & Hle & Hall & Hsp). repeat split; simpl; try assumption. lia.
Qed.

Lemma paced_sleep ms s : Api.paced s -> Api.paced (Api.sleep remote ms s).
Proof.
  intros H. unfold Api.sleep.
  assert (Hp := Js_timer_delay_pos ms).
  change (Api.paced (Api.tick (Js.timer_delay ms + Z.of_N (Api.timerLag remote (Api.timers s))) s)).
  apply paced_tick; [lia | assumption].
Qed.

(** [enforceRateLimit] returns once the minimum interval has elapsed since
    the last recorded request, and records the current time. *)
Lemma enforceRateLimit_cleared s :
  Api.paced s -> Api.cleared (Api.enforceRateLimit remote s).
Proof.
  intros (Hmax & Hle & Hall & Hsp). unfold Api.enforceRateLimit.
  destruct (Z.ltb_spec (Api.now s - Api.lastRequestTime s) (Api.minRequestInterval s))
    as [Hwait | Hfree].
  - set (w := Api.minRequestInterval s - (Api.now s - Api.lastRequestTime s)).
    assert (Hw : Js.timer_delay (Some w) = w)
      by (apply Js_timer_delay_exact; unfold w; lia).
    repeat split; simpl; try assumption.
    rewrite Hw. eapply Forall_impl; [exact Hall |].
    simpl. intros c Hc. unfold w. lia.
  - repeat split; simpl; try assumption.
    eapply Forall_impl; [exact Hall |]. simpl. intros c Hc. lia.
Qed.

Lemma cleared_logged l t m s : Api.cleared s -> Api.cleared (Api.logged l t m s).
Proof. intros H. exact H. Qed.

Lemma cleared_paced s : Api.cleared s -> Api.paced s.
Proof.
  intros (Hmax & Hnow & Hall & Hsp). repeat split; try assumption; [lia |].
  eapply Forall_impl; [exact Hall |]. simpl. intros c Hc. lia.
Qed.

(** A call issued right after [enforceRateLimit] keeps the invariant. *)
Lemma called_paced v u a s : Api.cleared s -> Api.paced (Api.called v u a s).
Proof.
  intros (Hmax & Hnow & Hall & Hsp). repeat split; simpl; try assumption.
  - lia.
  - apply Forall_app. split.
    + eapply Forall_impl; [exact Hall |]. simpl. intros c Hc. lia.
    + constructor; [simpl; lia | constructor].
  - apply spaced_snoc; [assumption |].
    eapply Forall_impl; [exact Hall |]. simpl. intros c Hc. lia.
Qed.

Lemma paced_elapsed {B} (x : Api.Exchange B) s :
  Api.paced s -> Api.paced (Api.tick (Z.of_N (Api.elapsed x)) s).
Proof. apply paced_tick. lia. Qed.

Create HintDb paced.
#[local] Hint Resolve paced_logged paced_set_token paced_answered_auth paced_answered_api
  paced_sleep paced_elapsed called_paced cleared_logged cleared_paced
  enforceRateLimit_cleared : paced.

Lemma getAccessToken_paced s :
  Api.paced s -> Api.paced (snd (Api.getAccessToken cfg remote s)).
Proof.
  intros H. unfold Api.getAccessToken, Api.authenticationFailed.
  destruct (_ && _); [exact H |].
  set (x := Api.authServer remote _).
  destruct (Api.settles x) as [r | | reason]; simpl.
  - destruct (negb (Api.ok r)); simpl; [auto 10 with paced |].
    destruct (Api.body r); simpl; auto 10 with paced.
  - auto 10 with paced.
  - auto 10 with paced.
Qed.

Lemma finalFailure_paced endpoint retryCount e s :
  Api.paced s -> Api.paced (snd (Api.finalFailure endpoint retryCount e s)).
Proof. intros H. destruct retryCount; exact H. Qed.

Lemma request_from_paced server :
  forall endpoint options retryCount s,
    Api.paced s ->
    Api.paced (snd (Api.request_from cfg remote server endpoint options retryCount s)).
Proof.
  induction server as [| x rest IH]; intros endpoint options retryCount s H.
  - simpl. pose proof (getAccessToken_paced s H) as Hg.
    destruct (Api.getAccessToken cfg remote s) as [[tok | e |] s1]; simpl in *.
    + auto 10 with paced. 
    + now apply finalFailure_paced.
    + assumption.
  - simpl. pose proof (getAccessToken_paced s H) as Hg.
    destruct (Api.getAccessToken cfg remote s) as [[tok | e |] s1]; simpl in *.
    2: now apply finalFailure_paced.
    2: assumption.
    set (s2 := Api.answered_api rest _).
    assert (H2 : Api.paced s2) by (unfold s2; auto 10 with paced).
    clearbody s2.
    destruct (Api.settles x) as [r | | reason].
    + unfold Api.onResponse, Api.networkError.
      repeat match goal with
             | |- context [if ?b then _ else _] => destruct b
             | |- context [match Api.body ?r with _ => _ end] => destruct (Api.body r)
             end;
        solve [ apply IH; auto 10 with paced
              | apply finalFailure_paced; auto 10 with paced
              | simpl; auto 10 with paced ].
    + unfold Api.onAbort. destruct (Api.below _ _).
      * apply IH; auto with paced.
      * apply finalFailure_paced; assumption.
    + unfold Api.networkError. destruct (Api.below _ _).
      * apply IH; auto with paced.
      * apply finalFailure_paced; assumption.
Qed.

End RateLimiter.

(** ** What the operations of the client leave alone *)

Section Frame.

Variable cfg : Conf.Config.
Variable remote : Api.Remote.

(** What logging, sleeping and caching a token leave alone. *)
Lemma logged_fields l t m s :
  Api.accessToken (Api.logged l t m s) = Api.accessToken s /\
  Api.tokenExpiry (Api.logged l t m s) = Api.tokenExpiry s /\
  Api.now (Api.logged l t m s) = Api.now s /\
  Api.apiServer (Api.logged l t m s) = Api.apiServer s /\
  Api.authExchanges (Api.logged l t m s) = Api.authExchanges s /\
  Api.calls (Api.logged l t m s) = Api.calls s.
Proof. repeat split. Qed.

Lemma set_token_fields t e s :
  Api.accessToken (Api.set_token t e s) = t /\
  Api.tokenExpiry (Api.set_token t e s) = e /\
  Api.now (Api.set_token t e s) = Api.now s /\
  Api.apiServer (Api.set_token t e s) = Api.apiServer s /\
  Api.authExchanges (Api.set_token t e s) = Api.authExchanges s /\
  Api.calls (Api.set_token t e s) = Api.calls s.
Proof. repeat split. Qed.

Lemma apiServer_logged l t m s : Api.apiServer (Api.logged l t m s) = Api.apiServer s.
Proof. reflexivity. Qed.

Lemma apiServer_set_token t e s : Api.apiServer (Api.set_token t e s) = Api.apiServer s.
Proof. reflexivity. Qed.

Lemma apiServer_sleep ms s : Api.apiServer (Api.sleep remote ms s) = Api.apiServer s.
Proof. reflexivity. Qed.

Lemma authExchanges_logged l t m s :
  Api.authExchanges (Api.logged l t m s) = Api.authExchanges s.
Proof. reflexivity. Qed.

Lemma authExchanges_set_token t e s :
  Api.authExchanges (Api.set_token t e s) = Api.authExchanges s.
Proof. reflexivity. Qed.

Lemma calls_logged l t m s : Api.calls (Api.logged l t m s) = Api.calls s.
Proof. reflexivity. Qed.

Lemma calls_set_token t e s : Api.calls (Api.set_token t e s) = Api.calls s.
Proof. reflexivity. Qed.

Lemma authenticationFailed_state {A} e s :
  snd (@Api.authenticationFailed A e s)
  = Api.logged ERROR "Authentication failed" (MetaValue (Obj [("error", Str (message e))])) s.
Proof. reflexivity. Qed.

Lemma filter_snoc_out {A} (P : A -> Prop) `{!forall e, Decision (P e)} (log : list A) e :
  ~ P e -> filter P (log ++ [e]) = filter P log.
Proof.
  intros Hout. rewrite filter_app, (filter_cons_False P e []) by exact Hout.
  rewrite filter_nil. apply app_nil_r.
Qed.

Lemma warnings_debug t m log :
  warnings (log ++ [{| level := DEBUG; text := t; meta := m |}]) = warnings log.
Proof. apply filter_snoc_out. discriminate. Qed.

Lemma warnings_info t m log :
  warnings (log ++ [{| level := INFO; text := t; meta := m |}]) = warnings log.
Proof. apply filter_snoc_out. discriminate. Qed.

Lemma warnings_error t m log :
  warnings (log ++ [{| level := ERROR; text := t; meta := m |}]) = warnings log.
Proof. apply filter_snoc_out. discriminate. Qed.

Lemma warnings_warn t m log :
  length (warnings (log ++ [{| level := WARN; text := t; meta := m |}]))
  = S (length (warnings log)).
Proof.
  unfold warnings. rewrite filter_app, length_app. simpl. lia.
Qed.

(** [enforceRateLimit] touches the clock, the timers, the last request time
    and the debug log only. *)
Lemma enforceRateLimit_frame s :
  let s' := Api.enforceRateLimit remote s in
  Api.accessToken s' = Api.accessToken s /\
  Api.tokenExpiry s' = Api.tokenExpiry s /\
  Api.minRequestInterval s' = Api.minRequestInterval s /\
  Api.apiServer s' = Api.apiServer s /\
  Api.authExchanges s' = Api.authExchanges s /\
  Api.calls s' = Api.calls s /\
  warnings (Api.log s') = warnings (Api.log s) /\
  Api.now s <= Api.now s'.
Proof.
  unfold Api.enforceRateLimit.
  destruct (_ <? _); simpl; repeat split; try apply warnings_debug; try lia.
  pose proof (Js_timer_delay_pos
                (Some (Api.minRequestInterval s - (Api.now s - Api.lastRequestTime s)))).
  lia.
Qed.

(** [getAccessToken] always settles; it leaves the answers of the API and the
    warnings alone, and makes at most one token exchange. *)
Lemma getAccessToken_frame s :
  let rs := Api.getAccessToken cfg remote s in
  fst rs <> Pending /\
  Api.minRequestInterval (snd rs) = Api.minRequestInterval s /\
  Api.apiServer (snd rs) = Api.apiServer s /\
  warnings (Api.log (snd rs)) = warnings (Api.log s) /\
  Api.now s <= Api.now (snd rs).
Proof.
  unfold Api.getAccessToken, Api.authenticationFailed.
  destruct (_ && _); [simpl; repeat split; try discriminate; lia |].
  set (s0 := Api.logged INFO _ NoMeta s).
  destruct (enforceRateLimit_frame s0) as (_ & _ & Hmin & Hsrv & _ & _ & Hw & Hnow).
  simpl in Hmin, Hsrv, Hw, Hnow. rewrite warnings_info in Hw.
  destruct (Api.settles _) as [r | | reason]; simpl.
  - destruct (negb (Api.ok r)); simpl.
    + rewrite warnings_error. repeat split; try discriminate; try assumption; lia.
    + destruct (Api.body r); simpl.
      * rewrite warnings_info. repeat split; try discriminate; try assumption; lia.
      * rewrite warnings_error. repeat split; try discriminate; try assumption; lia.
  - rewrite warnings_error. repeat split; try discriminate; try assumption; lia.
  - rewrite warnings_error. repeat split; try discriminate; try assumption; lia.
Qed.

Lemma finalFailure_frame endpoint retryCount e s :
  let rs := Api.finalFailure endpoint retryCount e s in
  fst rs = Threw e /\
  Api.minRequestInterval (snd rs) = Api.minRequestInterval s /\
  Api.apiServer (snd rs) = Api.apiServer s /\
  Api.accessToken (snd rs) = Api.accessToken s /\
  Api.tokenExpiry (snd rs) = Api.tokenExpiry s /\
  Api.authExchanges (snd rs) = Api.authExchanges s /\
  Api.calls (snd rs) = Api.calls s /\
  warnings (Api.log (snd rs)) = warnings (Api.log s).
Proof.
  destruct retryCount; simpl; repeat split. apply warnings_error.
Qed.

Lemma request_from_interval server :
  forall endpoint options retryCount s,
    Api.minRequestInterval
      (snd (Api.request_from cfg remote server endpoint options retryCount s))
    = Api.minRequestInterval s.
Proof.
  induction server as [| x rest IH]; intros endpoint options retryCount s; simpl;
    destruct (getAccessToken_frame s) as (_ & Hmin & _);
    destruct (Api.getAccessToken cfg remote s) as [[tok | e |] s1]; simpl in *;
    try assumption;
    try (destruct retryCount; simpl; assumption).
  - destruct (enforceRateLimit_frame s1) as (_ & _ & Hmin' & _). simpl in Hmin'. congruence.
  - destruct (enforceRateLimit_frame s1) as (_ & _ & Hmin' & _). simpl in Hmin'.
    destruct (Api.settles x) as [r | | reason];
      unfold Api.onResponse, Api.onAbort, Api.networkError, Api.finalFailure;
      repeat match goal with
             | |- context [if ?b then _ else _] => destruct b
             | |- context [match Api.body ?r with _ => _ end] => destruct (Api.body r)
             | |- context [match retryCount with _ => _ end] => destruct retryCount
             end;
      try rewrite IH; simpl; congruence.
Qed.

End Frame.

(** ** C1: quota compliance *)

Lemma create_paced cfg t0 script :
  0 <= t0 ->
  Conf.minRequestIntervalMs (Conf.api cfg) <= 2147483647 ->
  Api.paced (Api.create cfg t0 script).
Proof.
  intros Ht Hmin. repeat split; simpl; try assumption.
  - constructor.
  - apply spaced_nil.
Qed.

Lemma perform_paced cfg remote o s :
  Api.paced s -> Api.paced (Api.perform cfg remote o s).
Proof.
  intros H. destruct o; simpl.
  - now apply getAccessToken_paced.
  - now apply request_from_paced.
  - now apply request_from_paced.
  - apply paced_tick; [lia | assumption].
Qed.

Lemma perform_interval cfg remote o s :
  Api.minRequestInterval (Api.perform cfg remote o s) = Api.minRequestInterval s.
Proof.
  destruct o; simpl.
  - apply getAccessToken_frame.
  - apply request_from_interval.
  - apply request_from_interval.
  - reflexivity.
Qed.

Lemma session_paced cfg remote ops :
  forall s,
    Api.paced s ->
    Api.paced (Api.session cfg remote ops s) /\
    Api.minRequestInterval (Api.session cfg remote ops s) = Api.minRequestInterval s.
Proof.
  induction ops as [| o ops IH]; intros s H; simpl; [split; [assumption | reflexivity] |].
  destruct (IH (Api.perform cfg remote o s) (perform_paced cfg remote o s H)) as [Hp Hm].
  split; [assumption |]. rewrite Hm. apply perform_interval.
Qed.

(** C1. A client is created at a time [t0] of the epoch clock and then used
    in any way through its public methods ([getAccessToken], [getCampaigns],
    [syncCampaign]), with any pauses in between, against any server and with
    timers that may fire late. In the list of all outbound calls it has made,
    token exchanges included, two consecutive calls start at least
    [config.api.minRequestIntervalMs] apart. *)
Theorem rate_limit_spacing
    (env : gmap string string) (remote : Api.Remote) (t0 : Z)
    (script : list (Api.Exchange Value)) (ops : list Api.Op) :
  0 <= t0 ->
  let cfg := Conf.config env in
  Api.spaced (Conf.minRequestIntervalMs (Conf.api cfg))
             (Api.calls (Api.session cfg remote ops (Api.create cfg t0 script))).
Proof.
  intros Ht cfg.
  assert (Hc : Api.paced (Api.create cfg t0 script))
    by (apply create_paced; [assumption | simpl; lia]).
  destruct (session_paced cfg remote ops _ Hc) as [(_ & _ & _ & Hsp) Hm].
  rewrite Hm in Hsp. exact Hsp.
Qed.

(** ** The access token *)

Section Token.

Variable cfg : Conf.Config.
Variable remote : Api.Remote.

(** The condition under which [getAccessToken] answers from its cache. *)
Lemma cache_hit_iff s :
  Api.cached (Api.accessToken s) && (Api.now s <? Api.tokenExpiry s) = true <->
  exists tok, Api.accessToken s = Some tok /\ tok <> "" /\ Api.now s < Api.tokenExpiry s.
Proof.
  unfold Api.cached. rewrite andb_true_iff, Z.ltb_lt. split.
  - intros [Hc Hlt]. destruct (Api.accessToken s) as [tok |]; [| discriminate].
    exists tok. repeat split; [| assumption].
    intros ->. discriminate.
  - intros (tok & -> & Hne & Hlt). split; [| assumption].
    destruct (String.eqb_spec tok ""); [contradiction | reflexivity].
Qed.

Lemma getAccessToken_hit s :
  Api.cached (Api.accessToken s) && (Api.now s <? Api.tokenExpiry s) = true ->
  Api.getAccessToken cfg remote s = (Returned (Api.accessToken s), s).
Proof. intros H. unfold Api.getAccessToken. rewrite H. reflexivity. Qed.

Lemma exchanged_frame s :
  Api.authExchanges (Api.exchanged cfg remote s) = S (Api.authExchanges s) /\
  (exists c, Api.calls (Api.exchanged cfg remote s) = Api.calls s ++ [c] /\
             Api.verb c = "POST" /\
             Api.url c = Conf.baseUrl (Conf.api cfg) +:+ "/auth/token") /\
  Api.apiServer (Api.exchanged cfg remote s) = Api.apiServer s /\
  Api.minRequestInterval (Api.exchanged cfg remote s) = Api.minRequestInterval s.
Proof.
  unfold Api.exchanged.
  destruct (enforceRateLimit_frame remote
              (Api.logged INFO "Authenticating with Ad Platform API..." NoMeta s))
    as (_ & _ & Hmin & Hsrv & Hn & Hc & _).
  simpl in *. rewrite Hn, Hc. repeat split; try assumption.
  eexists. repeat split.
Qed.

(** A cache miss: one token exchange is made, and its answer decides. *)
Lemma getAccessToken_miss s :
  Api.cached (Api.accessToken s) && (Api.now s <? Api.tokenExpiry s) = false ->
  Api.getAccessToken cfg remote s =
    let s1 := Api.exchanged cfg remote s in
    match Api.settles (Api.authServer remote (Api.authExchanges s)) with
    | Api.Responds r =>
        if negb (Api.ok r) then
          Api.authenticationFailed
            (ApiError ("Auth failed: " +:+ Api.statusText r) (Some (Api.status r))) s1
        else
          match Api.body r with
          | Some data =>
              (Returned (Api.access_token data),
               Api.logged INFO "Authentication successful" NoMeta
                 (Api.set_token (Api.access_token data)
                    (Api.now s1 + Api.expiresIn data - 30000) s1))
          | None => Api.authenticationFailed (Failure "invalid json response body") s1
          end
    | Api.Aborts => Api.authenticationFailed AbortError s1
    | Api.Fails reason => Api.authenticationFailed (Failure reason) s1
    end.
Proof.
  intros H. unfold Api.getAccessToken, Api.exchanged. rewrite H.
  destruct (enforceRateLimit_frame remote
              (Api.logged INFO "Authenticating with Ad Platform API..." NoMeta s))
    as (_ & _ & _ & _ & Hn & _).
  cbv zeta. rewrite Hn. reflexivity.
Qed.

End Token.

(** C6, as stated, fails: the expiry that is cached is not always the
    lifetime the server gave (one hour standing in for a lifetime that is
    omitted) less the margin. A lifetime of 0 is given, and the token is cached
    for an hour. *)
Lemma token_lifetime_zero_is_not_kept :
  ~ (forall (cfg : Conf.Config) (remote : Api.Remote) (s : Api.State)
            (r : Api.Response Api.AuthPayload) (data : Api.AuthPayload),
       Api.accessToken s = None ->
       Api.settles (Api.authServer remote (Api.authExchanges s)) = Api.Responds r ->
       Api.ok r = true ->
       Api.body r = Some data ->
       let rs := Api.getAccessToken cfg remote s in
       Api.tokenExpiry (snd rs)
       = Api.now (snd rs) + default 3600 (Api.expires_in data) * 1000 - 30000).
Proof.
  intros H.
  specialize (H Sample.cfg Sample.lifeless (Api.create Sample.cfg 1000000 []) _ _
                eq_refl eq_refl eq_refl eq_refl).
  vm_compute in H. discriminate.
Qed.

(** C6 (amended). [getAccessToken] answers from the cache, without any call, when a
    token is cached (a non-empty string) and the clock is before its expiry.
    Otherwise it makes exactly one token exchange ([POST /auth/token]); when
    the exchange succeeds, the token of the answer is returned and cached, and
    its expiry is the time of the answer plus the lifetime the server gave in
    seconds (one hour when the lifetime is omitted or is 0, as [||] has it),
    minus 30 seconds. A second
    call, made any time before that expiry, returns the same token and leaves
    the state as it is: the two calls have made one exchange. *)
Theorem token_reuse (cfg : Conf.Config) (remote : Api.Remote) (s : Api.State) :
  let rs := Api.getAccessToken cfg remote s in
  (forall tok,
     Api.accessToken s = Some tok -> tok <> "" -> Api.now s < Api.tokenExpiry s ->
     rs = (Returned (Some tok), s)) /\
  (~ (exists tok,
        Api.accessToken s = Some tok /\ tok <> "" /\ Api.now s < Api.tokenExpiry s) ->
   Api.authExchanges (snd rs) = S (Api.authExchanges s) /\
   (exists c, Api.calls (snd rs) = Api.calls s ++ [c] /\
              Api.url c = Conf.baseUrl (Conf.api cfg) +:+ "/auth/token") /\
   forall r data,
     Api.settles (Api.authServer remote (Api.authExchanges s)) = Api.Responds r ->
     Api.ok r = true ->
     Api.body r = Some data ->
     fst rs = Returned (Api.access_token data) /\
     Api.accessToken (snd rs) = Api.access_token data /\
     (forall n, Api.expires_in data = Some n -> n <> 0 ->
                Api.tokenExpiry (snd rs) = Api.now (snd rs) + n * 1000 - 30000) /\
     (Api.expires_in data = None \/ Api.expires_in data = Some 0 ->
      Api.tokenExpiry (snd rs) = Api.now (snd rs) + 3600 * 1000 - 30000) /\
     (forall tok d,
        Api.access_token data = Some tok -> tok <> "" ->
        Api.now (snd rs) + d < Api.tokenExpiry (snd rs) ->
        Api.getAccessToken cfg remote (Api.tick d (snd rs))
        = (Returned (Some tok), Api.tick d (snd rs)))).
Proof.
  cbv zeta. split.
  - intros tok Htok Hne Hlt.
    rewrite getAccessToken_hit, Htok; [reflexivity |].
    apply cache_hit_iff. eauto.
  - intros Hmiss.
    assert (Hfalse : Api.cached (Api.accessToken s) && (Api.now s <? Api.tokenExpiry s) = false).
    { destruct (_ && _) eqn:E; [| reflexivity].
      exfalso. apply Hmiss. apply cache_hit_iff. exact E. }
    rewrite (getAccessToken_miss cfg remote s Hfalse). cbv zeta.
    destruct (exchanged_frame cfg remote s) as (Hn & (c & Hc & _ & Hurl) & _).
    assert (Hcalls : exists c, Api.calls (Api.exchanged cfg remote s) = Api.calls s ++ [c] /\
                               Api.url c = Conf.baseUrl (Conf.api cfg) +:+ "/auth/token")
      by eauto.
    clear c Hc Hurl.
    set (s1 := Api.exchanged cfg remote s) in *. clearbody s1.
    split; [| split].
    + destruct (Api.settles _) as [r | | reason];
        [destruct (negb (Api.ok r)); [| destruct (Api.body r)] | |];
        rewrite ?authenticationFailed_state; cbn [snd];
        rewrite ?authExchanges_logged, ?authExchanges_set_token; exact Hn.
    + destruct (Api.settles _) as [r | | reason];
        [destruct (negb (Api.ok r)); [| destruct (Api.body r)] | |];
        rewrite ?authenticationFailed_state; cbn [snd];
        rewrite ?calls_logged, ?calls_set_token; exact Hcalls.
    + intros r data Hr Hok Hbody. rewrite Hr, Hok, Hbody. simpl.
      split; [reflexivity |]. split; [reflexivity |]. split; [| split].
      * intros n Hn' Hnz. unfold Api.expiresIn. rewrite Hn'.
        destruct (Z.eqb_spec n 0); [contradiction | reflexivity].
      * intros [Hnone | Hzero]; unfold Api.expiresIn; [rewrite Hnone | rewrite Hzero];
          reflexivity.
      * intros tok d Htok Hne Hlt. simpl in Hlt.
        rewrite getAccessToken_hit; simpl; rewrite Htok; [reflexivity |].
        unfold Api.cached.
        destruct (String.eqb_spec tok ""); [contradiction |].
        apply andb_true_iff. split; [reflexivity |]. apply Z.ltb_lt. exact Hlt.
Qed.

(** ** One attempt of [request] *)

Section Attempt.

Variable cfg : Conf.Config.
Variable remote : Api.Remote.

(** [request] on a server that still answers: the token is obtained, the
    call is made, and the answer decides. *)
Lemma request_from_cons x rest endpoint options retryCount s :
  Api.request_from cfg remote (x :: rest) endpoint options retryCount s =
    match Api.getAccessToken cfg remote s with
    | (Returned token, s1) =>
        let s2 := Api.arrived cfg remote endpoint options x rest token s1 in
        let retry := Api.request_from cfg remote rest endpoint options (S retryCount) in
        match Api.settles x with
        | Api.Responds r => Api.onResponse cfg remote retry endpoint retryCount r s2
        | Api.Aborts => Api.onAbort cfg retry endpoint retryCount s2
        | Api.Fails reason =>
            Api.networkError cfg remote retry endpoint retryCount (Failure reason) s2
        end
    | (Threw e, s1) => Api.finalFailure endpoint retryCount e s1
    | (Pending, s1) => (Pending, s1)
    end.
Proof. reflexivity. Qed.

Lemma arrived_frame endpoint options x rest token s :
  let s' := Api.arrived cfg remote endpoint options x rest token s in
  Api.apiServer s' = rest /\
  Api.accessToken s' = Api.accessToken s /\
  Api.tokenExpiry s' = Api.tokenExpiry s /\
  Api.authExchanges s' = Api.authExchanges s /\
  Api.minRequestInterval s' = Api.minRequestInterval s /\
  warnings (Api.log s') = warnings (Api.log s) /\
  (exists c, Api.calls s' = Api.calls s ++ [c] /\
             Api.verb c = Api.method options /\
             Api.url c = Conf.baseUrl (Conf.api cfg) +:+ endpoint).
Proof.
  unfold Api.arrived.
  destruct (enforceRateLimit_frame remote s) as (Ht & He & Hmin & _ & Hn & Hc & Hw & _).
  cbn. rewrite warnings_debug, Hc.
  repeat split; try assumption.
  eexists. repeat split.
Qed.

Lemma sleep_frame ms s :
  let s' := Api.sleep remote ms s in
  Api.apiServer s' = Api.apiServer s /\
  Api.accessToken s' = Api.accessToken s /\
  Api.tokenExpiry s' = Api.tokenExpiry s /\
  Api.authExchanges s' = Api.authExchanges s /\
  Api.minRequestInterval s' = Api.minRequestInterval s /\
  Api.log s' = Api.log s /\
  Api.calls s' = Api.calls s.
Proof. unfold Api.sleep. cbn. repeat split. Qed.

(** With a token service that always answers, the token is always there. *)
Lemma getAccessToken_returns s :
  (forall j, Api.authenticates (Api.authServer remote j) = true) ->
  exists token, fst (Api.getAccessToken cfg remote s) = Returned token.
Proof.
  intros Hauth.
  destruct (Api.cached (Api.accessToken s) && (Api.now s <? Api.tokenExpiry s)) eqn:E.
  - rewrite getAccessToken_hit by exact E. eauto.
  - rewrite getAccessToken_miss by exact E. cbv zeta.
    specialize (Hauth (Api.authExchanges s)). unfold Api.authenticates in Hauth.
    destruct (Api.settles _) as [r | | reason]; try discriminate.
    apply andb_true_iff in Hauth as [Hok Hbody]. rewrite Hok. simpl.
    apply bool_decide_eq_true in Hbody. destruct Hbody as [data Hdata].
    rewrite Hdata. simpl. eauto.
Qed.

(** Token exchanges are [POST]s: they add nothing to the pages fetched. *)
Lemma getAccessToken_fetched s :
  Api.fetched (snd (Api.getAccessToken cfg remote s)) = Api.fetched s.
Proof.
  destruct (Api.cached (Api.accessToken s) && (Api.now s <? Api.tokenExpiry s)) eqn:E.
  - rewrite getAccessToken_hit by exact E. reflexivity.
  - rewrite getAccessToken_miss by exact E. cbv zeta.
    destruct (exchanged_frame cfg remote s) as (_ & (c & Hc & Hpost & _) & _).
    assert (Hverb : Api.fetched (Api.exchanged cfg remote s) = Api.fetched s).
    { unfold Api.fetched. rewrite Hc, filter_snoc_out; [reflexivity |].
      rewrite Hpost. discriminate. }
    destruct (Api.settles _) as [r | | reason]; simpl; try exact Hverb.
    destruct (negb (Api.ok r)); simpl; [exact Hverb |].
    destruct (Api.body r); simpl; exact Hverb.
Qed.

(** What a 2xx status is not. *)
Lemma ok_status {B} (r : Api.Response B) :
  Api.ok r = true ->
  (Api.status r =? 429) = false /\ (500 <=? Api.status r) = false /\
  (Api.status r =? 401) = false.
Proof.
  unfold Api.ok. rewrite andb_true_iff, !Z.leb_le. intros [H1 H2].
  repeat split; [apply Z.eqb_neq | apply Z.leb_gt | apply Z.eqb_neq]; lia.
Qed.

(** A 2xx answer whose body parses ends the call with that body. *)
Lemma onResponse_delivers retry endpoint retryCount r v s :
  Api.ok r = true -> Api.body r = Some v ->
  Api.onResponse cfg remote retry endpoint retryCount r s = (Returned v, s).
Proof.
  intros Hok Hbody. unfold Api.onResponse.
  destruct (ok_status r Hok) as (H429 & H500 & H401).
  rewrite H429, H500, H401, Hok, Hbody. reflexivity.
Qed.

(** A 429 is always followed by a wait and another attempt. *)
Lemma onResponse_limited retry endpoint retryCount r s :
  Api.status r = 429 ->
  Api.onResponse cfg remote retry endpoint retryCount r s =
    retry (Api.sleep remote (Api.rateLimitWait (Api.retryAfter r) retryCount)
             (Api.logged WARN
                ("Rate limit hit (429). Waiting "
                 +:+ Api.show (Api.rateLimitWait (Api.retryAfter r) retryCount)
                 +:+ "ms before retry...") NoMeta s)).
Proof. intros H. unfold Api.onResponse. rewrite H. reflexivity. Qed.

(** A 5xx is retried after a backoff while the retry ceiling allows. *)
Lemma onResponse_server_error retry endpoint retryCount r s :
  500 <= Api.status r ->
  Api.below retryCount (Conf.maxRetries (Conf.api cfg)) = true ->
  Api.onResponse cfg remote retry endpoint retryCount r s =
    retry (Api.sleep remote (Api.backoff 1000 retryCount)
             (Api.logged WARN
                ("Server error " +:+ pretty (Api.status r) +:+ ". Retrying in "
                 +:+ Api.show (Api.backoff 1000 retryCount) +:+ "ms...") NoMeta s)).
Proof.
  intros H Hb. unfold Api.onResponse.
  destruct (Z.eqb_spec (Api.status r) 429); [lia |].
  destruct (Z.leb_spec 500 (Api.status r)); [| lia].
  rewrite Hb. reflexivity.
Qed.

(** At the retry ceiling a 5xx ends the call with an [ApiError]. *)
Lemma onResponse_server_error_final retry endpoint retryCount r s :
  500 <= Api.status r ->
  Api.below retryCount (Conf.maxRetries (Conf.api cfg)) = false ->
  Api.onResponse cfg remote retry endpoint retryCount r s =
    Api.finalFailure endpoint retryCount
      (ApiError ("API Error: " +:+ pretty (Api.status r) +:+ " " +:+ Api.statusText r)
                (Some (Api.status r))) s.
Proof.
  intros H Hb. unfold Api.onResponse.
  destruct (Z.eqb_spec (Api.status r) 429); [lia |].
  destruct (Z.eqb_spec (Api.status r) 401); [lia |].
  rewrite Hb, andb_false_r. simpl.
  assert (Hok : Api.ok r = false).
  { unfold Api.ok. apply andb_false_iff. right. apply Z.leb_gt. lia. }
  rewrite Hok. reflexivity.
Qed.

(** A 401 clears the token; it is retried while [retryCount] is below 2. *)
Lemma onResponse_unauthorized retry endpoint retryCount r s :
  Api.status r = 401 ->
  Api.onResponse cfg remote retry endpoint retryCount r s =
    if Api.below retryCount 2 then
      retry (Api.logged WARN "Token expired or invalid (401), refreshing..." NoMeta
               (Api.set_token None 0 s))
    else
      Api.finalFailure endpoint retryCount
        (ApiError ("API Error: " +:+ pretty 401 +:+ " " +:+ Api.statusText r) (Some 401))
        (Api.set_token None 0 s).
Proof.
  intros H. unfold Api.onResponse, Api.ok. rewrite H. simpl.
  destruct (Api.below retryCount (Conf.maxRetries (Conf.api cfg))),
           (Api.below retryCount 2); reflexivity.
Qed.

End Attempt.

(** ** Retry chains *)

(** One attempt whose token is there: [s1] is the state after
    [getAccessToken], with what it has left alone. *)
Ltac attempt cfg remote Hauth s token s1 Hframe :=
  rewrite request_from_cons;
  pose proof (getAccessToken_frame cfg remote s) as Hframe;
  let E := fresh "E" in
  destruct (getAccessToken_returns cfg remote s Hauth) as [token E];
  destruct (Api.getAccessToken cfg remote s) as [? s1];
  simpl in E, Hframe; subst; cbv zeta;
  destruct Hframe as (_ & _ & _ & Hframe & _).

Section Retries.

Variable cfg : Conf.Config.
Variable remote : Api.Remote.
Hypothesis token_service : forall j, Api.authenticates (Api.authServer remote j) = true.

Lemma retryWarnings_retry ms t s0 s :
  warnings (Api.log s) = warnings (Api.log s0) ->
  Api.retryWarnings (Api.sleep remote ms (Api.logged WARN t NoMeta s))
  = S (Api.retryWarnings s0).
Proof.
  intros H. unfold Api.retryWarnings.
  destruct (sleep_frame remote ms (Api.logged WARN t NoMeta s)) as (_ & _ & _ & _ & _ & Hl & _).
  cbv zeta in Hl. rewrite Hl. cbn. rewrite warnings_warn, H. reflexivity.
Qed.

(** Any number of 429s, then a 2xx: the body of the 2xx is returned. *)
Lemma limited_then_delivered limited :
  Forall (Api.answers 429) limited ->
  forall x v rest endpoint options retryCount s,
    Api.delivers v x ->
    let rs := Api.request_from cfg remote (limited ++ x :: rest)
                endpoint options retryCount s in
    fst rs = Returned v /\
    Api.apiServer (snd rs) = rest /\
    Api.retryWarnings (snd rs) = (Api.retryWarnings s + length limited)%nat.
Proof.
  induction 1 as [| a limited (r & Ha & H429) _ IH];
    intros x v rest endpoint options retryCount s Hx; cbv zeta.
  - simpl app. attempt cfg remote token_service s token s1 Hw.
    destruct Hx as (r & Hr & Hok & Hbody).
    rewrite Hr, (onResponse_delivers cfg remote _ _ _ r v) by assumption. cbn [fst snd].
    destruct (arrived_frame cfg remote endpoint options x rest token s1)
      as (Hsrv & _ & _ & _ & _ & Hw' & _).
    split; [reflexivity |]. split; [exact Hsrv |].
    unfold Api.retryWarnings. rewrite Hw', Hw. simpl. lia.
  - simpl app. attempt cfg remote token_service s token s1 Hw.
    rewrite Ha, onResponse_limited by assumption.
    match goal with
    | |- context [Api.request_from _ _ _ _ _ _ ?s2] =>
        specialize (IH x v rest endpoint options (S retryCount) s2 Hx);
        assert (Hs2 : Api.retryWarnings s2 = S (Api.retryWarnings s))
    end.
    { apply retryWarnings_retry.
      destruct (arrived_frame cfg remote endpoint options a (limited ++ x :: rest) token s1)
        as (_ & _ & _ & _ & _ & Hw' & _).
      rewrite Hw', Hw. reflexivity. }
    cbv zeta in IH. destruct IH as (IH1 & IH2 & IH3).
    split; [exact IH1 |]. split; [exact IH2 |].
    rewrite IH3, Hs2. simpl. lia.
Qed.

(** 5xx answers within the retry ceiling, then a 2xx: the body of the 2xx
    is returned, after one warning per 5xx. *)
Lemma server_errors_then_delivered errors :
  Forall Api.server_error errors ->
  forall x v rest endpoint options retryCount s,
    Z.of_nat (retryCount + length errors) <= Conf.maxRetries (Conf.api cfg) ->
    Api.delivers v x ->
    let rs := Api.request_from cfg remote (errors ++ x :: rest)
                endpoint options retryCount s in
    fst rs = Returned v /\
    Api.apiServer (snd rs) = rest /\
    Api.retryWarnings (snd rs) = (Api.retryWarnings s + length errors)%nat.
Proof.
  induction 1 as [| a errors (r & Ha & H500) _ IH];
    intros x v rest endpoint options retryCount s Hmax Hx; cbv zeta.
  - simpl app. attempt cfg remote token_service s token s1 Hw.
    destruct Hx as (r & Hr & Hok & Hbody).
    rewrite Hr, (onResponse_delivers cfg remote _ _ _ r v) by assumption. cbn [fst snd].
    destruct (arrived_frame cfg remote endpoint options x rest token s1)
      as (Hsrv & _ & _ & _ & _ & Hw' & _).
    split; [reflexivity |]. split; [exact Hsrv |].
    unfold Api.retryWarnings. rewrite Hw', Hw. simpl. lia.
  - simpl app. attempt cfg remote token_service s token s1 Hw.
    simpl length in Hmax.
    rewrite Ha, onResponse_server_error
      by (try assumption; unfold Api.below; apply Z.ltb_lt; lia).
    match goal with
    | |- context [Api.request_from _ _ _ _ _ _ ?s2] =>
        specialize (IH x v rest endpoint options (S retryCount) s2);
        assert (Hs2 : Api.retryWarnings s2 = S (Api.retryWarnings s))
    end.
    { apply retryWarnings_retry.
      destruct (arrived_frame cfg remote endpoint options a (errors ++ x :: rest) token s1)
        as (_ & _ & _ & _ & _ & Hw' & _).
      rewrite Hw', Hw. reflexivity. }
    cbv zeta in IH. destruct IH as (IH1 & IH2 & IH3); [lia | exact Hx |].
    split; [exact IH1 |]. split; [exact IH2 |].
    rewrite IH3, Hs2. simpl. lia.
Qed.

(** The same 5xx answer past the retry ceiling: the attempt that finds the
    ceiling reached throws an [ApiError] with that status, and nothing more is
    asked of the server. *)
Lemma server_errors_exhaust code errors :
  500 <= code ->
  Forall (Api.answers code) errors ->
  forall rest endpoint options retryCount s,
    Z.of_nat (retryCount + length errors) = Conf.maxRetries (Conf.api cfg) + 1 ->
    (0 < length errors)%nat ->
    let rs := Api.request_from cfg remote (errors ++ rest)
                endpoint options retryCount s in
    (exists text, fst rs = Threw (ApiError text (Some code))) /\
    Api.apiServer (snd rs) = rest /\
    Api.retryWarnings (snd rs) = (Api.retryWarnings s + length errors - 1)%nat.
Proof.
  intros Hcode.
  induction 1 as [| a errors (r & Ha & H500) Hrest IH];
    intros rest endpoint options retryCount s Hmax Hpos; cbv zeta;
    [simpl in Hpos; lia |].
  simpl app. simpl length in Hmax. attempt cfg remote token_service s token s1 Hw.
  destruct (arrived_frame cfg remote endpoint options a (errors ++ rest) token s1)
    as (Hsrv & _ & _ & _ & _ & Hw' & _).
  destruct errors as [| b errors].
  - rewrite Ha, onResponse_server_error_final
      by (try lia; unfold Api.below; apply Z.ltb_ge; simpl in Hmax; lia).
    destruct (finalFailure_frame endpoint retryCount
                (ApiError ("API Error: " +:+ pretty (Api.status r) +:+ " " +:+ Api.statusText r)
                          (Some (Api.status r)))
                (Api.arrived cfg remote endpoint options a ([] ++ rest) token s1))
      as (Hf & _ & Hsrv' & _ & _ & _ & _ & Hw'').
    cbv zeta in Hf, Hsrv', Hw''. rewrite Hf. split; [| split].
    + eauto.
    + rewrite Hsrv'. exact Hsrv.
    + unfold Api.retryWarnings. rewrite Hw'', Hw', Hw. simpl. lia.
  - rewrite Ha, onResponse_server_error
      by (try lia; unfold Api.below; apply Z.ltb_lt; simpl in Hmax; lia).
    match goal with
    | |- context [Api.request_from _ _ _ _ _ _ ?s2] =>
        specialize (IH rest endpoint options (S retryCount) s2);
        assert (Hs2 : Api.retryWarnings s2 = S (Api.retryWarnings s))
    end.
    { apply retryWarnings_retry. rewrite Hw', Hw. reflexivity. }
    cbv zeta in IH. destruct IH as (IH1 & IH2 & IH3); [simpl in *; lia | simpl; lia |].
    split; [exact IH1 |]. split; [exact IH2 |].
    rewrite IH3, Hs2. simpl. lia.
Qed.

End Retries.

Lemma answers_server_error code x :
  500 <= code -> Api.answers code x -> Api.server_error x.
Proof. intros H (r & Hr & Hs). exists r. split; [assumption | lia]. Qed.

(** C3. A call whose first [k] answers are 429 (for any [k], also above the
    retry ceiling that bounds the other retries) and whose next answer is a
    2xx returns the body of the 2xx, provided the token service answers
    whenever a token is needed; it has made exactly [k + 1] attempts and
    logged [k] warnings on the way. *)
Theorem rate_limit_never_exhausts
    (cfg : Conf.Config) (remote : Api.Remote)
    (limited : list (Api.Exchange Value)) (x : Api.Exchange Value) (v : Value)
    (rest : list (Api.Exchange Value))
    (endpoint : string) (options : Api.RequestInit) (retryCount : nat) (s : Api.State) :
  (forall j, Api.authenticates (Api.authServer remote j) = true) ->
  Forall (Api.answers 429) limited ->
  Api.delivers v x ->
  Api.apiServer s = limited ++ x :: rest ->
  let rs := Api.request cfg remote endpoint options retryCount s in
  fst rs = Returned v /\
  Api.apiServer (snd rs) = rest /\
  Api.retryWarnings (snd rs) = (Api.retryWarnings s + length limited)%nat.
Proof.
  intros Hauth Hlimited Hx Hsrv. unfold Api.request. rewrite Hsrv.
  apply limited_then_delivered; assumption.
Qed.

(** C4. With a retry ceiling of 3: a call answered 503, 503, 503 and then by
    a 2xx returns the body of the 2xx and has logged exactly 3 warnings; a
    call answered 503 four times throws an [ApiError] of status 503 after its
    3 retries (3 warnings) and asks nothing more of the server. The token
    service is assumed to answer whenever a token is needed. *)
Theorem server_error_retry_ceiling
    (cfg : Conf.Config) (remote : Api.Remote)
    (e1 e2 e3 e4 x : Api.Exchange Value) (v : Value) (rest : list (Api.Exchange Value))
    (endpoint : string) (options : Api.RequestInit) (s : Api.State) :
  Conf.maxRetries (Conf.api cfg) = 3 ->
  (forall j, Api.authenticates (Api.authServer remote j) = true) ->
  Api.answers 503 e1 -> Api.answers 503 e2 -> Api.answers 503 e3 -> Api.answers 503 e4 ->
  Api.delivers v x ->
  let rs := Api.request cfg remote endpoint options 0 s in
  (Api.apiServer s = e1 :: e2 :: e3 :: x :: rest ->
   fst rs = Returned v /\
   Api.apiServer (snd rs) = rest /\
   Api.retryWarnings (snd rs) = (Api.retryWarnings s + 3)%nat) /\
  (Api.apiServer s = e1 :: e2 :: e3 :: e4 :: rest ->
   (exists text, fst rs = Threw (ApiError text (Some 503))) /\
   Api.apiServer (snd rs) = rest /\
   Api.retryWarnings (snd rs) = (Api.retryWarnings s + 3)%nat).
Proof.
  intros Hmax Hauth H1 H2 H3 H4 Hx. cbv zeta. unfold Api.request. split; intros Hsrv.
  - rewrite Hsrv.
    apply (server_errors_then_delivered cfg remote Hauth [e1; e2; e3]); [| simpl; lia | exact Hx].
    repeat constructor; eapply answers_server_error; try eassumption; lia.
  - rewrite Hsrv.
    assert (Hall : Forall (Api.answers 503) [e1; e2; e3; e4])
      by (repeat constructor; assumption).
    destruct (server_errors_exhaust cfg remote Hauth 503 [e1; e2; e3; e4]
                ltac:(lia) Hall rest endpoint options 0%nat s)
      as (Hthrown & Hleft & Hwarned); [simpl; lia | simpl; lia |].
    split; [exact Hthrown |]. split; [exact Hleft |].
    simpl app in Hwarned. rewrite Hwarned. simpl. lia.
Qed.

(** ** Rejected tokens *)

Section Unauthorized.

Variable cfg : Conf.Config.
Variable remote : Api.Remote.

Lemma warnings_snoc_warn t m log :
  warnings (log ++ [{| level := WARN; text := t; meta := m |}])
  = warnings log ++ [{| level := WARN; text := t; meta := m |}].
Proof. unfold warnings. rewrite filter_app. reflexivity. Qed.

Lemma refreshes_same s s' :
  warnings (Api.log s') = warnings (Api.log s) -> Api.refreshes s' = Api.refreshes s.
Proof. intros H. unfold Api.refreshes. rewrite H. reflexivity. Qed.

(** A retry that is announced by another warning is no refresh. *)
Lemma refreshes_other ms t m s0 s :
  t <> "Token expired or invalid (401), refreshing..." ->
  warnings (Api.log s) = warnings (Api.log s0) ->
  Api.refreshes (Api.sleep remote ms (Api.logged WARN t m s)) = Api.refreshes s0.
Proof.
  intros Ht H. unfold Api.refreshes.
  destruct (sleep_frame remote ms (Api.logged WARN t m s)) as (_ & _ & _ & _ & _ & Hl & _).
  cbv zeta in Hl. rewrite Hl. cbn [Api.log Api.logged].
  rewrite warnings_snoc_warn, H, filter_snoc_out; [reflexivity | exact Ht].
Qed.

Lemma refreshes_refresh s0 s :
  warnings (Api.log s) = warnings (Api.log s0) ->
  Api.refreshes
    (Api.logged WARN "Token expired or invalid (401), refreshing..." NoMeta
       (Api.set_token None 0 s))
  = S (Api.refreshes s0).
Proof.
  intros H. unfold Api.refreshes. cbn [Api.log Api.logged Api.set_token].
  rewrite warnings_snoc_warn, H, filter_app, length_app. simpl. lia.
Qed.

Lemma refreshes_finalFailure endpoint retryCount e s0 s :
  warnings (Api.log s) = warnings (Api.log s0) ->
  Api.refreshes (snd (Api.finalFailure endpoint retryCount e s)) = Api.refreshes s0.
Proof.
  intros H. apply refreshes_same.
  destruct (finalFailure_frame endpoint retryCount e s) as (_ & _ & _ & _ & _ & _ & _ & Hw).
  cbv zeta in Hw. rewrite Hw. exact H.
Qed.

(** The cap on the retries that follow a 401: whatever the server answers,
    a call that is at its [retryCount]-th retry refreshes the token at most
    [2 - retryCount] more times. *)
Lemma refreshes_capped server :
  forall endpoint options retryCount s,
    (Api.refreshes (snd (Api.request_from cfg remote server endpoint options retryCount s))
     <= Api.refreshes s + (2 - retryCount))%nat.
Proof.
  induction server as [| x rest IH]; intros endpoint options retryCount s.
  - simpl. pose proof (getAccessToken_frame cfg remote s) as (_ & _ & _ & Hw & _).
    destruct (Api.getAccessToken cfg remote s) as [[token | e |] s1]; cbn [fst snd] in *.
    + rewrite (refreshes_same s); [lia |].
      cbn [Api.log Api.logged]. rewrite warnings_debug.
      destruct (enforceRateLimit_frame remote s1) as (_ & _ & _ & _ & _ & _ & Hw' & _).
      cbv zeta in Hw'. rewrite Hw'. exact Hw.
    + rewrite (refreshes_finalFailure _ _ _ s) by exact Hw. lia.
    + rewrite (refreshes_same s) by exact Hw. lia.
  - rewrite request_from_cons.
    pose proof (getAccessToken_frame cfg remote s) as (_ & _ & _ & Hw & _).
    destruct (Api.getAccessToken cfg remote s) as [[token | e |] s1]; cbn [fst snd] in *.
    2: { rewrite (refreshes_finalFailure _ _ _ s) by exact Hw. lia. }
    2: { rewrite (refreshes_same s) by exact Hw. lia. }
    cbv zeta.
    destruct (arrived_frame cfg remote endpoint options x rest token s1)
      as (_ & _ & _ & _ & _ & Hw' & _).
    cbv zeta in Hw'. rewrite Hw in Hw'.
    set (s2 := Api.arrived cfg remote endpoint options x rest token s1) in *.
    clearbody s2. clear Hw.
    destruct (Api.settles x) as [r | | reason].
    + unfold Api.onResponse, Api.networkError.
      destruct (Api.status r =? 429).
      { etransitivity; [apply IH |]. rewrite (refreshes_other _ _ _ s); [lia | | exact Hw'].
        discriminate. }
      destruct ((500 <=? Api.status r) && Api.below retryCount (Conf.maxRetries (Conf.api cfg))).
      { etransitivity; [apply IH |]. rewrite (refreshes_other _ _ _ s); [lia | | exact Hw'].
        discriminate. }
      destruct (Api.status r =? 401).
      * unfold Api.below. destruct (Z.ltb_spec (Z.of_nat retryCount) 2); simpl.
        -- etransitivity; [apply IH |]. rewrite (refreshes_refresh s) by exact Hw'. lia.
        -- destruct (negb (Api.ok r)).
           ++ rewrite (refreshes_finalFailure _ _ _ s) by exact Hw'. lia.
           ++ destruct (Api.body r); simpl.
              ** rewrite (refreshes_same s) by exact Hw'. lia.
              ** destruct (_ <? _).
                 --- etransitivity; [apply IH |].
                     rewrite (refreshes_other _ _ _ s); [lia | | exact Hw']. discriminate.
                 --- rewrite (refreshes_finalFailure _ _ _ s) by exact Hw'. lia.
      * simpl. destruct (negb (Api.ok r)).
        -- rewrite (refreshes_finalFailure _ _ _ s) by exact Hw'. lia.
        -- destruct (Api.body r); simpl.
           ++ rewrite (refreshes_same s) by exact Hw'. lia.
           ++ destruct (Api.below _ _).
              ** etransitivity; [apply IH |].
                 rewrite (refreshes_other _ _ _ s); [lia | | exact Hw']. discriminate.
              ** rewrite (refreshes_finalFailure _ _ _ s) by exact Hw'. lia.
    + unfold Api.onAbort. destruct (Api.below _ _).
      * etransitivity; [apply IH |].
        assert (Hr : Api.refreshes (Api.logged WARN "Request timed out. Retrying..." NoMeta s2)
                     = Api.refreshes s).
        { unfold Api.refreshes. cbn [Api.log Api.logged].
          rewrite warnings_snoc_warn, Hw', filter_snoc_out; [reflexivity | discriminate]. }
        rewrite Hr. lia.
      * rewrite (refreshes_finalFailure _ _ _ s) by exact Hw'. lia.
    + unfold Api.networkError. destruct (Api.below _ _).
      * etransitivity; [apply IH |].
        rewrite (refreshes_other _ _ _ s); [lia | | exact Hw']. discriminate.
      * rewrite (refreshes_finalFailure _ _ _ s) by exact Hw'. lia.
Qed.

End Unauthorized.

Section Refresh.

Variable cfg : Conf.Config.
Variable remote : Api.Remote.
Hypothesis token_service : forall j, Api.authenticates (Api.authServer remote j) = true.

(** Without a token in the cache, [getAccessToken] makes one exchange. *)
Lemma getAccessToken_uncached s :
  Api.accessToken s = None ->
  Api.authExchanges (snd (Api.getAccessToken cfg remote s)) = S (Api.authExchanges s).
Proof.
  intros Hnone.
  rewrite getAccessToken_miss by (rewrite Hnone; reflexivity). cbv zeta.
  destruct (exchanged_frame cfg remote s) as (Hn & _).
  destruct (Api.settles _) as [r | | reason];
    [destruct (negb (Api.ok r)); [| destruct (Api.body r)] | |];
    rewrite ?authenticationFailed_state; cbn [snd];
    rewrite ?authExchanges_logged, ?authExchanges_set_token; exact Hn.
Qed.

(** One attempt that is answered 401: the token and its expiry are cleared
    in the state [s2] the call goes on from; it goes on with another attempt
    when [retryCount] is below 2, and with an [ApiError] otherwise. *)
Lemma unauthorized_step x rest endpoint options retryCount s :
  Api.answers 401 x ->
  exists text s2,
    Api.accessToken s2 = None /\ Api.tokenExpiry s2 = 0 /\
    Api.apiServer s2 = rest /\
    Api.authExchanges s2 = Api.authExchanges (snd (Api.getAccessToken cfg remote s)) /\
    Api.request_from cfg remote (x :: rest) endpoint options retryCount s =
      if Api.below retryCount 2 then
        Api.request_from cfg remote rest endpoint options (S retryCount)
          (Api.logged WARN "Token expired or invalid (401), refreshing..." NoMeta s2)
      else Api.finalFailure endpoint retryCount (ApiError text (Some 401)) s2.
Proof.
  intros (r & Hr & H401).
  rewrite request_from_cons.
  destruct (getAccessToken_returns cfg remote s token_service) as [token E].
  destruct (Api.getAccessToken cfg remote s) as [? s1]. simpl in E. subst. cbv zeta.
  destruct (arrived_frame cfg remote endpoint options x rest token s1)
    as (Hsrv & _ & _ & Hn & _).
  rewrite Hr, onResponse_unauthorized by exact H401.
  eexists _, (Api.set_token None 0 (Api.arrived cfg remote endpoint options x rest token s1)).
  repeat split; try assumption.
Qed.

(** Three 401s in a row: two retries, each with a fresh token exchange, then
    an [ApiError] of status 401; the cache is left empty. *)
Lemma unauthorized_thrice x1 x2 x3 rest endpoint options s :
  Api.answers 401 x1 -> Api.answers 401 x2 -> Api.answers 401 x3 ->
  let rs := Api.request_from cfg remote (x1 :: x2 :: x3 :: rest) endpoint options 0 s in
  (exists text, fst rs = Threw (ApiError text (Some 401))) /\
  Api.apiServer (snd rs) = rest /\
  Api.accessToken (snd rs) = None /\ Api.tokenExpiry (snd rs) = 0 /\
  Api.authExchanges (snd rs)
  = (Api.authExchanges (snd (Api.getAccessToken cfg remote s)) + 2)%nat.
Proof.
  intros H1 H2 H3. cbv zeta.
  destruct (unauthorized_step x1 (x2 :: x3 :: rest) endpoint options 0 s H1)
    as (t1 & a1 & Htok1 & _ & _ & Hn1 & ->).
  change (Api.below 0 2) with true. cbv iota.
  set (b1 := Api.logged WARN _ NoMeta a1).
  destruct (unauthorized_step x2 (x3 :: rest) endpoint options 1 b1 H2)
    as (t2 & a2 & Htok2 & _ & _ & Hn2 & ->).
  change (Api.below 1 2) with true. cbv iota.
  set (b2 := Api.logged WARN _ NoMeta a2).
  destruct (unauthorized_step x3 rest endpoint options 2 b2 H3)
    as (t3 & a3 & Htok3 & Hexp3 & Hsrv3 & Hn3 & ->).
  change (Api.below 2 2) with false. cbv iota. simpl.
  rewrite (getAccessToken_uncached b1 Htok1) in Hn2.
  rewrite (getAccessToken_uncached b2 Htok2) in Hn3.
  simpl in Hn2, Hn3.
  repeat split; eauto. lia.
Qed.

(** The retries that follow a 429 are counted with those that follow a 401:
    once 429s have brought [retryCount] to 2, the first 401 ends the call. The
    token is cleared, and no retry is made for it. *)
Lemma limited_then_unauthorized limited :
  Forall (Api.answers 429) limited ->
  forall x rest endpoint options retryCount s,
    Api.answers 401 x ->
    (2 <= retryCount + length limited)%nat ->
    let rs := Api.request_from cfg remote (limited ++ x :: rest)
                endpoint options retryCount s in
    (exists text, fst rs = Threw (ApiError text (Some 401))) /\
    Api.apiServer (snd rs) = rest /\
    Api.accessToken (snd rs) = None /\ Api.tokenExpiry (snd rs) = 0 /\
    Api.refreshes (snd rs) = Api.refreshes s.
Proof.
  induction 1 as [| a limited (r & Ha & H429) _ IH];
    intros x rest endpoint options retryCount s Hx Hcount; cbv zeta.
  - simpl app. attempt cfg remote token_service s token s1 Hw.
    destruct Hx as (r & Hr & H401).
    rewrite Hr, onResponse_unauthorized by exact H401.
    assert (Hb : Api.below retryCount 2 = false).
    { unfold Api.below. apply Z.ltb_ge. simpl in Hcount. lia. }
    rewrite Hb.
    destruct (arrived_frame cfg remote endpoint options x rest token s1)
      as (Hsrv & _ & _ & _ & _ & Hw' & _).
    cbv zeta in Hsrv, Hw'.
    set (s2 := Api.arrived cfg remote endpoint options x rest token s1) in *. clearbody s2.
    destruct (finalFailure_frame endpoint retryCount
                (ApiError ("API Error: " +:+ pretty 401 +:+ " " +:+ Api.statusText r)
                   (Some 401)) (Api.set_token None 0 s2))
      as (Hthrown & _ & Hsrv' & Htok & Hexp & _).
    cbv zeta in Hthrown, Hsrv', Htok, Hexp.
    split; [eexists; exact Hthrown |].
    split; [rewrite Hsrv'; exact Hsrv |].
    split; [rewrite Htok; reflexivity |].
    split; [rewrite Hexp; reflexivity |].
    apply refreshes_finalFailure. cbn [Api.log Api.set_token]. rewrite Hw'. exact Hw.
  - simpl app. attempt cfg remote token_service s token s1 Hw.
    rewrite Ha, onResponse_limited by assumption.
    destruct (arrived_frame cfg remote endpoint options a (limited ++ x :: rest) token s1)
      as (_ & _ & _ & _ & _ & Hw' & _).
    cbv zeta in Hw'. rewrite Hw in Hw'.
    set (s2 := Api.arrived cfg remote endpoint options a (limited ++ x :: rest) token s1) in *.
    clearbody s2.
    match goal with
    | |- context [Api.request_from _ _ _ _ _ _ ?s3] =>
        specialize (IH x rest endpoint options (S retryCount) s3 Hx);
        assert (Hs3 : Api.refreshes s3 = Api.refreshes s)
    end.
    { apply refreshes_other; [| exact Hw'].
      intros Heq. apply (f_equal (fun t => String.get 0 t)) in Heq. discriminate. }
    cbv zeta in IH. rewrite Hs3 in IH. apply IH. simpl in Hcount. lia.
Qed.

End Refresh.

(** C7, as stated, fails: the two retries are not kept for the 401s. A call
    that has been answered 429 twice, and then 401 for the first time, is not
    tried again: the answer that follows the 401 is never asked for. *)
Lemma first_unauthorized_is_not_always_retried :
  ~ (forall (cfg : Conf.Config) (remote : Api.Remote)
            (limited : list (Api.Exchange Value)) (x y : Api.Exchange Value) (v : Value)
            (rest : list (Api.Exchange Value))
            (endpoint : string) (options : Api.RequestInit) (s : Api.State),
       (forall j, Api.authenticates (Api.authServer remote j) = true) ->
       Forall (Api.answers 429) limited ->
       Api.answers 401 x ->
       Api.delivers v y ->
       Api.apiServer s = limited ++ x :: y :: rest ->
       fst (Api.request cfg remote endpoint options 0 s) = Returned v).
Proof.
  intros H.
  assert (Hauth : forall j, Api.authenticates (Api.authServer Sample.remote j) = true)
    by (intros j; reflexivity).
  assert (H429 : Api.answers 429 Sample.tooMany) by (eexists; split; reflexivity).
  assert (H401 : Api.answers 401 Sample.unauthorized) by (eexists; split; reflexivity).
  assert (H200 : Api.delivers (Obj [("success", Bool true)]) Sample.done)
    by (eexists; repeat split).
  assert (Hlimited : Forall (Api.answers 429) [Sample.tooMany; Sample.tooMany])
    by (repeat constructor; exact H429).
  specialize (H Sample.cfg Sample.remote [Sample.tooMany; Sample.tooMany]
                Sample.unauthorized Sample.done (Obj [("success", Bool true)]) []
                "/api/campaigns?page=1&limit=10"
                {| Api.method := "GET"; Api.payload := None |}
                (Sample.warm [Sample.tooMany; Sample.tooMany; Sample.unauthorized;
                              Sample.done])
                Hauth Hlimited H401 H200 eq_refl).
  vm_compute in H. discriminate.
Qed.

(** C7 (amended). Provided the token service answers whenever a token is needed:
    every attempt that is answered 401 clears the cached token and its expiry,
    and the call goes on with another attempt exactly when [retryCount] is
    below 2, with an [ApiError] of status 401 otherwise; the next attempt finds
    the cache empty and makes a fresh token exchange. So a call answered 401
    three times makes two retries (two more token exchanges) and then throws,
    leaving the cache empty, without asking the server again. Whatever the
    server answers, no call makes more than 2 retries after a 401. And
    [retryCount] is the count of all the retries of the call: when 429s have
    brought it to 2, the first 401 clears the token and ends the call with the
    [ApiError], without a retry and without asking the server again. *)
Theorem unauthorized_retries
    (cfg : Conf.Config) (remote : Api.Remote) :
  (forall j, Api.authenticates (Api.authServer remote j) = true) ->
  (forall x rest endpoint options retryCount s,
     Api.answers 401 x ->
     exists text s2,
       Api.accessToken s2 = None /\ Api.tokenExpiry s2 = 0 /\
       Api.request_from cfg remote (x :: rest) endpoint options retryCount s =
         if Api.below retryCount 2 then
           Api.request_from cfg remote rest endpoint options (S retryCount)
             (Api.logged WARN "Token expired or invalid (401), refreshing..." NoMeta s2)
         else Api.finalFailure endpoint retryCount (ApiError text (Some 401)) s2) /\
  (forall s,
     Api.accessToken s = None ->
     Api.authExchanges (snd (Api.getAccessToken cfg remote s)) = S (Api.authExchanges s)) /\
  (forall x1 x2 x3 rest endpoint options s,
     Api.answers 401 x1 -> Api.answers 401 x2 -> Api.answers 401 x3 ->
     Api.apiServer s = x1 :: x2 :: x3 :: rest ->
     let rs := Api.request cfg remote endpoint options 0 s in
     (exists text, fst rs = Threw (ApiError text (Some 401))) /\
     Api.apiServer (snd rs) = rest /\
     Api.accessToken (snd rs) = None /\ Api.tokenExpiry (snd rs) = 0 /\
     Api.authExchanges (snd rs)
     = (Api.authExchanges (snd (Api.getAccessToken cfg remote s)) + 2)%nat) /\
  (forall endpoint options s,
     (Api.refreshes (snd (Api.request cfg remote endpoint options 0 s))
      <= Api.refreshes s + 2)%nat) /\
  (forall limited x rest endpoint options retryCount s,
     Forall (Api.answers 429) limited ->
     (2 <= retryCount + length limited)%nat ->
     Api.answers 401 x ->
     Api.apiServer s = limited ++ x :: rest ->
     let rs := Api.request cfg remote endpoint options retryCount s in
     (exists text, fst rs = Threw (ApiError text (Some 401))) /\
     Api.apiServer (snd rs) = rest /\
     Api.accessToken (snd rs) = None /\ Api.tokenExpiry (snd rs) = 0 /\
     Api.refreshes (snd rs) = Api.refreshes s).
Proof.
  intros Hauth. split; [| split; [| split; [| split]]].
  - intros x rest endpoint options retryCount s Hx.
    destruct (unauthorized_step cfg remote Hauth x rest endpoint options retryCount s Hx)
      as (text & s2 & H1 & H2 & _ & _ & H3).
    exists text, s2. auto.
  - intros s. apply getAccessToken_uncached.
  - intros x1 x2 x3 rest endpoint options s H1 H2 H3 Hsrv.
    unfold Api.request. rewrite Hsrv. now apply unauthorized_thrice.
  - intros endpoint options s. unfold Api.request.
    pose proof (refreshes_capped cfg remote (Api.apiServer s) endpoint options 0 s). lia.
  - intros limited x rest endpoint options retryCount s Hlimited Hcount Hx Hsrv.
    unfold Api.request. rewrite Hsrv. now apply limited_then_unauthorized.
Qed.

(** ** Timeouts and network errors *)

Section Transient.

Variable cfg : Conf.Config.
Variable remote : Api.Remote.

(** A timeout below the retry ceiling: a warning is logged and the next
    attempt is made at once, no timer being set in between. *)
Lemma timeout_retried_at_once x rest endpoint options retryCount s token s1 :
  Api.settles x = Api.Aborts ->
  Api.below retryCount (Conf.maxRetries (Conf.api cfg)) = true ->
  Api.getAccessToken cfg remote s = (Returned token, s1) ->
  Api.request_from cfg remote (x :: rest) endpoint options retryCount s =
    Api.request_from cfg remote rest endpoint options (S retryCount)
      (Api.logged WARN "Request timed out. Retrying..." NoMeta
         (Api.arrived cfg remote endpoint options x rest token s1)).
Proof.
  intros Hx Hb Hg. rewrite request_from_cons, Hg, Hx. unfold Api.onAbort.
  rewrite Hb. reflexivity.
Qed.

(** A network error below the retry ceiling: the next attempt is made
    after a backoff of [1000 * 2^retryCount] ms, as after a 5xx. *)
Lemma network_error_backs_off x reason rest endpoint options retryCount s token s1 :
  Api.settles x = Api.Fails reason ->
  Api.below retryCount (Conf.maxRetries (Conf.api cfg)) = true ->
  Api.getAccessToken cfg remote s = (Returned token, s1) ->
  Api.request_from cfg remote (x :: rest) endpoint options retryCount s =
    Api.request_from cfg remote rest endpoint options (S retryCount)
      (Api.sleep remote (Api.backoff 1000 retryCount)
         (Api.logged WARN
            ("Network error: " +:+ reason +:+ ". Retrying in "
             +:+ Api.show (Api.backoff 1000 retryCount) +:+ "ms...")
            (MetaError (Failure reason))
            (Api.arrived cfg remote endpoint options x rest token s1))).
Proof.
  intros Hx Hb Hg. rewrite request_from_cons, Hg, Hx. unfold Api.networkError.
  rewrite Hb. reflexivity.
Qed.


End Transient.

(** C5 (the code departs from it). A client that holds a valid token asks
    for a page; the first attempt ends after 10 s, the second is answered.
    When the first attempt ends in a connection reset, a timer is set and the
    second attempt starts 1000 ms after the reset, as after a 5xx. When it ends
    in a timeout, no timer is set at all: the second attempt starts at the
    instant the timeout is observed. *)
Theorem timeout_retry_skips_backoff :
  let page := Sample.answer 200 "OK" (Sample.page [] 1 false) in
  let afterReset :=
    Api.getCampaigns Sample.cfg Sample.remote 1 10 (Sample.warm [Sample.reset; page]) in
  let afterTimeout :=
    Api.getCampaigns Sample.cfg Sample.remote 1 10 (Sample.warm [Sample.timedOut; page]) in
  fst afterReset = Returned (Sample.page [] 1 false) /\
  Api.startedAt <$> Api.calls (snd afterReset) = [1000000; 1011000] /\
  Api.timers (snd afterReset) = 1%nat /\
  fst afterTimeout = Returned (Sample.page [] 1 false) /\
  Api.startedAt <$> Api.calls (snd afterTimeout) = [1000000; 1010000] /\
  Api.timers (snd afterTimeout) = 0%nat.
Proof. vm_compute. repeat split. Qed.

(** ** Calls settle *)

Section Settling.

Variable cfg : Conf.Config.
Variable remote : Api.Remote.

Lemma conclusives_cons x rest :
  Api.conclusives (x :: rest)
  = ((if Api.conclusive x then 1 else 0) + Api.conclusives rest)%nat.
Proof.
  unfold Api.conclusives. destruct (Api.conclusive x) eqn:E.
  - rewrite filter_cons_True by exact E. reflexivity.
  - rewrite filter_cons_False by (rewrite E; discriminate). reflexivity.
Qed.

(** A call never stays pending while a conclusive answer is to come, and
    takes at most one conclusive answer from the server. *)
Lemma request_from_settles server :
  forall endpoint options retryCount s,
    Api.apiServer s = server ->
    let rs := Api.request_from cfg remote server endpoint options retryCount s in
    ((1 <= Api.conclusives server)%nat -> fst rs <> Pending) /\
    (Api.conclusives server - 1 <= Api.conclusives (Api.apiServer (snd rs)))%nat.
Proof.
  induction server as [| x rest IH]; intros endpoint options retryCount s Hsrv; cbv zeta.
  - split; [unfold Api.conclusives; simpl; lia | simpl; lia].
  - rewrite request_from_cons.
    pose proof (getAccessToken_frame cfg remote s) as (Hnp & _ & Hs1 & _).
    destruct (Api.getAccessToken cfg remote s) as [[token | e |] s1]; cbn [fst snd] in *.
    3: contradiction.
    2: { destruct (finalFailure_frame endpoint retryCount e s1) as (Hf & _ & Hsrv' & _).
         cbv zeta in Hf, Hsrv'. rewrite Hf, Hsrv', Hs1, Hsrv. split; [discriminate | lia]. }
    cbv zeta.
    destruct (arrived_frame cfg remote endpoint options x rest token s1) as (Ha & _).
    cbv zeta in Ha.
    set (s2 := Api.arrived cfg remote endpoint options x rest token s1) in *.
    clearbody s2. rewrite conclusives_cons.
    set (Q := fun rs : Outcome Value * Api.State =>
                ((1 <= (if Api.conclusive x then 1 else 0) + Api.conclusives rest)%nat ->
                 fst rs <> Pending) /\
                ((if Api.conclusive x then 1 else 0) + Api.conclusives rest - 1
                 <= Api.conclusives (Api.apiServer (snd rs)))%nat).
    assert (Hfinal : forall e s3,
               Api.apiServer s3 = rest -> Q (Api.finalFailure endpoint retryCount e s3)).
    { intros e s3 H3.
      destruct (finalFailure_frame endpoint retryCount e s3) as (Hf & _ & Hsrv' & _).
      unfold Q. cbv zeta in *. rewrite Hf, Hsrv', H3. split; [discriminate |].
      destruct (Api.conclusive x); lia. }
    assert (Hreturn : forall v s3, Api.apiServer s3 = rest -> Q (Returned v, s3)).
    { intros v s3 H3. unfold Q. cbn [fst snd]. rewrite H3. split; [discriminate |].
      destruct (Api.conclusive x); lia. }
    assert (Hretry : forall s3,
               Api.conclusive x = false ->
               Api.apiServer s3 = rest ->
               Q (Api.request_from cfg remote rest endpoint options (S retryCount) s3)).
    { intros s3 Hx H3. unfold Q. rewrite Hx.
      destruct (IH endpoint options (S retryCount) s3 H3) as (IH1 & IH2).
      split; [intros H; apply IH1; lia | lia]. }
    change (Q match Api.settles x with
              | Api.Responds r =>
                  Api.onResponse cfg remote
                    (Api.request_from cfg remote rest endpoint options (S retryCount))
                    endpoint retryCount r s2
              | Api.Aborts =>
                  Api.onAbort cfg
                    (Api.request_from cfg remote rest endpoint options (S retryCount))
                    endpoint retryCount s2
              | Api.Fails reason =>
                  Api.networkError cfg remote
                    (Api.request_from cfg remote rest endpoint options (S retryCount))
                    endpoint retryCount (Failure reason) s2
              end).
    clearbody Q.
    destruct (Api.settles x) as [r | | reason] eqn:Hsx.
    + unfold Api.onResponse, Api.networkError.
      destruct (Api.status r =? 429) eqn:E429.
      { apply Hretry; [| rewrite ?apiServer_sleep, ?apiServer_logged, ?apiServer_set_token; exact Ha]. unfold Api.conclusive. rewrite Hsx, E429. reflexivity. }
      destruct (500 <=? Api.status r) eqn:E500; cbn [andb].
      * assert (Hok : Api.ok r = false).
        { unfold Api.ok. apply Z.leb_le in E500. apply andb_false_iff. right.
          apply Z.leb_gt. lia. }
        assert (H401 : (Api.status r =? 401) = false).
        { apply Z.leb_le in E500. apply Z.eqb_neq. lia. }
        rewrite H401, Hok. cbn [andb negb].
        destruct (Api.below retryCount (Conf.maxRetries (Conf.api cfg))).
        -- apply Hretry; [| rewrite ?apiServer_sleep, ?apiServer_logged, ?apiServer_set_token; exact Ha].
           unfold Api.conclusive. rewrite Hsx, E429, E500. reflexivity.
        -- apply Hfinal; rewrite ?apiServer_set_token; exact Ha.
      * destruct (Api.status r =? 401) eqn:E401; cbn [andb].
        -- assert (Hok : Api.ok r = false).
           { unfold Api.ok. apply Z.eqb_eq in E401. rewrite E401. reflexivity. }
           rewrite Hok. cbn [negb].
           destruct (Api.below retryCount 2).
           ++ apply Hretry; [| rewrite ?apiServer_sleep, ?apiServer_logged, ?apiServer_set_token; exact Ha].
              unfold Api.conclusive. rewrite Hsx, E429, E500, E401. reflexivity.
           ++ apply Hfinal; rewrite ?apiServer_set_token; exact Ha.
        -- destruct (Api.ok r) eqn:Hok; cbn [negb].
           ++ destruct (Api.body r) eqn:Hbody.
              ** apply Hreturn; rewrite ?apiServer_set_token; exact Ha.
              ** destruct (Api.below _ _).
                 --- apply Hretry; [| rewrite ?apiServer_sleep, ?apiServer_logged, ?apiServer_set_token; exact Ha].
                     unfold Api.conclusive. rewrite Hsx, E429, E500, E401, Hok, Hbody.
                     reflexivity.
                 --- apply Hfinal; rewrite ?apiServer_set_token; exact Ha.
           ++ apply Hfinal; rewrite ?apiServer_set_token; exact Ha.
    + unfold Api.onAbort. destruct (Api.below _ _).
      * apply Hretry; [| rewrite ?apiServer_sleep, ?apiServer_logged, ?apiServer_set_token; exact Ha]. unfold Api.conclusive. rewrite Hsx. reflexivity.
      * apply Hfinal; rewrite ?apiServer_set_token; exact Ha.
    + unfold Api.networkError. destruct (Api.below _ _).
      * apply Hretry; [| rewrite ?apiServer_sleep, ?apiServer_logged, ?apiServer_set_token; exact Ha]. unfold Api.conclusive. rewrite Hsx. reflexivity.
      * apply Hfinal; rewrite ?apiServer_set_token; exact Ha.
Qed.

End Settling.

(** ** Pagination *)

Lemma limit_text : "&limit=" +:+ pretty 10 = "&limit=10".
Proof. reflexivity. Qed.

Section Pages.

Variable cfg : Conf.Config.
Variable remote : Api.Remote.
Hypothesis token_service : forall j, Api.authenticates (Api.authServer remote j) = true.

(** A [GET] that is answered by a 2xx at once: its body is returned, one
    answer is taken, and one address is added to those fetched. *)
Lemma get_delivered x v rest endpoint retryCount s :
  Api.delivers v x ->
  let rs := Api.request_from cfg remote (x :: rest) endpoint
              {| Api.method := "GET"; Api.payload := None |} retryCount s in
  fst rs = Returned v /\
  Api.apiServer (snd rs) = rest /\
  Api.fetched (snd rs) = Api.fetched s ++ [Conf.baseUrl (Conf.api cfg) +:+ endpoint].
Proof.
  intros (r & Hr & Hok & Hbody). cbv zeta.
  rewrite request_from_cons.
  pose proof (getAccessToken_fetched cfg remote s) as Hf.
  destruct (getAccessToken_returns cfg remote s token_service) as [token E].
  destruct (Api.getAccessToken cfg remote s) as [? s1]. cbn [fst snd] in *. subst. cbv zeta.
  rewrite Hr, (onResponse_delivers cfg remote _ _ _ r v) by assumption. cbn [fst snd].
  destruct (arrived_frame cfg remote endpoint {| Api.method := "GET"; Api.payload := None |}
              x rest token s1) as (Hsrv & _ & _ & _ & _ & _ & (c & Hc & Hverb & Hurl)).
  split; [reflexivity |]. split; [exact Hsrv |].
  unfold Api.fetched in *. rewrite Hc, filter_app, fmap_app, Hf.
  rewrite filter_cons_True by exact Hverb. rewrite filter_nil. simpl. rewrite Hurl.
  reflexivity.
Qed.

(** The same for [this.api.getCampaigns(page)] inside the process. *)
Lemma getCampaigns_page x v rest (k : nat) s :
  Api.delivers v x ->
  Api.apiServer (Db.client s) = x :: rest ->
  exists s1,
    Sync.on_api (Api.getCampaigns cfg remote (Z.of_nat k) 10) s = (Returned v, s1) /\
    Api.apiServer (Db.client s1) = rest /\
    Api.fetched (Db.client s1) = Api.fetched (Db.client s) ++ [Sync.page_url cfg k].
Proof.
  intros Hx Hsrv. unfold Sync.on_api, Api.getCampaigns, Api.request. rewrite Hsrv.
  destruct (get_delivered x v rest
              ("/api/campaigns?page=" +:+ pretty (Z.of_nat k) +:+ "&limit=" +:+ pretty 10)
              0 (Db.client s) Hx) as (H1 & H2 & H3).
  destruct (Api.request_from _ _ _ _ _ _ _) as [o c]. cbn [fst snd] in *. subst o.
  eexists. split; [reflexivity |]. cbn [Db.client]. split; [exact H2 | exact H3].
Qed.

(** One turn of the loop on a page. *)
Lemma fetchPages_page fuel allCampaigns page s s1 v records more :
  Sync.on_api (Api.getCampaigns cfg remote page 10)
    (Db.logged INFO ("Fetching campaigns page " +:+ pretty page +:+ "...") NoMeta s)
  = (Returned v, s1) ->
  Sync.is_page records more v ->
  Sync.fetchPages cfg remote (S fuel) allCampaigns page s =
    if more then Sync.fetchPages cfg remote fuel (allCampaigns ++ records) (page + 1) s1
    else (Returned (allCampaigns ++ records), s1).
Proof.
  intros Hget (fs & ps & -> & Hdata & Hpagination & Hmore).
  cbn [Sync.fetchPages]. rewrite Hget.
  cbn [truthy prop reading]. rewrite Hdata. cbn [truthy Js.concat].
  rewrite Hpagination. cbn [prop reading]. rewrite Hmore. cbn [truthy].
  reflexivity.
Qed.

(** The loop over [P] pages of which the last one only says that nothing
    more is to come. *)
Lemma fetchPages_all xs pages :
  Forall2 (fun x records => Sync.serves records true x) xs pages ->
  forall xl last rest fuel allCampaigns (k : nat) s,
    Sync.serves last false xl ->
    Api.apiServer (Db.client s) = xs ++ xl :: rest ->
    (length xs < fuel)%nat ->
    let rs := Sync.fetchPages cfg remote fuel allCampaigns (Z.of_nat k) s in
    fst rs = Returned (allCampaigns ++ List.concat (pages ++ [last])) /\
    Api.apiServer (Db.client (snd rs)) = rest /\
    Api.fetched (Db.client (snd rs))
    = Api.fetched (Db.client s) ++ (Sync.page_url cfg <$> seq k (S (length pages))).
Proof.
  induction 1 as [| x records xs pages (v & Hv & Hpage) _ IH];
    intros xl last rest fuel allCampaigns k s (vl & Hvl & Hlast) Hsrv Hfuel; cbv zeta.
  - destruct fuel as [| fuel]; [simpl in Hfuel; lia |].
    destruct (getCampaigns_page xl vl rest k
                (Db.logged INFO ("Fetching campaigns page " +:+ pretty (Z.of_nat k) +:+ "...")
                           NoMeta s) Hvl Hsrv) as (s1 & Hget & Hleft & Hfetched).
    rewrite (fetchPages_page fuel allCampaigns _ s s1 vl last false Hget Hlast).
    cbn [fst snd]. simpl. rewrite app_nil_r. auto.
  - destruct fuel as [| fuel]; [simpl in Hfuel; lia |].
    destruct (getCampaigns_page x v (xs ++ xl :: rest) k
                (Db.logged INFO ("Fetching campaigns page " +:+ pretty (Z.of_nat k) +:+ "...")
                           NoMeta s) Hv Hsrv) as (s1 & Hget & Hleft & Hfetched).
    rewrite (fetchPages_page fuel allCampaigns _ s s1 v records true Hget Hpage).
    replace (Z.of_nat k + 1) with (Z.of_nat (S k)) by lia.
    destruct (IH xl last rest fuel (allCampaigns ++ records) (S k) s1
                (ex_intro _ vl (conj Hvl Hlast)) Hleft ltac:(simpl in Hfuel; lia))
      as (H1 & H2 & H3).
    split; [| split].
    + rewrite H1. simpl. rewrite app_assoc. reflexivity.
    + exact H2.
    + rewrite H3, Hfetched. simpl. rewrite <- app_assoc. reflexivity.
Qed.

End Pages.

(** C2. The server answers the successive page requests with [P] pages, of
    which all but the last say that more is to come; the token service answers
    whenever a token is needed. Then [fetchAllCampaigns] returns the records of
    all the pages, in page order and in the order of each page, every record
    once; the pages it has asked for are the pages 1 to [P], in this order and
    each once; and it has taken no other answer from the server. *)
Theorem pagination_complete
    (cfg : Conf.Config) (remote : Api.Remote)
    (xs : list (Api.Exchange Value)) (pages : list (list Value))
    (xl : Api.Exchange Value) (last : list Value)
    (rest : list (Api.Exchange Value)) (s : Db.State) :
  (forall j, Api.authenticates (Api.authServer remote j) = true) ->
  Forall2 (fun x records => Sync.serves records true x) xs pages ->
  Sync.serves last false xl ->
  Api.apiServer (Db.client s) = xs ++ xl :: rest ->
  let rs := Sync.fetchAllCampaigns cfg remote s in
  fst rs = Returned (List.concat (pages ++ [last])) /\
  Api.fetched (Db.client (snd rs))
  = Api.fetched (Db.client s) ++ (Sync.page_url cfg <$> seq 1 (S (length pages))) /\
  Api.apiServer (Db.client (snd rs)) = rest.
Proof.
  intros Hauth Hpages Hlast Hsrv. cbv zeta. unfold Sync.fetchAllCampaigns.
  destruct (fetchPages_all cfg remote Hauth xs pages Hpages xl last rest
              (S (length (Api.apiServer (Db.client s)))) [] 1%nat s Hlast Hsrv)
    as (H1 & H2 & H3).
  { rewrite Hsrv, length_app. simpl. lia. }
  auto.
Qed.

(** ** The database service *)

Section Database.

Variable cfg : Conf.Config.
Variable pg : Db.Postgres.

Lemma connect_frame s :
  let rs := Db.connect cfg pg s in
  fst rs <> Pending /\
  Api.apiServer (Db.client (snd rs)) = Api.apiServer (Db.client s).
Proof.
  unfold Db.connect.
  destruct (Conf.useMock _); [split; [discriminate | reflexivity] |].
  destruct (negb (Db.pool s)); [| split; [discriminate | reflexivity]].
  destruct (Db.connectError pg); split; try discriminate; reflexivity.
Qed.

Lemma close_frame s : fst (Db.close pg s) <> Pending.
Proof.
  unfold Db.close. destruct (Db.pool s); [| discriminate].
  destruct (Db.endError pg); discriminate.
Qed.

Lemma close_returns s :
  Db.endError pg = None -> exists s', Db.close pg s = (Returned tt, s').
Proof.
  intros H. unfold Db.close. rewrite H. destruct (Db.pool s); eauto.
Qed.

Lemma props_settle ks v :
  nullish v = false -> exists values, Db.props ks v = Returned values.
Proof.
  intros Hv. induction ks as [| k ks (values & IH)]; simpl; [eauto |].
  rewrite IH. destruct v; try discriminate; simpl; eauto.
Qed.

(** [upsertCampaign] always settles, and leaves the answers of the API
    alone. *)
Lemma upsertCampaign_frame campaign s :
  nullish campaign = false ->
  let rs := Db.upsertCampaign cfg pg campaign s in
  fst rs <> Pending /\
  Api.apiServer (Db.client (snd rs)) = Api.apiServer (Db.client s).
Proof.
  intros Hc. unfold Db.upsertCampaign.
  destruct (Conf.useMock _).
  - destruct campaign; try discriminate; simpl; split; try discriminate; reflexivity.
  - destruct (negb (Db.pool s)); [split; [discriminate | reflexivity] |].
    destruct (props_settle
                ["id"; "name"; "status"; "budget"; "impressions"; "clicks"; "conversions"]
                campaign Hc) as (values & ->).
    destruct (Db.queryError pg _); split; try discriminate; reflexivity.
Qed.

End Database.

(** ** Malformed pages *)

Section Malformed.

Variable cfg : Conf.Config.
Variable remote : Api.Remote.
Hypothesis token_service : forall j, Api.authenticates (Api.authServer remote j) = true.

(** A page without [data] ends the pagination with a warning. *)
Lemma fetchPages_no_data fuel allCampaigns page s s1 fs :
  Sync.on_api (Api.getCampaigns cfg remote page 10)
    (Db.logged INFO ("Fetching campaigns page " +:+ pretty page +:+ "...") NoMeta s)
  = (Returned (Obj fs), s1) ->
  truthy (field "data" fs) = false ->
  Sync.fetchPages cfg remote (S fuel) allCampaigns page s =
    (Returned allCampaigns,
     Db.logged WARN "Unexpected response format from API"
               (MetaValue (Obj [("response", Obj fs)])) s1).
Proof.
  intros Hget Hdata. cbn [Sync.fetchPages]. rewrite Hget.
  cbn [truthy prop reading]. rewrite Hdata. reflexivity.
Qed.

(** A page with [data] and without [pagination] makes the loop throw. *)
Lemma fetchPages_no_pagination fuel allCampaigns page s s1 fs :
  Sync.on_api (Api.getCampaigns cfg remote page 10)
    (Db.logged INFO ("Fetching campaigns page " +:+ pretty page +:+ "...") NoMeta s)
  = (Returned (Obj fs), s1) ->
  truthy (field "data" fs) = true ->
  field "pagination" fs = Undefined ->
  Sync.fetchPages cfg remote (S fuel) allCampaigns page s =
    (Threw (TypeError "Cannot read properties of undefined (reading 'has_more')"), s1).
Proof.
  intros Hget Hdata Hpagination. cbn [Sync.fetchPages]. rewrite Hget.
  cbn [truthy prop reading]. rewrite Hdata, Hpagination. reflexivity.
Qed.

End Malformed.

(** C10. The first page comes back as an object, and the token service
    answers. When the object has no (truthy) [data], [fetchAllCampaigns] logs
    the warning about the response format and returns what it has, here
    nothing. When it has [data] but no [pagination], reading
    [response.pagination.has_more] throws a [TypeError]: [fetchAllCampaigns]
    throws it on, and the process exits with code 1. *)
Theorem missing_pagination_is_fatal
    (cfg : Conf.Config) (remote : Api.Remote) (pg : Db.Postgres)
    (x : Api.Exchange Value) (fs : list (string * Value))
    (rest : list (Api.Exchange Value)) (s : Db.State) :
  (forall j, Api.authenticates (Api.authServer remote j) = true) ->
  Api.delivers (Obj fs) x ->
  Api.apiServer (Db.client s) = x :: rest ->
  (truthy (field "data" fs) = false ->
   exists s',
     Sync.fetchAllCampaigns cfg remote s = (Returned [], s') /\
     List.last (Sync.journal s') {| level := INFO; text := ""; meta := NoMeta |}
     = {| level := WARN; text := "Unexpected response format from API";
          meta := MetaValue (Obj [("response", Obj fs)]) |}) /\
  (truthy (field "data" fs) = true ->
   field "pagination" fs = Undefined ->
   fst (Sync.fetchAllCampaigns cfg remote s)
   = Threw (TypeError "Cannot read properties of undefined (reading 'has_more')") /\
   fst (Sync.main cfg remote pg s) = Some 1).
Proof.
  intros Hauth Hx Hsrv. split.
  - intros Hdata. unfold Sync.fetchAllCampaigns. rewrite Hsrv. cbn [length].
    destruct (getCampaigns_page cfg remote Hauth x (Obj fs) rest 1
                (Db.logged INFO ("Fetching campaigns page " +:+ pretty 1 +:+ "...") NoMeta s)
                Hx Hsrv) as (s1 & Hget & _).
    rewrite (fetchPages_no_data cfg remote _ [] 1 s s1 fs Hget Hdata).
    eexists. split; [reflexivity |].
    unfold Sync.journal. cbn [Db.logged Db.on_client Db.client Api.logged Api.log].
    apply last_last.
  - intros Hdata Hpagination.
    assert (Hthrows : forall s0,
               Api.apiServer (Db.client s0) = x :: rest ->
               fst (Sync.fetchAllCampaigns cfg remote s0)
               = Threw (TypeError "Cannot read properties of undefined (reading 'has_more')")).
    { intros s0 H0. unfold Sync.fetchAllCampaigns. rewrite H0. cbn [length].
      destruct (getCampaigns_page cfg remote Hauth x (Obj fs) rest 1
                  (Db.logged INFO ("Fetching campaigns page " +:+ pretty 1 +:+ "...") NoMeta s0)
                  Hx H0) as (s1 & Hget & _).
      rewrite (fetchPages_no_pagination cfg remote _ [] 1 s0 s1 fs Hget Hdata Hpagination).
      reflexivity. }
    split; [apply Hthrows, Hsrv |].
    unfold Sync.main, Sync.start, Sync.run.
    set (s0 := Db.logged INFO "Starting Campaign Sync Service..." NoMeta s).
    destruct (connect_frame cfg pg s0) as (Hnp & Hleft).
    destruct (Db.connect cfg pg s0) as [[[] | e |] s1]; cbn [fst snd] in *.
    + specialize (Hthrows s1 (eq_trans Hleft Hsrv)).
      destruct (Sync.fetchAllCampaigns cfg remote s1) as [o s2]. cbn [fst] in Hthrows.
      subst o.
      set (s3 := Db.logged ERROR _ _ s2).
      pose proof (close_frame pg s3) as Hc.
      destruct (Db.close pg s3) as [[[] | e |] s4]; cbn [fst] in *;
        [reflexivity | reflexivity | contradiction].
    + set (s3 := Db.logged ERROR _ _ s1).
      pose proof (close_frame pg s3) as Hc.
      destruct (Db.close pg s3) as [[[] | e' |] s4]; cbn [fst] in *;
        [reflexivity | reflexivity | contradiction].
    + contradiction.
Qed.

(** ** The batch *)

Section Batch.

Variable cfg : Conf.Config.
Variable remote : Api.Remote.
Variable pg : Db.Postgres.

Lemma syncCampaign_settles campaignId s :
  (1 <= Api.conclusives (Api.apiServer (Db.client s)))%nat ->
  let rs := Sync.on_api (Api.syncCampaign cfg remote campaignId) s in
  fst rs <> Pending /\
  (Api.conclusives (Api.apiServer (Db.client s)) - 1
   <= Api.conclusives (Api.apiServer (Db.client (snd rs))))%nat.
Proof.
  intros H. unfold Sync.on_api, Api.syncCampaign, Api.request.
  destruct (request_from_settles cfg remote (Api.apiServer (Db.client s))
              ("/api/campaigns/" +:+ to_string campaignId +:+ "/sync")
              {| Api.method := "POST";
                 Api.payload := Some (Obj [("campaign_id", campaignId)]) |}
              0 (Db.client s) eq_refl) as (H1 & H2).
  destruct (Api.request_from _ _ _ _ _ _ _) as [o c]. cbn [fst snd Db.client] in *.
  split; [apply H1, H | exact H2].
Qed.

(** The remote trigger and the upsert of one record settle, and take at most
    one conclusive answer from the server. *)
Lemma syncOne_settles campaign name s :
  nullish campaign = false ->
  (1 <= Api.conclusives (Api.apiServer (Db.client s)))%nat ->
  let rs := Sync.syncOne cfg remote pg campaign name s in
  fst rs <> Pending /\
  (Api.conclusives (Api.apiServer (Db.client s)) - 1
   <= Api.conclusives (Api.apiServer (Db.client (snd rs))))%nat.
Proof.
  intros Hc H. unfold Sync.syncOne.
  assert (Hid : exists id, prop "id" campaign = Returned id)
    by (destruct campaign; try discriminate; simpl; eauto).
  destruct Hid as (id & ->). cbn [reading].
  destruct (syncCampaign_settles id s H) as (H1 & H2).
  destruct (Sync.on_api (Api.syncCampaign cfg remote id) s) as [[v | e |] s1];
    cbn [fst snd] in *; [| split; [discriminate | exact H2] | contradiction].
  destruct (upsertCampaign_frame cfg pg campaign s1 Hc) as (H3 & H4).
  destruct (Db.upsertCampaign cfg pg campaign s1) as [[[] | e |] s2]; cbn [fst snd] in *.
  - split; [discriminate |].
    cbn [Db.logged Db.on_client Db.client Api.logged Api.apiServer]. rewrite H4. exact H2.
  - split; [discriminate |]. rewrite H4. exact H2.
  - contradiction.
Qed.

(** The step of the loop on a record whose processing throws: the failure is
    counted and logged, and the loop goes on with the next record. *)
Lemma syncEach_failure campaign name id rest total i successCount failureCount s error s' :
  prop "name" campaign = Returned name ->
  prop "id" campaign = Returned id ->
  Sync.syncOne cfg remote pg campaign name
    (Db.logged INFO
       ("[" +:+ pretty (i + 1)%nat +:+ "/" +:+ pretty total +:+ "] Processing campaign: "
        +:+ to_string name +:+ " (" +:+ to_string id +:+ ")") NoMeta s)
  = (Threw error, s') ->
  Sync.syncEach cfg remote pg (campaign :: rest) total i successCount failureCount s =
    Sync.syncEach cfg remote pg rest total (S i) successCount (S failureCount)
      (Db.logged ERROR ("Failed to sync campaign " +:+ to_string id)
                 (MetaValue (Obj [("error", Str (message error))])) s').
Proof.
  intros Hname Hid Hone. cbn [Sync.syncEach]. rewrite Hname, Hid. cbn [reading].
  rewrite Hone. reflexivity.
Qed.

(** The same on a record whose processing succeeds. *)
Lemma syncEach_success campaign name id rest total i successCount failureCount s s' :
  prop "name" campaign = Returned name ->
  prop "id" campaign = Returned id ->
  Sync.syncOne cfg remote pg campaign name
    (Db.logged INFO
       ("[" +:+ pretty (i + 1)%nat +:+ "/" +:+ pretty total +:+ "] Processing campaign: "
        +:+ to_string name +:+ " (" +:+ to_string id +:+ ")") NoMeta s)
  = (Returned tt, s') ->
  Sync.syncEach cfg remote pg (campaign :: rest) total i successCount failureCount s =
    Sync.syncEach cfg remote pg rest total (S i) (S successCount) failureCount s'.
Proof.
  intros Hname Hid Hone. cbn [Sync.syncEach]. rewrite Hname, Hid. cbn [reading].
  rewrite Hone. reflexivity.
Qed.

(** The loop runs to its end: every record is counted once, as a success or
    as a failure. *)
Lemma syncEach_total campaigns :
  Forall Sync.is_record campaigns ->
  forall total i successCount failureCount s,
    (length campaigns <= Api.conclusives (Api.apiServer (Db.client s)))%nat ->
    exists successCount' failureCount' s',
      Sync.syncEach cfg remote pg campaigns total i successCount failureCount s
      = (Returned (successCount', failureCount'), s') /\
      (successCount' + failureCount' = successCount + failureCount + length campaigns)%nat.
Proof.
  induction 1 as [| campaign rest Hc _ IH]; intros total i successCount failureCount s Hn.
  - simpl. exists successCount, failureCount, s. split; [reflexivity | lia].
  - unfold Sync.is_record in Hc. cbn [length] in Hn.
    assert (Hname : exists name, prop "name" campaign = Returned name)
      by (destruct campaign; try discriminate; simpl; eauto).
    assert (Hid : exists id, prop "id" campaign = Returned id)
      by (destruct campaign; try discriminate; simpl; eauto).
    destruct Hname as (name & Hname). destruct Hid as (id & Hid).
    set (s0 := Db.logged INFO
                 ("[" +:+ pretty (i + 1)%nat +:+ "/" +:+ pretty total
                  +:+ "] Processing campaign: "
                  +:+ to_string name +:+ " (" +:+ to_string id +:+ ")") NoMeta s).
    destruct (syncOne_settles campaign name s0 Hc) as (H1 & H2);
      [cbn [s0 Db.logged Db.on_client Db.client Api.logged Api.apiServer]; lia |].
    cbn [s0 Db.logged Db.on_client Db.client Api.logged Api.apiServer] in H2.
    destruct (Sync.syncOne cfg remote pg campaign name s0) as [[[] | e |] s1] eqn:Hone;
      cbn [fst snd] in *; [| | contradiction].
    + rewrite (syncEach_success campaign name id rest total i _ _ s s1 Hname Hid Hone).
      destruct (IH total (S i) (S successCount) failureCount s1) as (sc & fc & s' & He & Hsum);
        [lia |].
      exists sc, fc, s'. split; [exact He | cbn [length]; lia].
    + rewrite (syncEach_failure campaign name id rest total i _ _ s e s1 Hname Hid Hone).
      destruct (IH total (S i) successCount (S failureCount)
                  (Db.logged ERROR ("Failed to sync campaign " +:+ to_string id)
                             (MetaValue (Obj [("error", Str (message e))])) s1))
        as (sc & fc & s' & He & Hsum);
        [cbn [Db.logged Db.on_client Db.client Api.logged Api.apiServer]; lia |].
      exists sc, fc, s'. split; [exact He | cbn [length]; lia].
Qed.

End Batch.

(** ** What leaves the database alone *)

(** A method of the client leaves the database alone. *)
Lemma on_api_database {A} (f : Api.State -> Outcome A * Api.State) s :
  Db.pool (snd (Sync.on_api f s)) = Db.pool s /\
  Db.queries (snd (Sync.on_api f s)) = Db.queries s.
Proof. unfold Sync.on_api. destruct (f (Db.client s)). split; reflexivity. Qed.

Section Untouched.

Variable cfg : Conf.Config.
Variable remote : Api.Remote.

(** The pagination leaves the database alone. *)
Lemma fetchPages_database fuel :
  forall allCampaigns page s,
    Db.pool (snd (Sync.fetchPages cfg remote fuel allCampaigns page s)) = Db.pool s /\
    Db.queries (snd (Sync.fetchPages cfg remote fuel allCampaigns page s)) = Db.queries s.
Proof.
  induction fuel as [| fuel IH]; intros allCampaigns page s; [split; reflexivity |].
  cbn [Sync.fetchPages].
  set (s0 := Db.logged INFO _ NoMeta s).
  destruct (on_api_database (Api.getCampaigns cfg remote page 10) s0) as (Hp & Hq).
  change (Db.pool s0) with (Db.pool s) in Hp.
  change (Db.queries s0) with (Db.queries s) in Hq.
  destruct (Sync.on_api (Api.getCampaigns cfg remote page 10) s0) as [[response | e |] s1];
    cbn [fst snd] in *; [| split; assumption ..].
  destruct (if truthy response then prop "data" response else Returned response)
    as [guard | e |]; cbn [reading snd]; [| split; assumption ..].
  destruct (truthy guard); [| split; assumption].
  destruct (prop "pagination" response) as [pagination | e |]; cbn [reading snd];
    [| split; assumption ..].
  destruct (prop "has_more" pagination) as [hasMore | e |]; cbn [reading snd];
    [| split; assumption ..].
  destruct (truthy hasMore); [| split; assumption].
  destruct (IH (concat allCampaigns guard) (page + 1) s1) as (IHp & IHq).
  split; congruence.
Qed.

End Untouched.

(** ** Answers that are refused *)

Section Refused.

Variable cfg : Conf.Config.
Variable remote : Api.Remote.

(** A response that is refused ends the attempt with an [ApiError]. *)
Lemma request_from_refused x rest endpoint options retryCount s r token :
  fst (Api.getAccessToken cfg remote s) = Returned token ->
  Api.settles x = Api.Responds r ->
  Api.refused x = true ->
  let rs := Api.request_from cfg remote (x :: rest) endpoint options retryCount s in
  fst rs = Threw (ApiError ("API Error: " +:+ pretty (Api.status r) +:+ " " +:+ Api.statusText r)
                           (Some (Api.status r))) /\
  Api.apiServer (snd rs) = rest /\
  Api.retryWarnings (snd rs) = Api.retryWarnings s.
Proof.
  intros Hg Hr Href. cbv zeta. rewrite request_from_cons.
  pose proof (getAccessToken_frame cfg remote s) as (_ & _ & _ & Hw & _).
  destruct (Api.getAccessToken cfg remote s) as [o s1]. cbn [fst snd] in *. subst o.
  cbv zeta. rewrite Hr. unfold Api.refused in Href. rewrite Hr in Href.
  apply andb_true_iff in Href as [Href H401]. apply andb_true_iff in Href as [Href H500].
  apply andb_true_iff in Href as [Hok H429].
  apply negb_true_iff in Hok, H429, H500, H401.
  unfold Api.onResponse. rewrite H429, H500, H401, Hok. cbn [andb negb].
  destruct (arrived_frame cfg remote endpoint options x rest token s1)
    as (Ha & _ & _ & _ & _ & Hw' & _).
  set (s2 := Api.arrived cfg remote endpoint options x rest token s1) in *.
  destruct (finalFailure_frame endpoint retryCount
              (ApiError ("API Error: " +:+ pretty (Api.status r) +:+ " " +:+ Api.statusText r)
                        (Some (Api.status r))) s2)
    as (Hf & _ & Hsrv' & _ & _ & _ & _ & Hw'').
  cbv zeta in *. rewrite Hf, Hsrv'. unfold Api.retryWarnings. rewrite Hw'', Hw', Hw.
  auto.
Qed.

End Refused.

(** ** The log only grows *)

Section Journal.

Variable cfg : Conf.Config.
Variable remote : Api.Remote.
Variable pg : Db.Postgres.

Lemma grows_logged l t m s s' :
  Api.log s `prefix_of` Api.log s' -> Api.log s `prefix_of` Api.log (Api.logged l t m s').
Proof. intros H. etransitivity; [exact H |]. cbn. apply prefix_app_r. reflexivity. Qed.

Lemma grows_sleep ms s s' :
  Api.log s `prefix_of` Api.log s' -> Api.log s `prefix_of` Api.log (Api.sleep remote ms s').
Proof. intros H. exact H. Qed.

Lemma grows_set_token t e s s' :
  Api.log s `prefix_of` Api.log s' -> Api.log s `prefix_of` Api.log (Api.set_token t e s').
Proof. intros H. exact H. Qed.

Lemma grows_enforceRateLimit s s' :
  Api.log s `prefix_of` Api.log s' ->
  Api.log s `prefix_of` Api.log (Api.enforceRateLimit remote s').
Proof.
  intros H. unfold Api.enforceRateLimit. destruct (_ <? _); cbn; [| exact H].
  etransitivity; [exact H |]. apply prefix_app_r. reflexivity.
Qed.

Lemma grows_arrived endpoint options x rest token s s' :
  Api.log s `prefix_of` Api.log s' ->
  Api.log s `prefix_of` Api.log (Api.arrived cfg remote endpoint options x rest token s').
Proof.
  intros H. unfold Api.arrived. cbn.
  apply prefix_app_r. change (Api.log s `prefix_of` Api.log (Api.enforceRateLimit remote s')).
  now apply grows_enforceRateLimit.
Qed.

Lemma grows_finalFailure endpoint retryCount e s s' :
  Api.log s `prefix_of` Api.log s' ->
  Api.log s `prefix_of` Api.log (snd (Api.finalFailure endpoint retryCount e s')).
Proof.
  intros H. destruct retryCount; cbn; [| exact H].
  etransitivity; [exact H |]. apply prefix_app_r. reflexivity.
Qed.

Lemma grows_getAccessToken s s' :
  Api.log s `prefix_of` Api.log s' ->
  Api.log s `prefix_of` Api.log (snd (Api.getAccessToken cfg remote s')).
Proof.
  intros H. unfold Api.getAccessToken, Api.authenticationFailed.
  destruct (_ && _); [exact H |].
  assert (H0 : Api.log s `prefix_of`
               Api.log (Api.enforceRateLimit remote
                          (Api.logged INFO "Authenticating with Ad Platform API..." NoMeta s')))
    by (apply grows_enforceRateLimit, grows_logged, H).
  destruct (Api.settles _) as [r | | reason]; cbn.
  - destruct (negb (Api.ok r)); cbn; [apply prefix_app_r, H0 |].
    destruct (Api.body r); cbn; apply prefix_app_r, H0.
  - apply prefix_app_r, H0.
  - apply prefix_app_r, H0.
Qed.

Create HintDb grows.
#[local] Hint Resolve grows_logged grows_sleep grows_set_token grows_finalFailure : grows.

Lemma grows_request_from server :
  forall endpoint options retryCount s s',
    Api.log s `prefix_of` Api.log s' ->
    Api.log s `prefix_of`
      Api.log (snd (Api.request_from cfg remote server endpoint options retryCount s')).
Proof.
  induction server as [| x rest IH]; intros endpoint options retryCount s s' H.
  - simpl. pose proof (grows_getAccessToken s s' H) as Hg.
    destruct (Api.getAccessToken cfg remote s') as [[token | e |] s1]; cbn [snd] in *.
    + apply grows_logged, grows_enforceRateLimit, Hg.
    + apply grows_finalFailure, Hg.
    + exact Hg.
  - rewrite request_from_cons. pose proof (grows_getAccessToken s s' H) as Hg.
    destruct (Api.getAccessToken cfg remote s') as [[token | e |] s1]; cbn [snd] in *.
    2: apply grows_finalFailure, Hg.
    2: exact Hg.
    cbv zeta.
    pose proof (grows_arrived endpoint options x rest token s s1 Hg) as H2.
    set (s2 := Api.arrived cfg remote endpoint options x rest token s1) in *. clearbody s2.
    destruct (Api.settles x) as [r | | reason];
      unfold Api.onResponse, Api.onAbort, Api.networkError;
      repeat match goal with
             | |- context [if ?b then _ else _] => destruct b
             | |- context [match Api.body ?r with _ => _ end] => destruct (Api.body r)
             end;
      solve [ apply IH; auto 6 with grows | auto 6 with grows ].
Qed.

Lemma grows_on_api {A} (f : Api.State -> Outcome A * Api.State) s :
  (forall c, Api.log c `prefix_of` Api.log (snd (f c))) ->
  Sync.journal s `prefix_of` Sync.journal (snd (Sync.on_api f s)).
Proof.
  intros H. unfold Sync.on_api, Sync.journal. specialize (H (Db.client s)).
  destruct (f (Db.client s)) as [o c]. exact H.
Qed.

Lemma grows_upsertCampaign campaign s :
  Sync.journal s `prefix_of` Sync.journal (snd (Db.upsertCampaign cfg pg campaign s)).
Proof.
  unfold Db.upsertCampaign, Sync.journal.
  destruct (Conf.useMock _).
  - destruct (prop "id" campaign); cbn; try reflexivity.
    destruct (prop "name" campaign); cbn; try reflexivity.
    apply prefix_app_r. reflexivity.
  - destruct (negb (Db.pool s)); [reflexivity |].
    destruct (Db.props _ campaign); cbn; try reflexivity.
    destruct (Db.queryError pg _); cbn; apply prefix_app_r; reflexivity.
Qed.

Lemma grows_syncOne campaign name s :
  Sync.journal s `prefix_of` Sync.journal (snd (Sync.syncOne cfg remote pg campaign name s)).
Proof.
  unfold Sync.syncOne. destruct (prop "id" campaign) as [id | e |]; cbn [reading snd];
    try reflexivity.
  pose proof (grows_on_api (Api.syncCampaign cfg remote id) s) as H1.
  destruct (Sync.on_api (Api.syncCampaign cfg remote id) s) as [[v | e |] s1];
    cbn [snd] in *.
  - pose proof (grows_upsertCampaign campaign s1) as H2.
    destruct (Db.upsertCampaign cfg pg campaign s1) as [[[] | e |] s2]; cbn [snd] in *.
    + etransitivity; [apply H1 |].
      * intros c. apply grows_request_from. reflexivity.
      * etransitivity; [exact H2 |]. unfold Sync.journal. cbn. apply prefix_app_r. reflexivity.
    + etransitivity; [apply H1 | exact H2]. intros c. apply grows_request_from. reflexivity.
    + etransitivity; [apply H1 | exact H2]. intros c. apply grows_request_from. reflexivity.
  - apply H1. intros c. apply grows_request_from. reflexivity.
  - apply H1. intros c. apply grows_request_from. reflexivity.
Qed.

(** The announcement of a record, from the values read off it. *)
Lemma announcement_text total i campaign name id :
  prop "name" campaign = Returned name ->
  prop "id" campaign = Returned id ->
  Sync.announcement total i campaign =
    {| level := INFO;
       text := "[" +:+ pretty (i + 1)%nat +:+ "/" +:+ pretty total +:+ "] Processing campaign: "
               +:+ to_string name +:+ " (" +:+ to_string id +:+ ")";
       meta := NoMeta |}.
Proof. intros Hn Hi. unfold Sync.announcement, get. rewrite Hn, Hi. reflexivity. Qed.

(** The loop keeps the log and announces every record it is given. *)
Lemma syncEach_announces campaigns :
  Forall Sync.is_record campaigns ->
  forall total i successCount failureCount s counts s',
    Sync.syncEach cfg remote pg campaigns total i successCount failureCount s
    = (Returned counts, s') ->
    Sync.journal s `prefix_of` Sync.journal s' /\
    forall (j : nat) campaign,
      campaigns !! j = Some campaign ->
      Sync.announcement total (i + j) campaign ∈ Sync.journal s'.
Proof.
  induction 1 as [| campaign rest Hc _ IH];
    intros total i successCount failureCount s counts s' Hrun.
  - simpl in Hrun. injection Hrun as _ <-. split; [reflexivity |].
    intros j c Hj. rewrite lookup_nil in Hj. discriminate.
  - unfold Sync.is_record in Hc.
    assert (Hname : exists name, prop "name" campaign = Returned name)
      by (destruct campaign; try discriminate; simpl; eauto).
    assert (Hid : exists id, prop "id" campaign = Returned id)
      by (destruct campaign; try discriminate; simpl; eauto).
    destruct Hname as (name & Hname). destruct Hid as (id & Hid).
    pose proof (announcement_text total i campaign name id Hname Hid) as Hann.
    set (s0 := Db.logged INFO
                 ("[" +:+ pretty (i + 1)%nat +:+ "/" +:+ pretty total
                  +:+ "] Processing campaign: "
                  +:+ to_string name +:+ " (" +:+ to_string id +:+ ")") NoMeta s).
    assert (H0 : Sync.journal s0 = Sync.journal s ++ [Sync.announcement total i campaign])
      by (rewrite Hann; reflexivity).
    pose proof (grows_syncOne campaign name s0) as H1.
    assert (Hnext : exists sc fc s1,
               Sync.journal s0 `prefix_of` Sync.journal s1 /\
               Sync.syncEach cfg remote pg rest total (S i) sc fc s1 = (Returned counts, s')).
    { destruct (Sync.syncOne cfg remote pg campaign name s0) as [[[] | e |] s1] eqn:Hone;
        cbn [snd] in H1.
      - rewrite (syncEach_success cfg remote pg campaign name id rest total i _ _ s s1
                   Hname Hid Hone) in Hrun. eauto.
      - rewrite (syncEach_failure cfg remote pg campaign name id rest total i _ _ s e s1
                   Hname Hid Hone) in Hrun.
        eexists _, _, _. split; [| exact Hrun].
        etransitivity; [exact H1 |]. unfold Sync.journal. cbn. apply prefix_app_r. reflexivity.
      - cbn [Sync.syncEach] in Hrun. rewrite Hname, Hid in Hrun. cbn [reading] in Hrun.
        fold s0 in Hrun. rewrite Hone in Hrun. discriminate. }
    destruct Hnext as (sc & fc & s1 & Hs1 & Hrest).
    destruct (IH total (S i) sc fc s1 counts s' Hrest) as (Hgrow & Hall).
    assert (Hs0 : Sync.journal s0 `prefix_of` Sync.journal s') by (etransitivity; eassumption).
    split.
    + etransitivity; [| exact Hs0]. rewrite H0. apply prefix_app_r. reflexivity.
    + intros [| j] c Hj.
      * simpl in Hj. injection Hj as <-. replace (i + 0)%nat with i by lia.
        destruct Hs0 as (k & ->). rewrite H0.
        apply elem_of_app. left. apply elem_of_app. right. constructor.
      * simpl in Hj. replace (i + S j)%nat with (S i + j)%nat by lia. now apply Hall.
Qed.

End Journal.

(** ** The lines that report a record *)

Lemma verdicts_snoc log e :
  Sync.verdicts (log ++ [e])
  = ((Sync.successes log + (if Sync.is_success e then 1 else 0))%nat,
     (Sync.failures log + (if Sync.is_failure e then 1 else 0))%nat).
Proof.
  unfold Sync.verdicts, Sync.successes, Sync.failures.
  rewrite !filter_app, !length_app.
  apply f_equal2; apply (f_equal (Nat.add _)).
  - destruct (Sync.is_success e) eqn:E.
    + rewrite filter_cons_True by exact E. reflexivity.
    + rewrite filter_cons_False by (rewrite E; discriminate). reflexivity.
  - destruct (Sync.is_failure e) eqn:E.
    + rewrite filter_cons_True by exact E. reflexivity.
    + rewrite filter_cons_False by (rewrite E; discriminate). reflexivity.
Qed.

Lemma verdicts_other log e :
  Sync.is_success e = false -> Sync.is_failure e = false ->
  Sync.verdicts (log ++ [e]) = Sync.verdicts log.
Proof.
  intros H1 H2. rewrite verdicts_snoc, H1, H2. unfold Sync.verdicts.
  apply f_equal2; lia.
Qed.

Lemma success_line t :
  Sync.is_success {| level := INFO; text := "Successfully synced " +:+ t; meta := NoMeta |}
  = true.
Proof. cbn. destruct t; reflexivity. Qed.

Lemma failure_line t m :
  Sync.is_failure {| level := ERROR; text := "Failed to sync campaign " +:+ t; meta := m |}
  = true.
Proof. cbn. destruct t; reflexivity. Qed.

Section Quiet.

Variable cfg : Conf.Config.
Variable remote : Api.Remote.
Variable pg : Db.Postgres.

(** The client and the database service log no line that reports a record:
    they leave the counts [v] of the log as they are. *)
Lemma quiet_logged l t m v s :
  Sync.is_success {| level := l; text := t; meta := m |} = false ->
  Sync.is_failure {| level := l; text := t; meta := m |} = false ->
  Sync.verdicts (Api.log s) = v ->
  Sync.verdicts (Api.log (Api.logged l t m s)) = v.
Proof. intros H1 H2 <-. cbn [Api.logged Api.log]. now apply verdicts_other. Qed.

Lemma quiet_sleep ms v s :
  Sync.verdicts (Api.log s) = v -> Sync.verdicts (Api.log (Api.sleep remote ms s)) = v.
Proof. intros H. exact H. Qed.

Lemma quiet_set_token t e v s :
  Sync.verdicts (Api.log s) = v -> Sync.verdicts (Api.log (Api.set_token t e s)) = v.
Proof. intros H. exact H. Qed.

Lemma quiet_enforceRateLimit v s :
  Sync.verdicts (Api.log s) = v ->
  Sync.verdicts (Api.log (Api.enforceRateLimit remote s)) = v.
Proof.
  intros H. unfold Api.enforceRateLimit. destruct (_ <? _); [| exact H].
  apply quiet_sleep, quiet_logged; [reflexivity | reflexivity | exact H].
Qed.

Lemma quiet_arrived endpoint options x rest token v s :
  Sync.verdicts (Api.log s) = v ->
  Sync.verdicts (Api.log (Api.arrived cfg remote endpoint options x rest token s)) = v.
Proof.
  intros H. unfold Api.arrived.
  change (Sync.verdicts
            (Api.log (Api.logged DEBUG ("Requesting " +:+ endpoint) NoMeta
                        (Api.enforceRateLimit remote s))) = v).
  apply quiet_logged; [reflexivity | reflexivity |]. now apply quiet_enforceRateLimit.
Qed.

Lemma quiet_finalFailure endpoint retryCount e v s :
  Sync.verdicts (Api.log s) = v ->
  Sync.verdicts (Api.log (snd (Api.finalFailure endpoint retryCount e s))) = v.
Proof.
  intros H. destruct retryCount; cbn [Api.finalFailure snd]; [| exact H].
  apply quiet_logged; [reflexivity | reflexivity | exact H].
Qed.

Lemma quiet_getAccessToken v s :
  Sync.verdicts (Api.log s) = v ->
  Sync.verdicts (Api.log (snd (Api.getAccessToken cfg remote s))) = v.
Proof.
  intros H. unfold Api.getAccessToken, Api.authenticationFailed.
  destruct (_ && _); [exact H |].
  assert (H0 : Sync.verdicts
                 (Api.log (Api.enforceRateLimit remote
                             (Api.logged INFO "Authenticating with Ad Platform API..." NoMeta s)))
               = v)
    by (apply quiet_enforceRateLimit, quiet_logged; [reflexivity | reflexivity | exact H]).
  destruct (Api.settles _) as [r | | reason]; cbn [snd].
  - destruct (negb (Api.ok r)); cbn [snd];
      [apply quiet_logged; [reflexivity | reflexivity | exact H0] |].
    destruct (Api.body r); cbn [snd];
      apply quiet_logged; try reflexivity; exact H0.
  - apply quiet_logged; [reflexivity | reflexivity | exact H0].
  - apply quiet_logged; [reflexivity | reflexivity | exact H0].
Qed.

Lemma quiet_request_from server :
  forall endpoint options retryCount v s,
    Sync.verdicts (Api.log s) = v ->
    Sync.verdicts
      (Api.log (snd (Api.request_from cfg remote server endpoint options retryCount s))) = v.
Proof.
  induction server as [| x rest IH]; intros endpoint options retryCount v s H.
  - simpl. pose proof (quiet_getAccessToken v s H) as Hg.
    destruct (Api.getAccessToken cfg remote s) as [[token | e |] s1]; cbn [snd] in *.
    + apply quiet_logged; [reflexivity | reflexivity |]. apply quiet_enforceRateLimit, Hg.
    + apply quiet_finalFailure, Hg.
    + exact Hg.
  - rewrite request_from_cons. pose proof (quiet_getAccessToken v s H) as Hg.
    destruct (Api.getAccessToken cfg remote s) as [[token | e |] s1]; cbn [snd] in *.
    2: apply quiet_finalFailure, Hg.
    2: exact Hg.
    cbv zeta.
    pose proof (quiet_arrived endpoint options x rest token v s1 Hg) as H2.
    set (s2 := Api.arrived cfg remote endpoint options x rest token s1) in *. clearbody s2.
    destruct (Api.settles x) as [r | | reason];
      unfold Api.onResponse, Api.onAbort, Api.networkError;
      repeat match goal with
             | |- context [if ?b then _ else _] => destruct b
             | |- context [match Api.body ?r with _ => _ end] => destruct (Api.body r)
             end;
      cbn [snd];
      repeat first
        [ exact H2
        | apply IH
        | apply quiet_finalFailure
        | apply quiet_sleep
        | apply quiet_set_token
        | apply quiet_logged; [reflexivity | reflexivity |] ].
Qed.

Lemma quiet_request endpoint options retryCount c :
  Sync.verdicts (Api.log (snd (Api.request cfg remote endpoint options retryCount c)))
  = Sync.verdicts (Api.log c).
Proof. unfold Api.request. now apply quiet_request_from. Qed.

Lemma quiet_on_api {A} (f : Api.State -> Outcome A * Api.State) s :
  (forall c, Sync.verdicts (Api.log (snd (f c))) = Sync.verdicts (Api.log c)) ->
  Sync.verdicts (Sync.journal (snd (Sync.on_api f s))) = Sync.verdicts (Sync.journal s).
Proof.
  intros H. unfold Sync.on_api, Sync.journal. specialize (H (Db.client s)).
  destruct (f (Db.client s)) as [o c]. exact H.
Qed.

Lemma quiet_db_logged l t m v s :
  Sync.is_success {| level := l; text := t; meta := m |} = false ->
  Sync.is_failure {| level := l; text := t; meta := m |} = false ->
  Sync.verdicts (Sync.journal s) = v ->
  Sync.verdicts (Sync.journal (Db.logged l t m s)) = v.
Proof. intros H1 H2 H. unfold Sync.journal. cbn [Db.logged Db.on_client Db.client]. now apply quiet_logged. Qed.

Lemma quiet_upsertCampaign campaign s :
  Sync.verdicts (Sync.journal (snd (Db.upsertCampaign cfg pg campaign s)))
  = Sync.verdicts (Sync.journal s).
Proof.
  unfold Db.upsertCampaign.
  destruct (Conf.useMock _).
  - destruct (prop "id" campaign); cbn [reading snd]; try reflexivity.
    destruct (prop "name" campaign); cbn [reading snd]; try reflexivity.
    apply quiet_db_logged; reflexivity.
  - destruct (negb (Db.pool s)); [reflexivity |].
    destruct (Db.props _ campaign); cbn [snd]; try reflexivity.
    destruct (Db.queryError pg _); cbn [snd]; apply quiet_db_logged; reflexivity.
Qed.

Lemma quiet_connect s :
  Sync.verdicts (Sync.journal (snd (Db.connect cfg pg s))) = Sync.verdicts (Sync.journal s).
Proof.
  unfold Db.connect.
  destruct (Conf.useMock _); [apply quiet_db_logged; reflexivity |].
  destruct (negb (Db.pool s)); [| reflexivity].
  destruct (Db.connectError pg); cbn [snd]; apply quiet_db_logged; reflexivity.
Qed.

Lemma quiet_close s :
  Sync.verdicts (Sync.journal (snd (Db.close pg s))) = Sync.verdicts (Sync.journal s).
Proof.
  unfold Db.close. destruct (Db.pool s); [| reflexivity].
  destruct (Db.endError pg); cbn [snd]; [reflexivity |].
  apply quiet_db_logged; reflexivity.
Qed.

Lemma quiet_fetchPages fuel :
  forall allCampaigns page s,
    Sync.verdicts (Sync.journal (snd (Sync.fetchPages cfg remote fuel allCampaigns page s)))
    = Sync.verdicts (Sync.journal s).
Proof.
  induction fuel as [| fuel IH]; intros allCampaigns page s; [reflexivity |].
  cbn [Sync.fetchPages].
  set (s0 := Db.logged INFO _ NoMeta s).
  assert (H0 : Sync.verdicts (Sync.journal s0) = Sync.verdicts (Sync.journal s))
    by (apply quiet_db_logged; reflexivity).
  pose proof (quiet_on_api (Api.getCampaigns cfg remote page 10) s0
                (fun c => quiet_request _ _ _ c)) as H1.
  rewrite H0 in H1. clearbody s0.
  destruct (Sync.on_api (Api.getCampaigns cfg remote page 10) s0) as [[response | e |] s1];
    cbn [fst snd] in *; [| exact H1 ..].
  destruct (if truthy response then prop "data" response else Returned response)
    as [guard | e |]; cbn [reading snd]; [| exact H1 ..].
  destruct (truthy guard); [| apply quiet_db_logged; [reflexivity | reflexivity | exact H1]].
  destruct (prop "pagination" response) as [pagination | e |]; cbn [reading snd];
    [| exact H1 ..].
  destruct (prop "has_more" pagination) as [hasMore | e |]; cbn [reading snd];
    [| exact H1 ..].
  destruct (truthy hasMore); [| exact H1].
  rewrite IH. exact H1.
Qed.

(** The processing of one record adds one line of success when it returns,
    and no line that reports a record otherwise. *)
Lemma syncOne_verdicts campaign name s :
  let rs := Sync.syncOne cfg remote pg campaign name s in
  Sync.verdicts (Sync.journal (snd rs))
  = match fst rs with
    | Returned _ => (S (Sync.successes (Sync.journal s)), Sync.failures (Sync.journal s))
    | _ => Sync.verdicts (Sync.journal s)
    end.
Proof.
  cbv zeta. unfold Sync.syncOne.
  destruct (prop "id" campaign) as [id | e |]; cbn [reading fst snd]; try reflexivity.
  pose proof (quiet_on_api (Api.syncCampaign cfg remote id) s
                (fun c => quiet_request _ _ _ c)) as H1.
  destruct (Sync.on_api (Api.syncCampaign cfg remote id) s) as [[v | e |] s1];
    cbn [fst snd] in *; [| exact H1 ..].
  pose proof (quiet_upsertCampaign campaign s1) as H2. rewrite H1 in H2.
  destruct (Db.upsertCampaign cfg pg campaign s1) as [[[] | e |] s2];
    cbn [fst snd] in *; [| exact H2 ..].
  unfold Sync.journal in *. cbn [Db.logged Db.on_client Db.client Api.logged Api.log].
  rewrite verdicts_snoc, success_line.
  change (Sync.is_failure _) with false. cbv iota.
  injection H2 as -> ->. apply f_equal2; lia.
Qed.

(** The loop adds one line of success per record it counts as a success, and
    one line of failure per record it counts as a failure. *)
Lemma syncEach_verdicts campaigns :
  forall total i successCount failureCount s successCount' failureCount' s',
    Sync.syncEach cfg remote pg campaigns total i successCount failureCount s
    = (Returned (successCount', failureCount'), s') ->
    (Sync.successes (Sync.journal s') + successCount
     = Sync.successes (Sync.journal s) + successCount')%nat /\
    (Sync.failures (Sync.journal s') + failureCount
     = Sync.failures (Sync.journal s) + failureCount')%nat.
Proof.
  induction campaigns as [| campaign rest IH];
    intros total i successCount failureCount s successCount' failureCount' s' Hrun.
  - simpl in Hrun. injection Hrun as <- <- <-. split; lia.
  - cbn [Sync.syncEach] in Hrun.
    destruct (prop "name" campaign) as [name | e |]; cbn [reading] in Hrun;
      try discriminate.
    destruct (prop "id" campaign) as [id | e |]; cbn [reading] in Hrun;
      try discriminate.
    match type of Hrun with
    | context [Sync.syncOne _ _ _ _ _ ?s0] =>
        assert (H0 : Sync.verdicts (Sync.journal s0) = Sync.verdicts (Sync.journal s))
          by (apply quiet_db_logged; reflexivity);
        pose proof (syncOne_verdicts campaign name s0) as H1;
        destruct (Sync.syncOne cfg remote pg campaign name s0) as [[[] | e |] s1]
    end; cbn [fst snd] in *; try discriminate.
    + destruct (IH _ _ _ _ _ _ _ _ Hrun) as (IHs & IHf).
      unfold Sync.verdicts in H0, H1.
      injection H0 as H0s H0f. injection H1 as H1s H1f. split; lia.
    + match type of Hrun with
      | Sync.syncEach _ _ _ _ _ _ _ _ ?s2 = _ =>
          assert (H2 : Sync.verdicts (Sync.journal s2)
                       = (Sync.successes (Sync.journal s1),
                          S (Sync.failures (Sync.journal s1))))
      end.
      { unfold Sync.journal. cbn [Db.logged Db.on_client Db.client Api.logged Api.log].
        rewrite verdicts_snoc, failure_line.
        change (Sync.is_success _) with false. cbv iota. apply f_equal2; lia. }
      destruct (IH _ _ _ _ _ _ _ _ Hrun) as (IHs & IHf).
      unfold Sync.verdicts in H0, H1, H2.
      injection H0 as H0s H0f. injection H1 as H1s H1f. injection H2 as H2s H2f.
      split; lia.
Qed.

End Quiet.

(** ** What makes a record fail *)

Section Causes.

Variable cfg : Conf.Config.
Variable remote : Api.Remote.
Variable pg : Db.Postgres.
Hypothesis token_service : forall j, Api.authenticates (Api.authServer remote j) = true.

(** The mock rejects nothing, whatever the number of the statement. *)
Lemma failing_mock triggers :
  Conf.useMock (Conf.db cfg) = true ->
  forall q q', Sync.failing cfg pg q triggers = Sync.failing cfg pg q' triggers.
Proof.
  intros Hm. induction triggers as [| x rest IH]; intros q q'; [reflexivity |].
  cbn [Sync.failing]. unfold Sync.rejects. rewrite Hm. cbn [negb andb].
  destruct (Api.refused x); [f_equal |]; apply IH.
Qed.

(** With a real database, [connect] returns with the pool set. *)
Lemma connect_pool s s1 :
  Db.connect cfg pg s = (Returned tt, s1) ->
  Conf.useMock (Conf.db cfg) = true \/ Db.pool s1 = true.
Proof.
  intros H. unfold Db.connect in H.
  destruct (Conf.useMock _); [left; reflexivity |]. right.
  destruct (Db.pool s) eqn:Hp; cbn [negb] in H.
  - injection H as <-. exact Hp.
  - destruct (Db.connectError pg); [discriminate |]. injection H as <-. reflexivity.
Qed.

(** The upsert of a record is one statement, and fails when the database
    rejects it. *)
Lemma upsertCampaign_outcome campaign s :
  nullish campaign = false ->
  Conf.useMock (Conf.db cfg) = true \/ Db.pool s = true ->
  let rs := Db.upsertCampaign cfg pg campaign s in
  (if Sync.rejects cfg pg (length (Db.queries s))
   then exists e, fst rs = Threw e else fst rs = Returned tt) /\
  Db.pool (snd rs) = Db.pool s /\
  Api.apiServer (Db.client (snd rs)) = Api.apiServer (Db.client s) /\
  (Conf.useMock (Conf.db cfg) = false ->
   length (Db.queries (snd rs)) = S (length (Db.queries s))).
Proof.
  intros Hc Hpool. cbv zeta. unfold Db.upsertCampaign, Sync.rejects.
  destruct (Conf.useMock (Conf.db cfg)) eqn:Hm; cbn [negb andb].
  - destruct campaign; try discriminate; cbn [prop reading fst snd];
      repeat split; discriminate.
  - destruct Hpool as [Hpool | Hpool]; [discriminate |]. rewrite Hpool. cbn [negb].
    destruct (props_settle
                ["id"; "name"; "status"; "budget"; "impressions"; "clicks"; "conversions"]
                campaign Hc) as (values & ->).
    destruct (Db.queryError pg (length (Db.queries s))) as [err |] eqn:Hq;
      cbn [fst snd Db.logged Db.on_client Db.queried Db.pool Db.queries Db.client
           Api.logged Api.tick Api.apiServer].
    + rewrite bool_decide_eq_true_2 by eauto.
      repeat split; eauto. intros _. rewrite length_app. cbn [length]. lia.
    + rewrite bool_decide_eq_false_2 by (intros [? ?]; discriminate).
      repeat split; eauto. intros _. rewrite length_app. cbn [length]. lia.
Qed.

(** The processing of a record whose remote trigger takes one answer: it
    fails when the trigger is refused, without a statement to the database;
    with a trigger that is delivered it fails when the database rejects the
    statement of the upsert. *)
Lemma syncOne_outcome campaign name x rest s :
  nullish campaign = false ->
  Conf.useMock (Conf.db cfg) = true \/ Db.pool s = true ->
  Api.apiServer (Db.client s) = x :: rest ->
  Api.refused x = true \/ (exists v, Api.delivers v x) ->
  let rs := Sync.syncOne cfg remote pg campaign name s in
  Api.apiServer (Db.client (snd rs)) = rest /\
  Db.pool (snd rs) = Db.pool s /\
  (if Api.refused x
   then (exists e, fst rs = Threw e) /\ Db.queries (snd rs) = Db.queries s
   else (if Sync.rejects cfg pg (length (Db.queries s))
         then exists e, fst rs = Threw e else fst rs = Returned tt) /\
        (Conf.useMock (Conf.db cfg) = false ->
         length (Db.queries (snd rs)) = S (length (Db.queries s)))).
Proof.
  intros Hc Hpool Hsrv Hx. cbv zeta. unfold Sync.syncOne.
  assert (Hid : exists id, prop "id" campaign = Returned id)
    by (destruct campaign; try discriminate; simpl; eauto).
  destruct Hid as (id & ->). cbn [reading].
  unfold Sync.on_api, Api.syncCampaign, Api.request. rewrite Hsrv.
  set (endpoint := "/api/campaigns/" +:+ to_string id +:+ "/sync").
  set (options := {| Api.method := "POST";
                     Api.payload := Some (Obj [("campaign_id", id)]) |}).
  destruct Hx as [Href | (v & Hv)].
  - rewrite Href.
    destruct (getAccessToken_returns cfg remote (Db.client s) token_service) as (token & Hg).
    assert (Hr : exists r, Api.settles x = Api.Responds r).
    { unfold Api.refused in Href. destruct (Api.settles x); try discriminate. eauto. }
    destruct Hr as (r & Hr).
    destruct (request_from_refused cfg remote x rest endpoint options 0 (Db.client s) r token
                Hg Hr Href) as (H1 & H2 & _).
    cbv zeta in H1, H2.
    destruct (Api.request_from cfg remote (x :: rest) endpoint options 0 (Db.client s))
      as [o c]. cbn [fst snd] in H1, H2. subst o. cbn [fst snd Db.client Db.pool Db.queries].
    repeat split; eauto.
  - assert (Href : Api.refused x = false).
    { destruct Hv as (r & Hr & Hok & _). unfold Api.refused. rewrite Hr, Hok. reflexivity. }
    rewrite Href.
    destruct (limited_then_delivered cfg remote token_service [] (Forall_nil_2 _)
                x v rest endpoint options 0%nat (Db.client s) Hv) as (H1 & H2 & _).
    cbn [app] in H1, H2.
    destruct (Api.request_from cfg remote (x :: rest) endpoint options 0 (Db.client s))
      as [o c]. cbn [fst snd] in H1, H2. subst o.
    set (s1 := {| Db.client := c; Db.pool := Db.pool s; Db.queries := Db.queries s |}).
    destruct (upsertCampaign_outcome campaign s1 Hc Hpool) as (U1 & U2 & U3 & U4).
    cbv zeta in U1, U2, U3, U4.
    change (Db.queries s1) with (Db.queries s) in U1, U4.
    change (Db.pool s1) with (Db.pool s) in U2.
    change (Api.apiServer (Db.client s1)) with (Api.apiServer c) in U3.
    clearbody s1.
    destruct (Db.upsertCampaign cfg pg campaign s1) as [[[] | e |] s2];
      cbn [fst snd] in *.
    + cbn [Db.logged Db.on_client Db.client Db.pool Db.queries Api.logged Api.apiServer].
      rewrite U3, H2. repeat split; assumption.
    + rewrite U3, H2. repeat split; assumption.
    + destruct (Sync.rejects cfg pg _); [destruct U1 as (e & U1) |]; discriminate.
Qed.

(** The records that the loop counts as failures are those whose trigger is
    refused and those whose upsert the database rejects. *)
Lemma syncEach_failing campaigns :
  Forall Sync.is_record campaigns ->
  forall triggers rest total i successCount failureCount s successCount' failureCount' s',
    Conf.useMock (Conf.db cfg) = true \/ Db.pool s = true ->
    Api.apiServer (Db.client s) = triggers ++ rest ->
    length triggers = length campaigns ->
    Forall (fun x => Api.refused x = true \/ exists v, Api.delivers v x) triggers ->
    Sync.syncEach cfg remote pg campaigns total i successCount failureCount s
    = (Returned (successCount', failureCount'), s') ->
    failureCount'
    = (failureCount + Sync.failing cfg pg (length (Db.queries s)) triggers)%nat.
Proof.
  induction 1 as [| campaign campaigns Hc _ IH];
    intros triggers rest total i successCount failureCount s successCount' failureCount' s'
           Hpool Hsrv Hlen Htriggers Hrun.
  - destruct triggers; [| discriminate]. simpl in Hrun. injection Hrun as _ <- _.
    simpl. lia.
  - destruct triggers as [| x triggers]; [discriminate |].
    cbn [length] in Hlen. injection Hlen as Hlen.
    apply Forall_cons in Htriggers as [Hx Htriggers].
    unfold Sync.is_record in Hc.
    assert (Hname : exists name, prop "name" campaign = Returned name)
      by (destruct campaign; try discriminate; simpl; eauto).
    assert (Hid : exists id, prop "id" campaign = Returned id)
      by (destruct campaign; try discriminate; simpl; eauto).
    destruct Hname as (name & Hname). destruct Hid as (id & Hid).
    cbn [Sync.syncEach] in Hrun. rewrite Hname, Hid in Hrun. cbn [reading] in Hrun.
    set (s0 := Db.logged INFO
                 ("[" +:+ pretty (i + 1)%nat +:+ "/" +:+ pretty total
                  +:+ "] Processing campaign: "
                  +:+ to_string name +:+ " (" +:+ to_string id +:+ ")") NoMeta s) in Hrun.
    destruct (syncOne_outcome campaign name x (triggers ++ rest) s0 Hc Hpool Hsrv Hx)
      as (O1 & O2 & O3).
    cbv zeta in O1, O2, O3.
    change (Db.pool s0) with (Db.pool s) in O2.
    change (Db.queries s0) with (Db.queries s) in O3.
    clearbody s0. cbn [Sync.failing].
    destruct (Sync.syncOne cfg remote pg campaign name s0) as [o s1].
    cbn [fst snd] in O1, O2, O3.
    assert (Hpool1 : Conf.useMock (Conf.db cfg) = true \/ Db.pool s1 = true)
      by (destruct Hpool as [Hm | Hp]; [left; exact Hm | right; rewrite O2; exact Hp]).
    destruct (Api.refused x).
    + destruct O3 as ((e & ->) & Hq).
      apply (IH triggers rest) in Hrun;
          [| exact Hpool1 | exact O1 | exact Hlen | exact Htriggers].
        rewrite Hrun.
      cbn [Db.logged Db.on_client Db.queries]. rewrite Hq. lia.
    + destruct O3 as (Ho & Hq).
      destruct (Sync.rejects cfg pg (length (Db.queries s))) eqn:Hrej.
      * destruct Ho as (e & ->).
        assert (Hm : Conf.useMock (Conf.db cfg) = false).
        { unfold Sync.rejects in Hrej. destruct (Conf.useMock _); [discriminate | reflexivity]. }
        apply (IH triggers rest) in Hrun;
          [| exact Hpool1 | exact O1 | exact Hlen | exact Htriggers].
        rewrite Hrun.
        cbn [Db.logged Db.on_client Db.queries]. rewrite (Hq Hm). lia.
      * subst o.
        apply (IH triggers rest) in Hrun;
          [| exact Hpool1 | exact O1 | exact Hlen | exact Htriggers].
        rewrite Hrun.
        destruct (Conf.useMock (Conf.db cfg)) eqn:Hm.
        -- rewrite (failing_mock triggers Hm _ (S (length (Db.queries s)))). lia.
        -- rewrite (Hq eq_refl). lia.
Qed.

End Causes.


(** ** The fuel of the pagination loop *)

Section Fuel.

Variable cfg : Conf.Config.
Variable remote : Api.Remote.

(** A call that returns has taken at least one answer of the server. *)
Lemma request_from_takes server :
  forall endpoint options retryCount s v,
    Api.apiServer s = server ->
    fst (Api.request_from cfg remote server endpoint options retryCount s) = Returned v ->
    (length (Api.apiServer
               (snd (Api.request_from cfg remote server endpoint options retryCount s)))
     < length server)%nat.
Proof.
  induction server as [| x rest IH]; intros endpoint options retryCount s v Hsrv.
  - simpl. destruct (Api.getAccessToken cfg remote s) as [[token | e |] s1]; cbn [fst];
      try discriminate; try (destruct retryCount; discriminate).
  - rewrite request_from_cons.
    destruct (Api.getAccessToken cfg remote s) as [[token | e |] s1]; cbn [fst];
      try discriminate; try (destruct retryCount; discriminate).
    cbv zeta.
    destruct (arrived_frame cfg remote endpoint options x rest token s1) as (Ha & _).
    cbv zeta in Ha.
    set (s2 := Api.arrived cfg remote endpoint options x rest token s1) in *. clearbody s2.
    assert (Hretry : forall s3,
               Api.apiServer s3 = rest ->
               fst (Api.request_from cfg remote rest endpoint options (S retryCount) s3)
               = Returned v ->
               (length (Api.apiServer
                          (snd (Api.request_from cfg remote rest endpoint options
                                  (S retryCount) s3)))
                < length (x :: rest))%nat).
    { intros s3 H3 Hv. specialize (IH endpoint options (S retryCount) s3 v H3 Hv).
      simpl. lia. }
    assert (Hfinal : forall e s3,
               fst (Api.finalFailure endpoint retryCount e s3) = Returned v -> False).
    { intros e s3. destruct retryCount; discriminate. }
    destruct (Api.settles x) as [r | | reason];
      unfold Api.onResponse, Api.onAbort, Api.networkError;
      repeat match goal with
             | |- context [if ?b then _ else _] => destruct b
             | |- context [match Api.body ?r with _ => _ end] => destruct (Api.body r)
             end;
      intros Hv;
      solve [ apply Hretry;
                [rewrite ?apiServer_sleep, ?apiServer_logged, ?apiServer_set_token; exact Ha
                | exact Hv]
            | exfalso; eapply Hfinal; exact Hv
            | cbn [snd]; rewrite ?apiServer_set_token, Ha; simpl; lia ].
Qed.

(** X16. The fuel that [fetchAllCampaigns] gives to its loop is enough: an
    iteration that goes on has taken an answer of the server, so more fuel
    changes nothing and the loop never stops for want of it. *)
Lemma fetchPages_fuel fuel1 :
  forall fuel2 allCampaigns page s,
    (length (Api.apiServer (Db.client s)) < fuel1)%nat ->
    (length (Api.apiServer (Db.client s)) < fuel2)%nat ->
    Sync.fetchPages cfg remote fuel1 allCampaigns page s
    = Sync.fetchPages cfg remote fuel2 allCampaigns page s.
Proof.
  induction fuel1 as [| fuel1 IH]; intros fuel2 allCampaigns page s H1 H2; [lia |].
  destruct fuel2 as [| fuel2]; [lia |].
  cbn [Sync.fetchPages].
  set (s0 := Db.logged INFO ("Fetching campaigns page " +:+ pretty page +:+ "...") NoMeta s).
  assert (Htakes : forall response s1,
             Sync.on_api (Api.getCampaigns cfg remote page 10) s0 = (Returned response, s1) ->
             (length (Api.apiServer (Db.client s1))
              < length (Api.apiServer (Db.client s)))%nat).
  { intros response s1 Hget. unfold Sync.on_api, Api.getCampaigns, Api.request in Hget.
    pose proof (request_from_takes (Api.apiServer (Db.client s0))
                  ("/api/campaigns?page=" +:+ pretty page +:+ "&limit=" +:+ pretty 10)
                  {| Api.method := "GET"; Api.payload := None |} 0 (Db.client s0) response
                  eq_refl) as Ht.
    destruct (Api.request_from _ _ _ _ _ _ _) as [o c]. injection Hget as -> <-.
    exact (Ht eq_refl). }
  destruct (Sync.on_api (Api.getCampaigns cfg remote page 10) s0)
    as [[response | e |] s1]; try reflexivity.
  specialize (Htakes response s1 eq_refl).
  destruct (if truthy response then prop "data" response else Returned response)
    as [guard | e |]; cbn [reading]; try reflexivity.
  destruct (truthy guard); [| reflexivity].
  destruct (prop "pagination" response) as [pagination | e |]; cbn [reading]; try reflexivity.
  destruct (prop "has_more" pagination) as [hasMore | e |]; cbn [reading]; try reflexivity.
  destruct (truthy hasMore); [| reflexivity].
  apply IH; lia.
Qed.

End Fuel.

(** ** The properties on the sample world *)

Lemma sample_token_service :
  forall j, Api.authenticates (Api.authServer Sample.remote j) = true.
Proof. intros j. reflexivity. Qed.

Lemma sample_answers code reason v : Api.answers code (Sample.answer code reason v).
Proof. eexists. split; reflexivity. Qed.

Lemma sample_delivers v : Api.delivers v (Sample.answer 200 "OK" v).
Proof. eexists. repeat split. Qed.

Lemma sample_serves records n more :
  Sync.serves records more (Sample.answer 200 "OK" (Sample.page records n more)).
Proof.
  exists (Sample.page records n more). split; [apply sample_delivers |].
  eexists _, _. repeat split.
Qed.

(** C1 on a session of four uses: a page that is first refused with a 503,
    a pause, a remote trigger, and a look at the token. The token exchange and
    the three calls of the API start 6500 ms apart. *)
Lemma rate_limit_spacing_witness :
  let ops := [Api.GetCampaigns 1 10; Api.Wait 100; Api.SyncCampaign (Str "campaign_1");
              Api.GetAccessToken] in
  let script := [Sample.unavailable; Sample.answer 200 "OK" (Sample.page [] 1 false);
                 Sample.done] in
  let final := Api.session (Conf.config ∅) Sample.remote ops
                 (Api.create (Conf.config ∅) 1000000 script) in
  Api.spaced (Conf.minRequestIntervalMs (Conf.api (Conf.config ∅))) (Api.calls final) /\
  Api.startedAt <$> Api.calls final = [1000000; 1006500; 1013000; 1019500].
Proof.
  cbv zeta. split.
  - apply (rate_limit_spacing ∅ Sample.remote 1000000). lia.
  - vm_compute. reflexivity.
Defined.

(** C2 on three pages of two, two and one records. *)
Lemma pagination_complete_witness :
  let c := Sample.campaign in
  let script := [Sample.answer 200 "OK" (Sample.page [c 1; c 2] 1 true);
                 Sample.answer 200 "OK" (Sample.page [c 3; c 4] 2 true);
                 Sample.answer 200 "OK" (Sample.page [c 5] 3 false)] in
  let rs := Sync.fetchAllCampaigns Sample.mockCfg Sample.remote
              (Sync.create Sample.mockCfg 1000000 script) in
  fst rs = Returned [c 1; c 2; c 3; c 4; c 5] /\
  Api.fetched (Db.client (snd rs))
  = ["http://localhost:3001/api/campaigns?page=1&limit=10";
     "http://localhost:3001/api/campaigns?page=2&limit=10";
     "http://localhost:3001/api/campaigns?page=3&limit=10"] /\
  Api.apiServer (Db.client (snd rs)) = [].
Proof.
  cbv zeta.
  apply (pagination_complete Sample.mockCfg Sample.remote
           [Sample.answer 200 "OK" (Sample.page [Sample.campaign 1; Sample.campaign 2] 1 true);
            Sample.answer 200 "OK" (Sample.page [Sample.campaign 3; Sample.campaign 4] 2 true)]
           [[Sample.campaign 1; Sample.campaign 2]; [Sample.campaign 3; Sample.campaign 4]]
           (Sample.answer 200 "OK" (Sample.page [Sample.campaign 5] 3 false))
           [Sample.campaign 5] []).
  - exact sample_token_service.
  - repeat constructor; apply sample_serves.
  - apply sample_serves.
  - reflexivity.
Defined.

(** C3 on five 429s, more than the retry ceiling of 3, before the 200. *)
Lemma rate_limit_never_exhausts_witness :
  let s := Sample.warm [Sample.tooMany; Sample.tooMany; Sample.tooMany; Sample.tooMany;
                        Sample.tooMany; Sample.done] in
  let rs := Api.request Sample.cfg Sample.remote "/api/campaigns/campaign_1/sync"
              {| Api.method := "POST"; Api.payload := None |} 0 s in
  fst rs = Returned (Obj [("success", Bool true)]) /\
  Api.apiServer (snd rs) = [] /\
  Api.retryWarnings (snd rs) = (Api.retryWarnings s + 5)%nat.
Proof.
  cbv zeta.
  apply (rate_limit_never_exhausts Sample.cfg Sample.remote
           [Sample.tooMany; Sample.tooMany; Sample.tooMany; Sample.tooMany; Sample.tooMany]
           Sample.done (Obj [("success", Bool true)]) []).
  - exact sample_token_service.
  - repeat constructor; apply sample_answers.
  - apply sample_delivers.
  - reflexivity.
Defined.

(** C4 on three 503s and a 200, and on four 503s followed by an answer that
    is never asked for. *)
Lemma server_error_retry_ceiling_witness :
  let ok := Sample.done in
  let e := Sample.unavailable in
  let rs1 := Api.request Sample.cfg Sample.remote "/api/campaigns/campaign_1/sync"
               {| Api.method := "POST"; Api.payload := None |} 0
               (Sample.warm [e; e; e; ok]) in
  let rs2 := Api.request Sample.cfg Sample.remote "/api/campaigns/campaign_1/sync"
               {| Api.method := "POST"; Api.payload := None |} 0
               (Sample.warm [e; e; e; e; ok]) in
  (fst rs1 = Returned (Obj [("success", Bool true)]) /\
   Api.apiServer (snd rs1) = [] /\
   Api.retryWarnings (snd rs1) = 3%nat) /\
  ((exists text, fst rs2 = Threw (ApiError text (Some 503))) /\
   Api.apiServer (snd rs2) = [ok] /\
   Api.retryWarnings (snd rs2) = 3%nat).
Proof.
  cbv zeta. split.
  - apply (server_error_retry_ceiling Sample.cfg Sample.remote
             Sample.unavailable Sample.unavailable Sample.unavailable Sample.unavailable
             Sample.done (Obj [("success", Bool true)]) []
             "/api/campaigns/campaign_1/sync" {| Api.method := "POST"; Api.payload := None |}
             (Sample.warm [Sample.unavailable; Sample.unavailable; Sample.unavailable;
                           Sample.done]));
      try apply sample_answers; try apply sample_delivers; try reflexivity.
  - apply (server_error_retry_ceiling Sample.cfg Sample.remote
             Sample.unavailable Sample.unavailable Sample.unavailable Sample.unavailable
             Sample.done (Obj [("success", Bool true)]) [Sample.done]
             "/api/campaigns/campaign_1/sync" {| Api.method := "POST"; Api.payload := None |}
             (Sample.warm [Sample.unavailable; Sample.unavailable; Sample.unavailable;
                           Sample.unavailable; Sample.done]));
      try apply sample_answers; try apply sample_delivers; try reflexivity.
Defined.

(** C6 on a fresh client: the first call makes the one exchange, and a call
    made ten minutes later answers from the cache. *)
Lemma token_reuse_witness :
  let s := Api.create Sample.cfg 1000000 [] in
  let rs := Api.getAccessToken Sample.cfg Sample.remote s in
  Api.authExchanges (snd rs) = 1%nat /\
  Api.getAccessToken Sample.cfg Sample.remote (Api.tick 600000 (snd rs))
  = (Returned (Some "token-1"), Api.tick 600000 (snd rs)).
Proof.
  cbv zeta.
  destruct (token_reuse Sample.cfg Sample.remote (Api.create Sample.cfg 1000000 []))
    as (_ & Hmiss).
  destruct Hmiss as (Hone & _ & Hanswer).
  { intros (tok & Htok & _). discriminate. }
  split; [exact Hone |].
  destruct (Hanswer _ _ eq_refl eq_refl eq_refl) as (_ & _ & _ & _ & Hagain).
  apply Hagain; [reflexivity | discriminate | vm_compute; reflexivity].
Defined.

(** C7 on three 401s followed by an answer that is never asked for, and on
    two 429s followed by one 401 and an answer that is never asked for. *)
Lemma unauthorized_retries_witness :
  let get := Api.request Sample.cfg Sample.remote "/api/campaigns?page=1&limit=10"
               {| Api.method := "GET"; Api.payload := None |} 0 in
  let rs := get (Sample.warm [Sample.unauthorized; Sample.unauthorized; Sample.unauthorized;
                              Sample.done]) in
  let rs' := get (Sample.warm [Sample.tooMany; Sample.tooMany; Sample.unauthorized;
                               Sample.done]) in
  ((exists text, fst rs = Threw (ApiError text (Some 401))) /\
   Api.apiServer (snd rs) = [Sample.done] /\
   Api.accessToken (snd rs) = None /\ Api.tokenExpiry (snd rs) = 0 /\
   Api.authExchanges (snd rs) = 3%nat) /\
  ((exists text, fst rs' = Threw (ApiError text (Some 401))) /\
   Api.apiServer (snd rs') = [Sample.done] /\
   Api.accessToken (snd rs') = None /\ Api.tokenExpiry (snd rs') = 0 /\
   Api.refreshes (snd rs') = 0%nat).
Proof.
  cbv zeta.
  destruct (unauthorized_retries Sample.cfg Sample.remote sample_token_service)
    as (_ & _ & Hthrice & _ & Hshared).
  split.
  - apply (Hthrice Sample.unauthorized Sample.unauthorized Sample.unauthorized [Sample.done]);
      try apply sample_answers. reflexivity.
  - apply (Hshared [Sample.tooMany; Sample.tooMany] Sample.unauthorized [Sample.done]).
    + repeat constructor; apply sample_answers.
    + simpl. lia.
    + apply sample_answers.
    + reflexivity.
Defined.

(** C10 on a first page that has records and no [pagination]. *)
Lemma missing_pagination_is_fatal_witness :
  let s := Sync.create Sample.mockCfg 1000000
             [Sample.answer 200 "OK" (Obj [("data", Arr [Sample.campaign 1])])] in
  fst (Sync.fetchAllCampaigns Sample.mockCfg Sample.remote s)
  = Threw (TypeError "Cannot read properties of undefined (reading 'has_more')") /\
  fst (Sync.main Sample.mockCfg Sample.remote Sample.postgres s) = Some 1.
Proof.
  cbv zeta.
  apply (missing_pagination_is_fatal Sample.mockCfg Sample.remote Sample.postgres
           (Sample.answer 200 "OK" (Obj [("data", Arr [Sample.campaign 1])]))
           [("data", Arr [Sample.campaign 1])] []).
  - exact sample_token_service.
  - apply sample_delivers.
  - reflexivity.
  - reflexivity.
  - reflexivity.
Defined.


(** The run of the specification's test: a hundred records of which the
    37th cannot be persisted. The summary is 99 successes, 1 failure, 100
    records, and the exit code is 0. *)
Example hundred_records_one_failure :
  let rs := Sync.main Sample.cfg Sample.remote (Sample.failingAt 36)
              (Sync.create Sample.cfg 1000000 Sample.hundred) in
  fst rs = Some 0 /\
  meta <$> filter (fun e => text e = "Sync Service Completed") (Sync.journal (snd rs))
  = [Sync.report 99 1 100] /\
  length (Db.queries (snd rs)) = 100%nat.
Proof. vm_compute. repeat split. Qed.

(* ===================================================================== *)
(** * Further properties                                                  *)
(* ===================================================================== *)

(** ** The configuration *)

(** A variable that is blank, against the same variable taken away. *)
Lemma lookup_blank (env : gmap string string) (k key : string) :
  (<[k := ""]> env !! key = Some "" /\ delete k env !! key = None) \/
  (<[k := ""]> env !! key = env !! key /\ delete k env !! key = env !! key).
Proof.
  destruct (decide (k = key)) as [-> | Hne].
  - left. rewrite lookup_insert_eq, lookup_delete_eq. auto.
  - right. rewrite lookup_insert_ne, lookup_delete_ne by exact Hne. auto.
Qed.

Lemma or_else_blank (env : gmap string string) (k key d : string) :
  Js.or_else (<[k := ""]> env !! key) d = Js.or_else (delete k env !! key) d.
Proof.
  destruct (lookup_blank env k key) as [[-> ->] | [-> ->]]; reflexivity.
Qed.

(** In the environment that [config] reads, a blank variable is as good as
    none. *)
Lemma config_blank (env : gmap string string) (k : string) :
  Conf.config (<[k := ""]> env) = Conf.config (delete k env).
Proof.
  unfold Conf.config. rewrite !or_else_blank.
  destruct (lookup_blank env k "USE_MOCK_DB") as [[-> ->] | [-> ->]]; reflexivity.
Qed.

(** X1. A variable that the process is started with, set to the empty
    string, hides the value that the [.env] file gives it ([dotenv] keeps what
    is set already) and counts as unset: the configuration loaded is the one
    loaded with the variable neither in the environment of the process nor in
    the file, so the default for the options read with [||], and [false] for
    the mock toggle. *)
Theorem blank_variable_hides_dotenv (processEnv dotenvFile : gmap string string) (k : string) :
  Conf.load (<[k := ""]> processEnv) dotenvFile
  = Conf.load (delete k processEnv) (delete k dotenvFile).
Proof.
  unfold Conf.load, Conf.dotenv_config.
  rewrite <- insert_union_l, <- delete_union. apply config_blank.
Qed.

(** [parseInt] reads back the decimal numerals: digit by digit, ... *)
Lemma digit_of_pretty (d : N) :
  (d < 10)%N -> Js.digit_of 10 (pretty_N_char d) = Some (Z.of_N d).
Proof.
  intros H.
  assert (Hc : (d = 0 \/ d = 1 \/ d = 2 \/ d = 3 \/ d = 4 \/ d = 5 \/ d = 6 \/ d = 7
                 \/ d = 8 \/ d = 9)%N) by lia.
  repeat destruct Hc as [-> | Hc]; try subst d; reflexivity.
Qed.

(** ... for the digits of a positive number put before any string, ... *)
Lemma digits_pretty_N_go (x : N) :
  (0 < x)%N ->
  exists m : Z, 0 <= m /\
    forall s acc,
      Js.digits 10 (pretty_N_go x s) acc
      = Js.digits 10 s (Some (default 0 acc * 10 ^ m + Z.of_N x)).
Proof.
  induction x as [x IH] using (well_founded_induction N.lt_wf_0). intros Hx.
  destruct (decide (x `div` 10 = 0)%N) as [Hz | Hnz].
  - exists 1. split; [lia |]. intros s acc.
    rewrite pretty_N_go_step by exact Hx. rewrite Hz, pretty_N_go_0.
    simpl Js.digits.
    assert (Hlt : (x < 10)%N) by (apply N.div_small_iff in Hz; lia).
    rewrite N.mod_small by exact Hlt.
    rewrite digit_of_pretty by exact Hlt. reflexivity.
  - destruct (IH (x `div` 10)%N) as (m & Hm & IHm).
    + apply N.div_lt; lia.
    + apply N.neq_0_lt_0. exact Hnz.
    + exists (m + 1). split; [lia |]. intros s acc.
      rewrite pretty_N_go_step by exact Hx. rewrite IHm.
      simpl Js.digits.
      rewrite digit_of_pretty by (apply N.mod_lt; lia).
      apply (f_equal (fun z => Js.digits 10 s (Some z))).
      rewrite Z.pow_add_r by lia. cbn [default].
      pose proof (N.div_mod x 10 ltac:(lia)) as Hdm.
      rewrite N2Z.inj_mod, N2Z.inj_div in *.
      assert (Z.of_N x = 10 * (Z.of_N x / 10) + Z.of_N x mod 10) by (apply Z.div_mod; lia).
      change (Z.of_N 10) with 10. lia.
Qed.

(** The first character of a numeral is a digit other than 0. *)
Lemma pretty_N_go_head (x : N) :
  (0 < x)%N ->
  forall s, exists d rest, (0 < d < 10)%N /\ pretty_N_go x s = String (pretty_N_char d) rest.
Proof.
  induction x as [x IH] using (well_founded_induction N.lt_wf_0). intros Hx s.
  rewrite pretty_N_go_step by exact Hx.
  destruct (decide (x `div` 10 = 0)%N) as [Hz | Hnz].
  - rewrite Hz, pretty_N_go_0.
    assert (Hlt : (x < 10)%N) by (apply N.div_small_iff in Hz; lia).
    rewrite N.mod_small by exact Hlt. exists x, s. split; [lia | reflexivity].
  - apply IH; [apply N.div_lt; lia | apply N.neq_0_lt_0; exact Hnz].
Qed.

(** ... so for the numeral of any number. *)
Lemma parseInt_pretty (n : N) : Js.parseInt (pretty n) = Some (Z.of_N n).
Proof.
  unfold pretty, pretty_N. destruct (decide (n = 0%N)) as [-> | Hn]; [reflexivity |].
  destruct (pretty_N_go_head n ltac:(lia) "") as (d & rest & Hd & Hhead).
  destruct (digits_pretty_N_go n ltac:(lia)) as (m & Hm & Hdigits).
  specialize (Hdigits "" NaN).
  assert (Hparse : Js.parseInt (pretty_N_go n "") = Z.mul 1 <$> Js.digits 10 (pretty_N_go n "") NaN).
  { rewrite Hhead.
    assert (Hc : (d = 1 \/ d = 2 \/ d = 3 \/ d = 4 \/ d = 5 \/ d = 6 \/ d = 7 \/ d = 8
                 \/ d = 9)%N) by lia.
    repeat destruct Hc as [-> | Hc]; try subst d; reflexivity. }
  rewrite Hparse, Hdigits. simpl. f_equal. unfold NaN. simpl. lia.
Qed.

(** A numeral is not the empty string. *)
Lemma pretty_N_nonempty (n : N) : pretty n <> "".
Proof.
  unfold pretty, pretty_N. destruct (decide (n = 0%N)) as [-> | Hn]; [discriminate |].
  destruct (pretty_N_go_head n ltac:(lia) "") as (d & rest & _ & ->). discriminate.
Qed.

(** X2. A port that the process is started with, written in decimal in
    [DB_PORT], is the port of the configuration loaded, whatever the [.env]
    file says: for the numbers up to 2^53, which JavaScript holds exactly. *)
Theorem config_port_round_trip (processEnv dotenvFile : gmap string string) (n : N) :
  (n <= 9007199254740992)%N ->
  processEnv !! "DB_PORT" = Some (pretty n) ->
  Conf.port (Conf.db (Conf.load processEnv dotenvFile)) = Some (Z.of_N n).
Proof.
  intros _ H. unfold Conf.load, Conf.dotenv_config.
  cbn [Conf.config Conf.db Conf.port].
  rewrite (lookup_union_Some_l processEnv dotenvFile _ _ H).
  rewrite or_else_set by apply pretty_N_nonempty. apply parseInt_pretty.
Qed.

(** X2 on the port 6543, with a [.env] file that gives another. *)
Lemma config_port_round_trip_witness :
  Conf.port (Conf.db (Conf.load {[ "DB_PORT" := "6543" ]} {[ "DB_PORT" := "5433" ]}))
  = Some 6543.
Proof.
  apply (config_port_round_trip {[ "DB_PORT" := "6543" ]} {[ "DB_PORT" := "5433" ]} 6543%N);
    [lia | reflexivity].
Defined.

(** ** The clock of the client *)

(** X3. With a timer that fires on time, [enforceRateLimit] returns at the
    first instant that is [minRequestInterval] after the last recorded request,
    or at once when that instant is past; it records this instant as the time
    of the last request, and sets a timer only when it has to wait. *)
Theorem enforceRateLimit_exact (remote : Api.Remote) (s : Api.State) :
  Api.lastRequestTime s <= Api.now s ->
  Api.minRequestInterval s <= 2147483647 ->
  Api.timerLag remote (Api.timers s) = 0%N ->
  let s' := Api.enforceRateLimit remote s in
  Api.now s' = Z.max (Api.now s) (Api.lastRequestTime s + Api.minRequestInterval s) /\
  Api.lastRequestTime s' = Api.now s' /\
  Api.timers s' =
    (if Api.now s - Api.lastRequestTime s <? Api.minRequestInterval s
     then S (Api.timers s) else Api.timers s).
Proof.
  intros Hle Hmax Hlag. cbv zeta. unfold Api.enforceRateLimit.
  destruct (Z.ltb_spec (Api.now s - Api.lastRequestTime s) (Api.minRequestInterval s))
    as [Hwait | Hfree].
  - unfold Api.sleep. cbn. rewrite Hlag.
    rewrite Js_timer_delay_exact by lia. repeat split; lia.
  - cbn. repeat split; lia.
Qed.

(** Later states: the relation is a preorder, and every step of the client
    leads to a later state. *)
Lemma later_refl s : Api.later s s.
Proof.
  split; [lia |]. exists []. rewrite app_nil_r. split; [reflexivity | constructor].
Qed.

Lemma later_trans s s' s'' : Api.later s s' -> Api.later s' s'' -> Api.later s s''.
Proof.
  intros (Hn & a & Hc & Ha) (Hn' & a' & Hc' & Ha'). split; [lia |].
  exists (a ++ a'). rewrite Hc', Hc, app_assoc. split; [reflexivity |].
  apply Forall_app. split; [exact Ha |].
  eapply Forall_impl; [exact Ha' |]. simpl. intros c Hc0. lia.
Qed.

(** A step that makes no call and does not turn the clock back. *)
Lemma later_quiet s s' s'' :
  Api.later s s' -> Api.now s' <= Api.now s'' -> Api.calls s'' = Api.calls s' ->
  Api.later s s''.
Proof.
  intros H Hn Hc. eapply later_trans; [exact H |].
  split; [exact Hn |]. exists []. rewrite app_nil_r. split; [exact Hc | constructor].
Qed.

Lemma later_logged l t m s s' : Api.later s s' -> Api.later s (Api.logged l t m s').
Proof. intros H. eapply later_quiet; [exact H | |]; cbn; [lia | reflexivity]. Qed.

Lemma later_set_token t e s s' : Api.later s s' -> Api.later s (Api.set_token t e s').
Proof. intros H. eapply later_quiet; [exact H | |]; cbn; [lia | reflexivity]. Qed.

Lemma later_sleep remote ms s s' :
  Api.later s s' -> Api.later s (Api.sleep remote ms s').
Proof.
  intros H. eapply later_quiet; [exact H | |]; unfold Api.sleep; cbn; [| reflexivity].
  pose proof (Js_timer_delay_pos ms). lia.
Qed.

Lemma later_enforceRateLimit remote s s' :
  Api.later s s' -> Api.later s (Api.enforceRateLimit remote s').
Proof.
  intros H. destruct (enforceRateLimit_frame remote s') as (_ & _ & _ & _ & _ & Hc & _ & Hn).
  eapply later_quiet; [exact H | exact Hn | exact Hc].
Qed.

(** A call: it starts at the current time. *)
Lemma later_called v u a s s' : Api.later s s' -> Api.later s (Api.called v u a s').
Proof.
  intros H. eapply later_trans; [exact H |]. split; [cbn; lia |].
  eexists. split; [reflexivity |]. constructor; [cbn; lia | constructor].
Qed.

Lemma later_elapsed {B} (x : Api.Exchange B) s s' :
  Api.later s s' -> Api.later s (Api.tick (Z.of_N (Api.elapsed x)) s').
Proof. intros H. eapply later_quiet; [exact H | |]; cbn; [lia | reflexivity]. Qed.

Lemma later_answered_auth s s' : Api.later s s' -> Api.later s (Api.answered_auth s').
Proof. intros H. eapply later_quiet; [exact H | |]; cbn; [lia | reflexivity]. Qed.

Lemma later_answered_api rest s s' : Api.later s s' -> Api.later s (Api.answered_api rest s').
Proof. intros H. eapply later_quiet; [exact H | |]; cbn; [lia | reflexivity]. Qed.

Lemma later_finalFailure endpoint retryCount e s s' :
  Api.later s s' -> Api.later s (snd (Api.finalFailure endpoint retryCount e s')).
Proof. intros H. destruct retryCount; cbn; [apply later_logged |]; exact H. Qed.

Ltac later_steps :=
  repeat match goal with
         | H : Api.later ?s ?s' |- Api.later ?s ?s' => exact H
         | |- Api.later _ (Api.logged _ _ _ _) => apply later_logged
         | |- Api.later _ (Api.set_token _ _ _) => apply later_set_token
         | |- Api.later _ (Api.sleep _ _ _) => apply later_sleep
         | |- Api.later _ (Api.enforceRateLimit _ _) => apply later_enforceRateLimit
         | |- Api.later _ (Api.called _ _ _ _) => apply later_called
         | |- Api.later _ (Api.tick (Z.of_N (Api.elapsed _)) _) => apply later_elapsed
         | |- Api.later _ (Api.answered_auth _) => apply later_answered_auth
         | |- Api.later _ (Api.answered_api _ _) => apply later_answered_api
         | |- Api.later _ (snd (Api.finalFailure _ _ _ _)) => apply later_finalFailure
         end.

Section Later.

Variable cfg : Conf.Config.
Variable remote : Api.Remote.

Lemma later_getAccessToken s s' :
  Api.later s s' -> Api.later s (snd (Api.getAccessToken cfg remote s')).
Proof.
  intros H.
  destruct (Api.cached (Api.accessToken s') && (Api.now s' <? Api.tokenExpiry s')) eqn:E.
  - rewrite getAccessToken_hit by exact E. exact H.
  - rewrite getAccessToken_miss by exact E. cbv zeta.
    assert (He : Api.later s (Api.exchanged cfg remote s'))
      by (unfold Api.exchanged; later_steps).
    set (s1 := Api.exchanged cfg remote s') in *. clearbody s1.
    destruct (Api.settles _) as [r | | reason];
      [destruct (negb (Api.ok r)); [| destruct (Api.body r)] | |];
      rewrite ?authenticationFailed_state; cbn [snd]; later_steps.
Qed.

Lemma later_arrived endpoint options x rest token s s' :
  Api.later s s' ->
  Api.later s (Api.arrived cfg remote endpoint options x rest token s').
Proof. intros H. unfold Api.arrived. later_steps. Qed.

Lemma later_request_from server :
  forall endpoint options retryCount s s',
    Api.later s s' ->
    Api.later s (snd (Api.request_from cfg remote server endpoint options retryCount s')).
Proof.
  induction server as [| x rest IH]; intros endpoint options retryCount s s' H.
  - simpl. pose proof (later_getAccessToken s s' H) as Hg.
    destruct (Api.getAccessToken cfg remote s') as [[token | e |] s1]; cbn [snd] in *;
      later_steps.
  - rewrite request_from_cons. pose proof (later_getAccessToken s s' H) as Hg.
    destruct (Api.getAccessToken cfg remote s') as [[token | e |] s1]; cbn [snd] in *;
      [| later_steps ..].
    cbv zeta.
    pose proof (later_arrived endpoint options x rest token s s1 Hg) as H2.
    set (s2 := Api.arrived cfg remote endpoint options x rest token s1) in *. clearbody s2.
    destruct (Api.settles x) as [r | | reason];
      unfold Api.onResponse, Api.onAbort, Api.networkError;
      repeat match goal with
             | |- context [if ?b then _ else _] => destruct b
             | |- context [match Api.body ?r with _ => _ end] => destruct (Api.body r)
             end;
      cbn [snd]; try apply IH; later_steps.
Qed.

(** After a sleep, what the call goes on to do is done after the delay of
    the timer. *)
Lemma after_sleep ms w s2 s3 rest endpoint options retryCount :
  w <= Js.timer_delay ms ->
  Api.now s3 = Api.now s2 -> Api.calls s3 = Api.calls s2 ->
  let rs := Api.request_from cfg remote rest endpoint options retryCount
              (Api.sleep remote ms s3) in
  exists added,
    Api.calls (snd rs) = Api.calls s2 ++ added /\
    Forall (fun c => Api.now s2 + w <= Api.startedAt c) added.
Proof.
  intros Hw Hn Hc. cbv zeta.
  destruct (later_request_from rest endpoint options retryCount
              (Api.sleep remote ms s3) (Api.sleep remote ms s3) (later_refl _))
    as (_ & added & Hadded & Hall).
  exists added. split.
  - rewrite Hadded. unfold Api.sleep. cbn. rewrite Hc. reflexivity.
  - eapply Forall_impl; [exact Hall |]. intros c. unfold Api.sleep. cbn. rewrite Hn. lia.
Qed.

End Later.

(** A backoff within the range of the timers is waited for in full. *)
Lemma backoff_delay base retryCount :
  1 <= base -> base * 2 ^ Z.of_nat retryCount <= 2147483647 ->
  Js.timer_delay (Api.backoff base retryCount) = base * 2 ^ Z.of_nat retryCount.
Proof.
  intros Hb Hmax. unfold Api.backoff. apply Js_timer_delay_exact.
  assert (1 <= 2 ^ Z.of_nat retryCount) by (apply Z.pow_le_mono_r with (b := 0); lia).
  nia.
Qed.

(** X11. The waits before a retry are kept: once an attempt has been
    answered, at the time of the state [s2], every call the client goes on to
    make starts at least [1000 * 2^retryCount] ms later after a 5xx or a
    network error, [2000 * 2^retryCount] ms later after a 429 without a
    [retry-after] header, and as many seconds later as a [retry-after] header
    gives. *)
Theorem retry_waits_are_honoured
    (cfg : Conf.Config) (remote : Api.Remote)
    (x : Api.Exchange Value) (rest : list (Api.Exchange Value))
    (endpoint : string) (options : Api.RequestInit) (retryCount : nat)
    (s s1 : Api.State) (token : option string) :
  Api.getAccessToken cfg remote s = (Returned token, s1) ->
  let s2 := Api.arrived cfg remote endpoint options x rest token s1 in
  let rs := Api.request_from cfg remote (x :: rest) endpoint options retryCount s in
  let quiet (w : Z) :=
    exists added,
      Api.calls (snd rs) = Api.calls s2 ++ added /\
      Forall (fun c => Api.now s2 + w <= Api.startedAt c) added in
  (Api.server_error x ->
   Api.below retryCount (Conf.maxRetries (Conf.api cfg)) = true ->
   1000 * 2 ^ Z.of_nat retryCount <= 2147483647 ->
   quiet (1000 * 2 ^ Z.of_nat retryCount)) /\
  (forall reason,
     Api.settles x = Api.Fails reason ->
     Api.below retryCount (Conf.maxRetries (Conf.api cfg)) = true ->
     1000 * 2 ^ Z.of_nat retryCount <= 2147483647 ->
     quiet (1000 * 2 ^ Z.of_nat retryCount)) /\
  (forall r,
     Api.settles x = Api.Responds r -> Api.status r = 429 ->
     (Api.retryAfter r = None \/ Api.retryAfter r = Some "") ->
     2000 * 2 ^ Z.of_nat retryCount <= 2147483647 ->
     quiet (2000 * 2 ^ Z.of_nat retryCount)) /\
  (forall r header seconds,
     Api.settles x = Api.Responds r -> Api.status r = 429 ->
     Api.retryAfter r = Some header -> header <> "" ->
     Js.parseInt header = Some seconds ->
     1 <= seconds * 1000 <= 2147483647 ->
     quiet (seconds * 1000)).
Proof.
  intros Hg. cbv zeta. rewrite request_from_cons, Hg. cbv zeta.
  set (s2 := Api.arrived cfg remote endpoint options x rest token s1).
  split; [| split; [| split]].
  - intros (r & Hr & H500) Hb Hmax. rewrite Hr, onResponse_server_error by assumption.
    apply after_sleep; [rewrite backoff_delay by lia; lia | reflexivity | reflexivity].
  - intros reason Hr Hb Hmax. rewrite Hr. unfold Api.networkError. rewrite Hb.
    apply after_sleep; [rewrite backoff_delay by lia; lia | reflexivity | reflexivity].
  - intros r Hr H429 Hnone Hmax. rewrite Hr, onResponse_limited by assumption.
    apply after_sleep; [| reflexivity | reflexivity].
    assert (Hw : Api.rateLimitWait (Api.retryAfter r) retryCount = Api.backoff 2000 retryCount)
      by (destruct Hnone as [-> | ->]; reflexivity).
    rewrite Hw, backoff_delay by lia. lia.
  - intros r header seconds Hr H429 Hh Hne Hp Hrange.
    rewrite Hr, onResponse_limited by assumption.
    apply after_sleep; [| reflexivity | reflexivity].
    rewrite Hh. unfold Api.rateLimitWait.
    destruct (String.eqb_spec header ""); [contradiction |].
    rewrite Hp. cbn [fmap option_fmap option_map]. rewrite Js_timer_delay_exact by lia. lia.
Qed.

(** ** What a call takes from the server *)

(** X6. A call settles as soon as the server has one conclusive answer left
    for it (a response that is not a 429, a 5xx or a 401): whatever comes
    before that answer, retries included, it ends in a value or an error. *)
Theorem request_settles
    (cfg : Conf.Config) (remote : Api.Remote)
    (endpoint : string) (options : Api.RequestInit) (retryCount : nat) (s : Api.State) :
  (1 <= Api.conclusives (Api.apiServer s))%nat ->
  fst (Api.request cfg remote endpoint options retryCount s) <> Pending.
Proof.
  intros H. unfold Api.request.
  destruct (request_from_settles cfg remote (Api.apiServer s) endpoint options retryCount s
              eq_refl) as (Hsettles & _).
  exact (Hsettles H).
Qed.

(** X6 on the sample world: a 503 and a timeout are retried, the 404 that
    follows ends the call. *)
Lemma request_settles_witness :
  fst (Api.request Sample.cfg Sample.remote "/api/campaigns/campaign_1/sync"
         {| Api.method := "POST"; Api.payload := None |} 0
         (Sample.warm [Sample.unavailable; Sample.timedOut; Sample.notFound]))
  <> Pending.
Proof.
  apply (request_settles Sample.cfg Sample.remote). vm_compute. lia.
Defined.

Section Consumption.

Variable cfg : Conf.Config.
Variable remote : Api.Remote.

(** A retry that is not the answer to a 429 is made below the ceiling. *)
Lemma below_ceiling retryCount n :
  (n = Conf.maxRetries (Conf.api cfg) \/ n = 2) ->
  Api.below retryCount n = true -> (retryCount < Api.ceiling cfg)%nat.
Proof. unfold Api.below, Api.ceiling. intros [-> | ->] H; apply Z.ltb_lt in H; lia. Qed.

(** The 429s among the answers taken. *)
Lemma limited_cons x taken :
  length (filter (fun y => Api.rate_limited y = true) (x :: taken))
  = ((if Api.rate_limited x then 1 else 0)
     + length (filter (fun y => Api.rate_limited y = true) taken))%nat.
Proof.
  destruct (Api.rate_limited x) eqn:E.
  - rewrite filter_cons_True by exact E. reflexivity.
  - rewrite filter_cons_False by (rewrite E; discriminate). reflexivity.
Qed.

(** What a call takes from the server: the first answers to come, not more
    than the ceiling allows apart from the 429s, and the value it returns is
    the body of the last one. *)
Lemma request_from_consumes server :
  forall endpoint options retryCount s,
    Api.apiServer s = server ->
    let rs := Api.request_from cfg remote server endpoint options retryCount s in
    exists taken,
      server = taken ++ Api.apiServer (snd rs) /\
      (length taken
       <= 1 + (Api.ceiling cfg - retryCount)
          + length (filter (fun x => Api.rate_limited x = true) taken))%nat /\
      forall v, fst rs = Returned v ->
                exists before x, taken = before ++ [x] /\ Api.delivers v x.
Proof.
  induction server as [| x rest IH]; intros endpoint options retryCount s Hsrv; cbv zeta.
  - exists [].
    pose proof (getAccessToken_frame cfg remote s) as (_ & _ & Hs1 & _).
    simpl. destruct (Api.getAccessToken cfg remote s) as [[token | e |] s1]; cbn [fst snd] in *.
    + cbn. destruct (enforceRateLimit_frame remote s1) as (_ & _ & _ & Hs2 & _).
      cbv zeta in Hs2. rewrite Hs2, Hs1, Hsrv. repeat split; [lia | discriminate].
    + destruct (finalFailure_frame endpoint retryCount e s1) as (Hf & _ & Hs2 & _).
      cbv zeta in Hf, Hs2. rewrite Hs2, Hs1, Hsrv, Hf. repeat split; [simpl; lia | discriminate].
    + rewrite Hs1, Hsrv. repeat split; [simpl; lia | discriminate].
  - rewrite request_from_cons.
    pose proof (getAccessToken_frame cfg remote s) as (_ & _ & Hs1 & _).
    destruct (Api.getAccessToken cfg remote s) as [[token | e |] s1]; cbn [fst snd] in *.
    2: { exists []. destruct (finalFailure_frame endpoint retryCount e s1) as (Hf & _ & Hs2 & _).
         cbv zeta in Hf, Hs2. rewrite Hs2, Hs1, Hsrv, Hf.
         repeat split; [simpl; lia | discriminate]. }
    2: { exists []. cbn [fst snd]. rewrite Hs1, Hsrv. repeat split; [simpl; lia | discriminate]. }
    cbv zeta.
    destruct (arrived_frame cfg remote endpoint options x rest token s1) as (Ha & _).
    cbv zeta in Ha.
    set (s2 := Api.arrived cfg remote endpoint options x rest token s1) in *. clearbody s2.
    set (Q := fun rs : Outcome Value * Api.State =>
                exists taken,
                  x :: rest = taken ++ Api.apiServer (snd rs) /\
                  (length taken
                   <= 1 + (Api.ceiling cfg - retryCount)
                      + length (filter (fun y => Api.rate_limited y = true) taken))%nat /\
                  forall v, fst rs = Returned v ->
                            exists before y, taken = before ++ [y] /\ Api.delivers v y).
    assert (Hfinal : forall e s3,
               Api.apiServer s3 = rest -> Q (Api.finalFailure endpoint retryCount e s3)).
    { intros e s3 H3. exists [x].
      destruct (finalFailure_frame endpoint retryCount e s3) as (Hf & _ & Hsrv' & _).
      cbv zeta in Hf, Hsrv'. rewrite Hf, Hsrv', H3. rewrite limited_cons.
      repeat split; [simpl; lia | discriminate]. }
    assert (Hreturn : forall v s3,
               Api.delivers v x -> Api.apiServer s3 = rest -> Q (Returned v, s3)).
    { intros v s3 Hv H3. exists [x]. cbn [fst snd]. rewrite H3, limited_cons.
      repeat split; [simpl; lia |].
      intros v' Hv'. injection Hv' as <-. exists [], x. split; [reflexivity | exact Hv]. }
    assert (Hretry : forall s3,
               (retryCount < Api.ceiling cfg)%nat \/ Api.rate_limited x = true ->
               Api.apiServer s3 = rest ->
               Q (Api.request_from cfg remote rest endpoint options (S retryCount) s3)).
    { intros s3 Hwhy H3.
      destruct (IH endpoint options (S retryCount) s3 H3) as (taken & Ht & Hlen & Hv).
      exists (x :: taken). split; [rewrite Ht at 1; reflexivity |].
      split.
      - rewrite limited_cons. cbn [length].
        destruct Hwhy as [Hlt | ->]; [destruct (Api.rate_limited x) |]; lia.
      - intros v Hret. destruct (Hv v Hret) as (before & y & -> & Hy).
        exists (x :: before), y. split; [reflexivity | exact Hy]. }
    change (Q match Api.settles x with
              | Api.Responds r =>
                  Api.onResponse cfg remote
                    (Api.request_from cfg remote rest endpoint options (S retryCount))
                    endpoint retryCount r s2
              | Api.Aborts =>
                  Api.onAbort cfg
                    (Api.request_from cfg remote rest endpoint options (S retryCount))
                    endpoint retryCount s2
              | Api.Fails reason =>
                  Api.networkError cfg remote
                    (Api.request_from cfg remote rest endpoint options (S retryCount))
                    endpoint retryCount (Failure reason) s2
              end).
    clearbody Q.
    assert (Hnet : forall e s3,
               Api.apiServer s3 = rest ->
               Q (Api.networkError cfg remote
                    (Api.request_from cfg remote rest endpoint options (S retryCount))
                    endpoint retryCount e s3)).
    { intros e s3 H3. unfold Api.networkError.
      destruct (Api.below retryCount (Conf.maxRetries (Conf.api cfg))) eqn:Hb.
      - apply Hretry; [left; eapply below_ceiling; [left; reflexivity | exact Hb] |].
        rewrite apiServer_sleep, apiServer_logged. exact H3.
      - apply Hfinal, H3. }
    destruct (Api.settles x) as [r | | reason] eqn:Hsx.
    + unfold Api.onResponse.
      destruct (Api.status r =? 429) eqn:E429.
      { apply Hretry; [right; unfold Api.rate_limited; rewrite Hsx; exact E429 |].
        rewrite apiServer_sleep, apiServer_logged. exact Ha. }
      destruct ((500 <=? Api.status r)
                && Api.below retryCount (Conf.maxRetries (Conf.api cfg))) eqn:E500.
      { apply andb_true_iff in E500 as [_ Hb].
        apply Hretry; [left; eapply below_ceiling; [left; reflexivity | exact Hb] |].
        rewrite apiServer_sleep, apiServer_logged. exact Ha. }
      set (s3 := if Api.status r =? 401 then Api.set_token None 0 s2 else s2).
      assert (H3 : Api.apiServer s3 = rest)
        by (unfold s3; destruct (Api.status r =? 401); rewrite ?apiServer_set_token; exact Ha).
      clearbody s3.
      destruct ((Api.status r =? 401) && Api.below retryCount 2) eqn:E401.
      { apply andb_true_iff in E401 as [_ Hb].
        apply Hretry; [left; eapply below_ceiling; [right; reflexivity | exact Hb] |].
        rewrite apiServer_logged. exact H3. }
      destruct (Api.ok r) eqn:Hok; cbn [negb].
      * destruct (Api.body r) as [v |] eqn:Hbody.
        -- apply Hreturn; [exists r; auto | exact H3].
        -- apply Hnet, H3.
      * apply Hfinal, H3.
    + unfold Api.onAbort.
      destruct (Api.below retryCount (Conf.maxRetries (Conf.api cfg))) eqn:Hb.
      * apply Hretry; [left; eapply below_ceiling; [left; reflexivity | exact Hb] |].
        rewrite apiServer_logged. exact Ha.
      * apply Hfinal, Ha.
    + apply Hnet, Ha.
Qed.

End Consumption.

(** X7. The answers a call takes from the server are the first ones of those
    to come, and there are at most [1 + max(maxRetries, 2) - retryCount] of them
    apart from the 429s: only a 429 is retried without limit. *)
Theorem attempts_are_bounded
    (cfg : Conf.Config) (remote : Api.Remote)
    (endpoint : string) (options : Api.RequestInit) (retryCount : nat) (s : Api.State) :
  let rs := Api.request cfg remote endpoint options retryCount s in
  exists taken,
    Api.apiServer s = taken ++ Api.apiServer (snd rs) /\
    (length taken
     <= 1 + (Api.ceiling cfg - retryCount)
        + length (filter (fun x => Api.rate_limited x = true) taken))%nat.
Proof.
  cbv zeta. unfold Api.request.
  destruct (request_from_consumes cfg remote (Api.apiServer s) endpoint options retryCount s
              eq_refl) as (taken & H1 & H2 & _).
  exists taken. split; [exact H1 | exact H2].
Qed.

(** X8. What [request] returns is the parsed body of a 2xx response, and
    this response is the last answer it has taken from the server. *)
Theorem returned_value_is_a_response_body
    (cfg : Conf.Config) (remote : Api.Remote)
    (endpoint : string) (options : Api.RequestInit) (retryCount : nat) (s : Api.State)
    (v : Value) :
  let rs := Api.request cfg remote endpoint options retryCount s in
  fst rs = Returned v ->
  exists before x,
    Api.apiServer s = before ++ x :: Api.apiServer (snd rs) /\ Api.delivers v x.
Proof.
  cbv zeta. unfold Api.request. intros Hv.
  destruct (request_from_consumes cfg remote (Api.apiServer s) endpoint options retryCount s
              eq_refl) as (taken & H1 & _ & H3).
  destruct (H3 v Hv) as (before & x & -> & Hx).
  exists before, x. rewrite <- app_assoc in H1. split; [exact H1 | exact Hx].
Qed.

(** ** Calls that fail *)

(** Without a token the call ends with the error of [getAccessToken]. *)
Lemma request_from_unauthenticated cfg remote server endpoint options retryCount s e s1 :
  Api.getAccessToken cfg remote s = (Threw e, s1) ->
  Api.request_from cfg remote server endpoint options retryCount s
  = Api.finalFailure endpoint retryCount e s1.
Proof. intros H. destruct server; simpl; rewrite H; reflexivity. Qed.

(** The token exchange leaves the cache and the warnings alone. *)
Lemma exchanged_cache cfg remote s :
  Api.accessToken (Api.exchanged cfg remote s) = Api.accessToken s /\
  Api.tokenExpiry (Api.exchanged cfg remote s) = Api.tokenExpiry s /\
  warnings (Api.log (Api.exchanged cfg remote s)) = warnings (Api.log s).
Proof.
  unfold Api.exchanged.
  destruct (enforceRateLimit_frame remote
              (Api.logged INFO "Authenticating with Ad Platform API..." NoMeta s))
    as (Ht & He & _ & _ & _ & _ & Hw & _).
  cbv zeta in Ht, He, Hw. cbn [Api.logged Api.log] in Hw. rewrite warnings_info in Hw.
  cbn [Api.answered_auth Api.tick Api.called Api.accessToken Api.tokenExpiry Api.log].
  rewrite Ht, He, Hw. repeat split.
Qed.

(** A token exchange that fails: [getAccessToken] throws, and the error
    tells how it failed. *)
Lemma getAccessToken_fails cfg remote s :
  Api.cached (Api.accessToken s) && (Api.now s <? Api.tokenExpiry s) = false ->
  Api.authenticates (Api.authServer remote (Api.authExchanges s)) = false ->
  exists e,
    Api.getAccessToken cfg remote s
    = (Threw e,
       Api.logged ERROR "Authentication failed" (MetaValue (Obj [("error", Str (message e))]))
         (Api.exchanged cfg remote s)) /\
    match Api.settles (Api.authServer remote (Api.authExchanges s)) with
    | Api.Responds r =>
        if Api.ok r then e = Failure "invalid json response body"
        else e = ApiError ("Auth failed: " +:+ Api.statusText r) (Some (Api.status r))
    | Api.Aborts => e = AbortError
    | Api.Fails reason => e = Failure reason
    end.
Proof.
  intros Hmiss Hauth. rewrite getAccessToken_miss by exact Hmiss. cbv zeta.
  unfold Api.authenticates in Hauth.
  destruct (Api.settles _) as [r | | reason].
  - destruct (Api.ok r); cbn [negb andb] in *.
    + destruct (Api.body r); [discriminate |]. eexists. split; reflexivity.
    + eexists. split; reflexivity.
  - eexists. split; reflexivity.
  - eexists. split; reflexivity.
Qed.

(** X5. When no token is cached and the token exchange fails (a status
    other than 2xx, a body that does not parse, a timeout, a network error),
    [request] throws the error of [getAccessToken] without asking the API
    anything: the one call made is the token exchange, which is not retried;
    no answer of the API is taken, the cache is left as it was and no retry
    warning is logged. *)
Theorem failed_authentication_fails_the_call
    (cfg : Conf.Config) (remote : Api.Remote)
    (endpoint : string) (options : Api.RequestInit) (retryCount : nat) (s : Api.State) :
  Api.cached (Api.accessToken s) && (Api.now s <? Api.tokenExpiry s) = false ->
  Api.authenticates (Api.authServer remote (Api.authExchanges s)) = false ->
  let rs := Api.request cfg remote endpoint options retryCount s in
  (exists e, fst rs = Threw e /\ fst (Api.getAccessToken cfg remote s) = Threw e) /\
  Api.apiServer (snd rs) = Api.apiServer s /\
  Api.authExchanges (snd rs) = S (Api.authExchanges s) /\
  Api.accessToken (snd rs) = Api.accessToken s /\
  Api.tokenExpiry (snd rs) = Api.tokenExpiry s /\
  (exists c, Api.calls (snd rs) = Api.calls s ++ [c] /\
             Api.url c = Conf.baseUrl (Conf.api cfg) +:+ "/auth/token") /\
  Api.retryWarnings (snd rs) = Api.retryWarnings s.
Proof.
  intros Hmiss Hauth. cbv zeta. unfold Api.request.
  destruct (getAccessToken_fails cfg remote s Hmiss Hauth) as (e & Hg & _).
  rewrite (request_from_unauthenticated _ _ _ _ _ _ _ _ _ Hg), Hg.
  destruct (exchanged_frame cfg remote s) as (Hn & (c & Hc & _ & Hurl) & Hsrv & _).
  destruct (exchanged_cache cfg remote s) as (Ht & He & Hw).
  set (s0 := Api.exchanged cfg remote s) in *. clearbody s0.
  destruct (finalFailure_frame endpoint retryCount e
              (Api.logged ERROR "Authentication failed"
                 (MetaValue (Obj [("error", Str (message e))])) s0))
    as (Hf & _ & Hsrv' & Htok & Hexp & Hn' & Hc' & Hw').
  cbv zeta in Hf, Hsrv', Htok, Hexp, Hn', Hc', Hw'.
  rewrite Hf, Hsrv', Htok, Hexp, Hn', Hc'.
  unfold Api.retryWarnings. rewrite Hw'.
  destruct (logged_fields ERROR "Authentication failed"
              (MetaValue (Obj [("error", Str (message e))])) s0)
    as (Lt & Le & _ & Ls & Ln & Lc).
  rewrite Lt, Le, Ls, Ln, Lc. cbn [Api.logged Api.log]. rewrite warnings_error.
  rewrite Hsrv, Hn, Ht, He, Hw, Hc.
  split; [eauto |]. repeat split. eauto.
Qed.

(** X9. A response that is not a 2xx, a 429, a 5xx or a 401 (a 404, a 400,
    a 403, a redirect) ends the call at once, at any attempt: [request] throws
    [ApiError('API Error: <status> <statusText>', status)], has taken this one
    answer, and has logged no retry warning. *)
Theorem refused_call_is_not_retried
    (cfg : Conf.Config) (remote : Api.Remote)
    (x : Api.Exchange Value) (rest : list (Api.Exchange Value))
    (endpoint : string) (options : Api.RequestInit) (retryCount : nat) (s : Api.State)
    (r : Api.Response Value) (token : option string) :
  fst (Api.getAccessToken cfg remote s) = Returned token ->
  Api.apiServer s = x :: rest ->
  Api.settles x = Api.Responds r ->
  Api.refused x = true ->
  let rs := Api.request cfg remote endpoint options retryCount s in
  fst rs = Threw (ApiError ("API Error: " +:+ pretty (Api.status r) +:+ " " +:+ Api.statusText r)
                           (Some (Api.status r))) /\
  Api.apiServer (snd rs) = rest /\
  Api.retryWarnings (snd rs) = Api.retryWarnings s.
Proof.
  intros Hg Hsrv Hr Href. cbv zeta. unfold Api.request. rewrite Hsrv.
  exact (request_from_refused cfg remote x rest endpoint options retryCount s r token
           Hg Hr Href).
Qed.

(** ** The line [Final failure] *)

Section FinalFailure.

Variable cfg : Conf.Config.
Variable remote : Api.Remote.

(** The lines that are not a final failure leave the final failures alone. *)
Lemma finalFailures_logged l t m s :
  (l = ERROR -> String.prefix "Final failure for " t = false) ->
  Api.finalFailures (Api.logged l t m s) = Api.finalFailures s.
Proof.
  intros H. unfold Api.finalFailures, errors. cbn [Api.logged Api.log].
  rewrite filter_app.
  destruct l.
  1,2,4: rewrite (filter_cons_False _ _ []) by discriminate; rewrite filter_nil, app_nil_r;
         reflexivity.
  rewrite (filter_cons_True _ _ []) by reflexivity. rewrite filter_nil, filter_app.
  rewrite (filter_cons_False _ _ []) by (cbn [text]; rewrite H by reflexivity; discriminate).
  rewrite filter_nil, !app_nil_r. reflexivity.
Qed.

Lemma final_failure_prefix t :
  String.prefix "Final failure for " ("Final failure for " +:+ t) = true.
Proof. cbn. destruct t; reflexivity. Qed.

Lemma finalFailures_same s s' :
  Api.log s' = Api.log s -> Api.finalFailures s' = Api.finalFailures s.
Proof. intros H. unfold Api.finalFailures. rewrite H. reflexivity. Qed.

Lemma finalFailures_enforceRateLimit s :
  Api.finalFailures (Api.enforceRateLimit remote s) = Api.finalFailures s.
Proof.
  unfold Api.enforceRateLimit. destruct (_ <? _).
  - rewrite (finalFailures_same (Api.logged DEBUG _ NoMeta s)) by reflexivity.
    apply finalFailures_logged. discriminate.
  - reflexivity.
Qed.

Lemma finalFailures_exchanged s :
  Api.finalFailures (Api.exchanged cfg remote s) = Api.finalFailures s.
Proof.
  unfold Api.exchanged.
  rewrite (finalFailures_same
             (Api.enforceRateLimit remote
                (Api.logged INFO "Authenticating with Ad Platform API..." NoMeta s)))
    by reflexivity.
  rewrite finalFailures_enforceRateLimit. apply finalFailures_logged. discriminate.
Qed.

Lemma finalFailures_getAccessToken s :
  Api.finalFailures (snd (Api.getAccessToken cfg remote s)) = Api.finalFailures s.
Proof.
  destruct (Api.cached (Api.accessToken s) && (Api.now s <? Api.tokenExpiry s)) eqn:E.
  - rewrite getAccessToken_hit by exact E. reflexivity.
  - rewrite getAccessToken_miss by exact E. cbv zeta.
    pose proof (finalFailures_exchanged s) as He.
    set (s1 := Api.exchanged cfg remote s) in *. clearbody s1.
    destruct (Api.settles _) as [r | | reason];
      [destruct (negb (Api.ok r)); [| destruct (Api.body r)] | |];
      rewrite ?authenticationFailed_state; cbn [snd];
      rewrite finalFailures_logged by (intros _; reflexivity || discriminate);
      rewrite ?(finalFailures_same s1 (Api.set_token _ _ s1)) by reflexivity; exact He.
Qed.

Lemma finalFailures_arrived endpoint options x rest token s :
  Api.finalFailures (Api.arrived cfg remote endpoint options x rest token s)
  = Api.finalFailures s.
Proof.
  unfold Api.arrived.
  rewrite (finalFailures_same
             (Api.logged DEBUG ("Requesting " +:+ endpoint) NoMeta
                (Api.enforceRateLimit remote s))) by reflexivity.
  rewrite finalFailures_logged by discriminate. apply finalFailures_enforceRateLimit.
Qed.

Lemma finalFailures_retry ms t m s :
  Api.finalFailures (Api.sleep remote ms (Api.logged WARN t m s)) = Api.finalFailures s.
Proof.
  rewrite (finalFailures_same (Api.logged WARN t m s)) by reflexivity.
  apply finalFailures_logged. discriminate.
Qed.

(** A retry never writes the line, whatever it ends in. *)
Lemma finalFailures_request_from server :
  forall endpoint options retryCount s,
    Api.finalFailures (snd (Api.request_from cfg remote server endpoint options (S retryCount) s))
    = Api.finalFailures s.
Proof.
  induction server as [| x rest IH]; intros endpoint options retryCount s.
  - simpl. pose proof (finalFailures_getAccessToken s) as Hg.
    destruct (Api.getAccessToken cfg remote s) as [[token | e |] s1]; cbn [snd] in *;
      [| exact Hg | exact Hg].
    rewrite finalFailures_logged by discriminate.
    rewrite finalFailures_enforceRateLimit. exact Hg.
  - rewrite request_from_cons. pose proof (finalFailures_getAccessToken s) as Hg.
    destruct (Api.getAccessToken cfg remote s) as [[token | e |] s1]; cbn [snd] in *;
      [| exact Hg | exact Hg].
    cbv zeta.
    pose proof (finalFailures_arrived endpoint options x rest token s1) as Ha.
    rewrite Hg in Ha.
    set (s2 := Api.arrived cfg remote endpoint options x rest token s1) in *. clearbody s2.
    destruct (Api.settles x) as [r | | reason];
      unfold Api.onResponse, Api.onAbort, Api.networkError;
      repeat match goal with
             | |- context [if ?b then _ else _] => destruct b
             | |- context [match Api.body ?r with _ => _ end] => destruct (Api.body r)
             end;
      cbn [snd Api.finalFailure];
      rewrite ?IH, ?finalFailures_retry;
      rewrite ?finalFailures_logged by discriminate;
      rewrite ?(finalFailures_same s2 (Api.set_token None 0 s2)) by reflexivity;
      exact Ha.
Qed.

End FinalFailure.

(** X15. The line [Final failure for <endpoint>] is written by the attempt
    that throws, when this attempt is the first: a call that is already a
    retry never writes it; so a first attempt that is answered by a 5xx and
    retried leaves the log without it whatever the call ends in, while a
    response that is refused at the first attempt adds exactly this line. *)
Theorem final_failure_line_is_for_first_attempts
    (cfg : Conf.Config) (remote : Api.Remote)
    (endpoint : string) (options : Api.RequestInit) (s : Api.State) :
  (forall retryCount,
     (1 <= retryCount)%nat ->
     Api.finalFailures (snd (Api.request cfg remote endpoint options retryCount s))
     = Api.finalFailures s) /\
  (forall x rest token,
     fst (Api.getAccessToken cfg remote s) = Returned token ->
     Api.apiServer s = x :: rest ->
     Api.server_error x ->
     Api.below 0 (Conf.maxRetries (Conf.api cfg)) = true ->
     Api.finalFailures (snd (Api.request cfg remote endpoint options 0 s))
     = Api.finalFailures s) /\
  (forall x rest token r,
     fst (Api.getAccessToken cfg remote s) = Returned token ->
     Api.apiServer s = x :: rest ->
     Api.settles x = Api.Responds r ->
     Api.refused x = true ->
     Api.finalFailures (snd (Api.request cfg remote endpoint options 0 s))
     = Api.finalFailures s
       ++ [{| level := ERROR;
              text := "Final failure for " +:+ endpoint +:+ ": API Error: "
                      +:+ pretty (Api.status r) +:+ " " +:+ Api.statusText r;
              meta := NoMeta |}]).
Proof.
  split; [| split].
  - intros [| retryCount] Hk; [lia |]. apply finalFailures_request_from.
  - intros x rest token Hg Hsrv (r & Hr & H500) Hb.
    unfold Api.request. rewrite Hsrv, request_from_cons.
    pose proof (finalFailures_getAccessToken cfg remote s) as Hff.
    destruct (Api.getAccessToken cfg remote s) as [o s1]. cbn [fst snd] in *. subst o.
    cbv zeta. rewrite Hr, onResponse_server_error by assumption.
    rewrite finalFailures_request_from, finalFailures_retry, finalFailures_arrived.
    exact Hff.
  - intros x rest token r Hg Hsrv Hr Href.
    unfold Api.request. rewrite Hsrv, request_from_cons.
    pose proof (finalFailures_getAccessToken cfg remote s) as Hff.
    destruct (Api.getAccessToken cfg remote s) as [o s1]. cbn [fst snd] in *. subst o.
    cbv zeta. rewrite Hr. unfold Api.refused in Href. rewrite Hr in Href.
    apply andb_true_iff in Href as [Href H401]. apply andb_true_iff in Href as [Href H500].
    apply andb_true_iff in Href as [Hok H429].
    apply negb_true_iff in Hok, H429, H500, H401.
    unfold Api.onResponse. rewrite H429, H500, H401, Hok. cbn [andb negb snd Api.finalFailure].
    pose proof (finalFailures_arrived cfg remote endpoint options x rest token s1) as Ha.
    set (s2 := Api.arrived cfg remote endpoint options x rest token s1) in *. clearbody s2.
    unfold Api.finalFailures, errors in *. cbn [Api.logged Api.log message].
    rewrite filter_app, (filter_cons_True _ _ []) by reflexivity.
    rewrite filter_nil, filter_app, (filter_cons_True _ _ []) by apply final_failure_prefix.
    rewrite filter_nil, Ha, Hff. reflexivity.
Qed.

(** ** A timeout is retried at once *)

Section Immediate.

Variable cfg : Conf.Config.
Variable remote : Api.Remote.

(** What the state shows once an attempt has been answered. *)
Lemma arrived_clock endpoint options x rest token s :
  let s0 := Api.enforceRateLimit remote s in
  let s2 := Api.arrived cfg remote endpoint options x rest token s in
  Api.now s2 = Api.now s0 + Z.of_N (Api.elapsed x) /\
  Api.lastRequestTime s2 = Api.now s0 /\
  Api.timers s2 = Api.timers s0 /\
  Api.calls s2
  = Api.calls s ++ [{| Api.startedAt := Api.now s0; Api.verb := Api.method options;
                       Api.url := Conf.baseUrl (Conf.api cfg) +:+ endpoint;
                       Api.authorization := "Bearer " +:+ default "undefined" token |}].
Proof.
  cbv zeta. unfold Api.arrived.
  destruct (enforceRateLimit_frame remote s) as (_ & _ & _ & _ & _ & Hc & _).
  cbv zeta in Hc. cbn. rewrite Hc. repeat split.
Qed.

(** The rate limiter lets a call through at once when the interval has passed. *)
Lemma enforceRateLimit_free s :
  Api.minRequestInterval s <= Api.now s - Api.lastRequestTime s ->
  Api.enforceRateLimit remote s = Api.set_lastRequestTime (Api.now s) s.
Proof.
  intros H. unfold Api.enforceRateLimit.
  destruct (Z.ltb_spec (Api.now s - Api.lastRequestTime s) (Api.minRequestInterval s));
    [lia | reflexivity].
Qed.

(** X12. After a timeout the next attempt starts at once. With a token that
    stays valid, and a timeout that took at least [minRequestInterval] (so
    that the rate limiter has nothing to add), the call that follows the one
    that timed out starts at the very instant the timeout is observed. *)
Theorem timeout_retry_is_immediate
    (x y : Api.Exchange Value) (rest : list (Api.Exchange Value))
    (endpoint : string) (options : Api.RequestInit) (retryCount : nat) (s : Api.State) :
  let s2 := Api.arrived cfg remote endpoint options x (y :: rest) (Api.accessToken s) s in
  Api.cached (Api.accessToken s) = true ->
  Api.now s2 < Api.tokenExpiry s ->
  Api.settles x = Api.Aborts ->
  Api.below retryCount (Conf.maxRetries (Conf.api cfg)) = true ->
  Api.minRequestInterval s <= Z.of_N (Api.elapsed x) ->
  let rs := Api.request_from cfg remote (x :: y :: rest) endpoint options retryCount s in
  exists c1 c2 added,
    Api.calls (snd rs) = Api.calls s ++ c1 :: c2 :: added /\
    Api.startedAt c2 = Api.startedAt c1 + Z.of_N (Api.elapsed x) /\
    Api.startedAt c2 = Api.now s2.
Proof.
  intros s2 Hc Hexp Hx Hb Hmin rs. subst rs.
  destruct (arrived_clock endpoint options x (y :: rest) (Api.accessToken s) s)
    as (Hnow & Hlast & _ & Hcalls).
  destruct (arrived_frame cfg remote endpoint options x (y :: rest) (Api.accessToken s) s)
    as (_ & Htok & Hexp' & _ & Hmin' & _).
  cbv zeta in *. fold s2 in Hnow, Hlast, Hcalls, Htok, Hexp', Hmin'.
  assert (Hle : Api.now s <= Api.now (Api.enforceRateLimit remote s))
    by apply enforceRateLimit_frame.
  rewrite request_from_cons, getAccessToken_hit
    by (rewrite Hc; apply Z.ltb_lt; lia).
  cbv zeta. fold s2. rewrite Hx. unfold Api.onAbort. rewrite Hb.
  set (s3 := Api.logged WARN "Request timed out. Retrying..." NoMeta s2).
  rewrite request_from_cons, getAccessToken_hit
    by (cbn [s3 Api.logged Api.accessToken Api.now Api.tokenExpiry];
        rewrite Htok, Hexp', Hc; apply Z.ltb_lt; exact Hexp).
  cbv zeta.
  destruct (arrived_clock endpoint options y rest (Api.accessToken s3) s3)
    as (_ & _ & _ & Hcalls3).
  cbv zeta in Hcalls3.
  rewrite enforceRateLimit_free in Hcalls3
    by (cbn [s3 Api.logged Api.minRequestInterval Api.now Api.lastRequestTime];
        rewrite Hmin', Hnow, Hlast; lia).
  cbn [s3 Api.logged Api.set_lastRequestTime Api.now Api.calls] in Hcalls3.
  set (s4 := Api.arrived cfg remote endpoint options y rest (Api.accessToken s3) s3) in *.
  assert (Hlater : forall rs' : Outcome Value * Api.State,
             Api.later s4 (snd rs') ->
             exists c1 c2 added,
               Api.calls (snd rs') = Api.calls s ++ c1 :: c2 :: added /\
               Api.startedAt c2 = Api.startedAt c1 + Z.of_N (Api.elapsed x) /\
               Api.startedAt c2 = Api.now s2).
  { intros rs' (_ & added & Hadded & _). 
    eexists _, _, added. rewrite Hadded, Hcalls3, Hcalls, <- !app_assoc.
    split; [reflexivity |]. cbn [Api.startedAt]. split; [lia | reflexivity]. }
  clearbody s4. apply Hlater.
  destruct (Api.settles y) as [r | | reason];
    unfold Api.onResponse, Api.onAbort, Api.networkError;
    repeat match goal with
           | |- context [if ?b then _ else _] => destruct b
           | |- context [match Api.body ?r with _ => _ end] => destruct (Api.body r)
           end;
    cbn [snd]; try apply later_request_from; later_steps; apply later_refl.
Qed.

End Immediate.

(** ** Pages that go wrong *)

Section Pagination.

Variable cfg : Conf.Config.
Variable remote : Api.Remote.
Hypothesis token_service : forall j, Api.authenticates (Api.authServer remote j) = true.

(** The pages that say that more is to come are read one after the other. *)
Lemma fetchPages_prefix xs pages :
  Forall2 (fun x records => Sync.serves records true x) xs pages ->
  forall rest fuel allCampaigns (k : nat) s,
    Api.apiServer (Db.client s) = xs ++ rest ->
    exists s',
      Sync.fetchPages cfg remote (length xs + fuel) allCampaigns (Z.of_nat k) s
      = Sync.fetchPages cfg remote fuel (allCampaigns ++ List.concat pages)
          (Z.of_nat (k + length xs)) s' /\
      Api.apiServer (Db.client s') = rest /\
      Api.fetched (Db.client s')
      = Api.fetched (Db.client s) ++ (Sync.page_url cfg <$> seq k (length xs)) /\
      Db.pool s' = Db.pool s /\ Db.queries s' = Db.queries s.
Proof.
  induction 1 as [| x records xs pages (v & Hv & Hpage) _ IH];
    intros rest fuel allCampaigns k s Hsrv.
  - exists s. simpl. rewrite !app_nil_r, Nat.add_0_r. auto.
  - set (s0 := Db.logged INFO ("Fetching campaigns page " +:+ pretty (Z.of_nat k) +:+ "...")
                 NoMeta s).
    destruct (getCampaigns_page cfg remote token_service x v (xs ++ rest) k s0 Hv Hsrv)
      as (s1 & Hget & Hleft & Hfetched).
    destruct (on_api_database (Api.getCampaigns cfg remote (Z.of_nat k) 10) s0) as (Hp & Hq).
    rewrite Hget in Hp, Hq. cbn [snd] in Hp, Hq.
    cbn [length Nat.add].
    rewrite (fetchPages_page cfg remote _ allCampaigns _ s s1 v records true Hget Hpage).
    replace (Z.of_nat k + 1) with (Z.of_nat (S k)) by lia.
    destruct (IH rest fuel (allCampaigns ++ records) (S k) s1 Hleft)
      as (s' & Hrun & Hrest & Hf & Hp' & Hq').
    exists s'. split; [| split; [| split; [| split]]].
    + rewrite Hrun. cbn [List.concat length]. rewrite <- app_assoc.
      replace (k + S (length xs))%nat with (S k + length xs)%nat by lia. reflexivity.
    + exact Hrest.
    + rewrite Hf, Hfetched. simpl. rewrite <- app_assoc. reflexivity.
    + rewrite Hp', Hp. reflexivity.
    + rewrite Hq', Hq. reflexivity.
Qed.

(** A body without records ends the loop with a warning. *)
Lemma fetchPages_malformed fuel allCampaigns page s s1 v :
  Sync.on_api (Api.getCampaigns cfg remote page 10)
    (Db.logged INFO ("Fetching campaigns page " +:+ pretty page +:+ "...") NoMeta s)
  = (Returned v, s1) ->
  truthy v && truthy (get "data" v) = false ->
  Sync.fetchPages cfg remote (S fuel) allCampaigns page s =
    (Returned allCampaigns,
     Db.logged WARN "Unexpected response format from API"
               (MetaValue (Obj [("response", v)])) s1).
Proof.
  intros Hget Hdata. cbn [Sync.fetchPages]. rewrite Hget.
  destruct (truthy v) eqn:Hv; cbn [andb] in Hdata.
  - assert (Hprop : prop "data" v = Returned (get "data" v))
      by (unfold get; destruct v; try discriminate; reflexivity).
    rewrite Hprop. cbn [reading]. rewrite Hdata. reflexivity.
  - cbn [reading]. rewrite Hv. reflexivity.
Qed.

(** A page that cannot be fetched makes the loop throw. *)
Lemma fetchPages_throws fuel allCampaigns page s s1 e :
  Sync.on_api (Api.getCampaigns cfg remote page 10)
    (Db.logged INFO ("Fetching campaigns page " +:+ pretty page +:+ "...") NoMeta s)
  = (Threw e, s1) ->
  Sync.fetchPages cfg remote (S fuel) allCampaigns page s = (Threw e, s1).
Proof. intros Hget. cbn [Sync.fetchPages]. rewrite Hget. reflexivity. Qed.

End Pagination.

(** X17. After any number of pages that say that more is to come, an answer
    without records (a falsy body, or a body whose [data] is missing or falsy)
    ends the pagination: [fetchAllCampaigns] returns the records of the pages
    read so far, has asked for each page once, and the last line of the log is
    the warning about the response format. *)
Theorem malformed_page_ends_pagination
    (cfg : Conf.Config) (remote : Api.Remote)
    (xs : list (Api.Exchange Value)) (pages : list (list Value))
    (x : Api.Exchange Value) (v : Value)
    (rest : list (Api.Exchange Value)) (s : Db.State) :
  (forall j, Api.authenticates (Api.authServer remote j) = true) ->
  Forall2 (fun x records => Sync.serves records true x) xs pages ->
  Api.delivers v x ->
  truthy v && truthy (get "data" v) = false ->
  Api.apiServer (Db.client s) = xs ++ x :: rest ->
  exists s',
    Sync.fetchAllCampaigns cfg remote s = (Returned (List.concat pages), s') /\
    Api.apiServer (Db.client s') = rest /\
    Api.fetched (Db.client s')
    = Api.fetched (Db.client s) ++ (Sync.page_url cfg <$> seq 1 (S (length pages))) /\
    List.last (Sync.journal s') {| level := INFO; text := ""; meta := NoMeta |}
    = {| level := WARN; text := "Unexpected response format from API";
         meta := MetaValue (Obj [("response", v)]) |}.
Proof.
  intros Hauth Hpages Hx Hdata Hsrv. unfold Sync.fetchAllCampaigns.
  rewrite Hsrv, length_app. cbn [length].
  replace (S (length xs + S (length rest))) with (length xs + S (S (length rest)))%nat by lia.
  destruct (fetchPages_prefix cfg remote Hauth xs pages Hpages (x :: rest)
              (S (S (length rest))) [] 1%nat s Hsrv) as (s1 & Hrun & Hleft & Hf & _).
  change (Z.of_nat 1) with 1 in Hrun. rewrite Hrun. cbn [app].
  destruct (getCampaigns_page cfg remote Hauth x v rest (1 + length xs)
              (Db.logged INFO ("Fetching campaigns page "
                               +:+ pretty (Z.of_nat (1 + length xs)) +:+ "...") NoMeta s1)
              Hx Hleft) as (s2 & Hget & Hleft2 & Hf2).
  rewrite (fetchPages_malformed cfg remote _ _ _ s1 s2 v Hget Hdata).
  eexists. split; [reflexivity |]. split; [exact Hleft2 |]. split.
  - cbn [Db.logged Db.on_client Db.client Api.logged Api.fetched Api.calls] in *.
    unfold Api.fetched in *. cbn [Api.logged Api.calls] in *.
    rewrite Hf2, Hf, <- app_assoc. f_equal.
    rewrite (Forall2_length _ _ _ Hpages).
    replace (S (length pages)) with (length pages + 1)%nat by lia.
    rewrite seq_app, fmap_app. reflexivity.
  - unfold Sync.journal. cbn [Db.logged Db.on_client Db.client Api.logged Api.log].
    apply last_last.
Qed.

(** ** The database side of a run *)

Ltac db_settle :=
  cbn [fst snd Db.logged Db.on_client Db.queried Db.pool Db.queries];
  rewrite ?length_app; cbn [length];
  repeat split; try lia; try discriminate; auto.

Section Store.

Variable cfg : Conf.Config.
Variable remote : Api.Remote.
Variable pg : Db.Postgres.

(** What [upsertCampaign] does to the database: it keeps the pool, issues at
    most one statement, none in mock mode, and exactly one when it returns
    with a real database. *)
Lemma upsertCampaign_database campaign s :
  let rs := Db.upsertCampaign cfg pg campaign s in
  Db.pool (snd rs) = Db.pool s /\
  (length (Db.queries s) <= length (Db.queries (snd rs)) <= S (length (Db.queries s)))%nat /\
  (Conf.useMock (Conf.db cfg) = true -> Db.queries (snd rs) = Db.queries s) /\
  (Conf.useMock (Conf.db cfg) = false -> fst rs = Returned tt ->
   length (Db.queries (snd rs)) = S (length (Db.queries s))).
Proof.
  cbv zeta. unfold Db.upsertCampaign. destruct (Conf.useMock (Conf.db cfg)).
  - destruct (prop "id" campaign); cbn [reading]; [| db_settle ..].
    destruct (prop "name" campaign); cbn [reading]; db_settle.
  - destruct (negb (Db.pool s)); [db_settle |].
    destruct (Db.props _ campaign); [| db_settle ..].
    destruct (Db.queryError pg _); db_settle.
Qed.

(** The same for the processing of one record, ... *)
Lemma syncOne_database campaign name s :
  let rs := Sync.syncOne cfg remote pg campaign name s in
  Db.pool (snd rs) = Db.pool s /\
  (length (Db.queries s) <= length (Db.queries (snd rs)) <= S (length (Db.queries s)))%nat /\
  (Conf.useMock (Conf.db cfg) = true -> Db.queries (snd rs) = Db.queries s) /\
  (Conf.useMock (Conf.db cfg) = false -> fst rs = Returned tt ->
   length (Db.queries (snd rs)) = S (length (Db.queries s))).
Proof.
  cbv zeta. unfold Sync.syncOne.
  destruct (prop "id" campaign) as [id | e |]; cbn [reading]; [| db_settle ..].
  destruct (on_api_database (Api.syncCampaign cfg remote id) s) as (Hp & Hq).
  destruct (Sync.on_api (Api.syncCampaign cfg remote id) s) as [[v | e |] s1];
    cbn [fst snd] in *; [| rewrite Hp, Hq; db_settle ..].
  destruct (upsertCampaign_database campaign s1) as (Hp' & Hq' & Hmock & Hreal).
  cbv zeta in *. rewrite Hq in Hq', Hmock, Hreal. rewrite Hp in Hp'.
  destruct (Db.upsertCampaign cfg pg campaign s1) as [[[] | e |] s2]; cbn [fst snd] in *;
    db_settle.
Qed.

(** ... for the loop over the records, where the successes counted are
    among the statements issued, ... *)
Lemma syncEach_database campaigns :
  forall total i successCount failureCount s,
    let rs := Sync.syncEach cfg remote pg campaigns total i successCount failureCount s in
    Db.pool (snd rs) = Db.pool s /\
    (length (Db.queries s) <= length (Db.queries (snd rs))
     <= length (Db.queries s) + length campaigns)%nat /\
    (Conf.useMock (Conf.db cfg) = true -> Db.queries (snd rs) = Db.queries s) /\
    (Conf.useMock (Conf.db cfg) = false ->
     forall successCount' failureCount',
       fst rs = Returned (successCount', failureCount') ->
       (successCount' + length (Db.queries s)
        <= successCount + length (Db.queries (snd rs)))%nat).
Proof.
  induction campaigns as [| campaign rest IH];
    intros total i successCount failureCount s; cbv zeta.
  - simpl. repeat split; try lia. intros _ sc fc H. injection H as <- <-. lia.
  - cbn [Sync.syncEach length].
    destruct (prop "name" campaign) as [name | e |]; cbn [reading]; [| db_settle ..].
    destruct (prop "id" campaign) as [id | e |]; cbn [reading]; [| db_settle ..].
    set (s0 := Db.logged INFO _ NoMeta s).
    destruct (syncOne_database campaign name s0) as (Hp & Hq & Hmock & Hreal).
    cbv zeta in *.
    change (Db.pool s0) with (Db.pool s) in Hp.
    change (Db.queries s0) with (Db.queries s) in Hq, Hmock, Hreal.
    destruct (Sync.syncOne cfg remote pg campaign name s0) as [[[] | e |] s1];
      cbn [fst snd] in *.
    + destruct (IH total (S i) (S successCount) failureCount s1) as (IHp & IHq & IHm & IHr).
      cbv zeta in *. split; [congruence |]. split; [lia |]. split.
      * intros Hm. rewrite IHm, Hmock by exact Hm. reflexivity.
      * intros Hm sc fc Hrun. specialize (IHr Hm sc fc Hrun).
        specialize (Hreal Hm eq_refl). lia.
    + set (s2 := Db.logged ERROR _ _ s1).
      destruct (IH total (S i) successCount (S failureCount) s2) as (IHp & IHq & IHm & IHr).
      cbv zeta in *.
      change (Db.pool s2) with (Db.pool s1) in IHp.
      change (Db.queries s2) with (Db.queries s1) in IHq, IHm, IHr.
      split; [congruence |]. split; [lia |]. split.
      * intros Hm. rewrite IHm, Hmock by exact Hm. reflexivity.
      * intros Hm sc fc Hrun. specialize (IHr Hm sc fc Hrun). lia.
    + db_settle.
Qed.

(** The records that precede a given one are worked off whatever becomes of each. *)
Lemma syncEach_prefix good :
  Forall Sync.is_record good ->
  forall rest total i successCount failureCount s,
    (length good <= Api.conclusives (Api.apiServer (Db.client s)))%nat ->
    exists successCount' failureCount' s',
      Sync.syncEach cfg remote pg (good ++ rest) total i successCount failureCount s
      = Sync.syncEach cfg remote pg rest total (i + length good) successCount' failureCount' s'
      /\ (successCount' + failureCount' = successCount + failureCount + length good)%nat.
Proof.
  induction 1 as [| campaign good Hc _ IH];
    intros rest total i successCount failureCount s Hn.
  - exists successCount, failureCount, s. simpl. rewrite Nat.add_0_r. split; [reflexivity | lia].
  - unfold Sync.is_record in Hc. cbn [length] in Hn.
    assert (Hname : exists name, prop "name" campaign = Returned name)
      by (destruct campaign; try discriminate; simpl; eauto).
    assert (Hid : exists id, prop "id" campaign = Returned id)
      by (destruct campaign; try discriminate; simpl; eauto).
    destruct Hname as (name & Hname). destruct Hid as (id & Hid).
    set (s0 := Db.logged INFO
                 ("[" +:+ pretty (i + 1)%nat +:+ "/" +:+ pretty total
                  +:+ "] Processing campaign: "
                  +:+ to_string name +:+ " (" +:+ to_string id +:+ ")") NoMeta s).
    destruct (syncOne_settles cfg remote pg campaign name s0 Hc) as (H1 & H2);
      [cbn [s0 Db.logged Db.on_client Db.client Api.logged Api.apiServer]; lia |].
    cbn [s0 Db.logged Db.on_client Db.client Api.logged Api.apiServer] in H2.
    replace (i + length (campaign :: good))%nat with (S i + length good)%nat
      by (cbn [length]; lia).
    cbn [app].
    destruct (Sync.syncOne cfg remote pg campaign name s0) as [[[] | e |] s1] eqn:Hone;
      cbn [fst snd] in *; [| | contradiction].
    + rewrite (syncEach_success cfg remote pg campaign name id _ total i _ _ s s1
                 Hname Hid Hone).
      destruct (IH rest total (S i) (S successCount) failureCount s1)
        as (sc & fc & s' & He & Hsum); [lia |].
      exists sc, fc, s'. split; [exact He | cbn [length]; lia].
    + rewrite (syncEach_failure cfg remote pg campaign name id _ total i _ _ s e s1
                 Hname Hid Hone).
      destruct (IH rest total (S i) successCount (S failureCount)
                  (Db.logged ERROR ("Failed to sync campaign " +:+ to_string id)
                             (MetaValue (Obj [("error", Str (message e))])) s1))
        as (sc & fc & s' & He & Hsum);
        [cbn [Db.logged Db.on_client Db.client Api.logged Api.apiServer]; lia |].
      exists sc, fc, s'. split; [exact He | cbn [length]; lia].
Qed.

(** A run whose [try] block throws ends with exit code 1. *)
Lemma thrown_run_exits_1 s e s' :
  Sync.run cfg remote pg (Db.logged INFO "Starting Campaign Sync Service..." NoMeta s)
  = (Threw e, s') ->
  fst (Sync.main cfg remote pg s) = Some 1.
Proof.
  intros Hrun. unfold Sync.main, Sync.start. rewrite Hrun.
  set (s3 := Db.logged ERROR _ _ s').
  pose proof (close_frame pg s3) as Hc.
  destruct (Db.close pg s3) as [[[] | e' |] s4]; cbn [fst] in *;
    [reflexivity | reflexivity | contradiction].
Qed.

End Store.

(** X26. With [USE_MOCK_DB] on, a run creates no pool and issues no
    statement, whatever it fetches and whatever fails. *)
Theorem mock_mode_leaves_the_database_alone
    (cfg : Conf.Config) (remote : Api.Remote) (pg : Db.Postgres) (s : Db.State) :
  Conf.useMock (Conf.db cfg) = true ->
  Db.pool (snd (Sync.main cfg remote pg s)) = Db.pool s /\
  Db.queries (snd (Sync.main cfg remote pg s)) = Db.queries s.
Proof.
  intros Hmock.
  assert (Hclose : forall s0, Db.pool (snd (Db.close pg s0)) = Db.pool s0 /\
                              Db.queries (snd (Db.close pg s0)) = Db.queries s0).
  { intros s0. unfold Db.close. destruct (Db.pool s0) eqn:E; [| split; [exact E | reflexivity]].
    destruct (Db.endError pg); cbn; split; try exact E; reflexivity. }
  assert (Hrun : forall s0, Db.pool (snd (Sync.run cfg remote pg s0)) = Db.pool s0 /\
                            Db.queries (snd (Sync.run cfg remote pg s0)) = Db.queries s0).
  { intros s0. unfold Sync.run, Db.connect. rewrite Hmock.
    set (s1 := Db.logged INFO "Using MOCK Database configuration." NoMeta s0).
    unfold Sync.fetchAllCampaigns.
    destruct (fetchPages_database cfg remote (S (length (Api.apiServer (Db.client s1)))) [] 1 s1)
      as (Hp & Hq).
    change (Db.pool s1) with (Db.pool s0) in Hp.
    change (Db.queries s1) with (Db.queries s0) in Hq.
    destruct (Sync.fetchPages cfg remote _ [] 1 s1) as [[allCampaigns | e |] s2];
      cbn [fst snd] in *; [| split; assumption ..].
    set (s3 := Db.logged INFO _ NoMeta s2).
    destruct (syncEach_database cfg remote pg allCampaigns (length allCampaigns) 0 0 0 s3)
      as (Hp' & _ & Hq' & _).
    cbv zeta in *. specialize (Hq' Hmock).
    change (Db.pool s3) with (Db.pool s2) in Hp'.
    change (Db.queries s3) with (Db.queries s2) in Hq'.
    destruct (Sync.syncEach cfg remote pg allCampaigns _ 0 0 0 s3) as [[[sc fc] | e |] s4];
      cbn [fst snd] in *; cbn [Db.logged Db.on_client Db.pool Db.queries];
      split; congruence. }
  unfold Sync.main, Sync.start.
  set (s0 := Db.logged INFO "Starting Campaign Sync Service..." NoMeta s).
  destruct (Hrun s0) as (Hp & Hq).
  change (Db.pool s0) with (Db.pool s) in Hp.
  change (Db.queries s0) with (Db.queries s) in Hq.
  destruct (Sync.run cfg remote pg s0) as [[[] | e |] s1]; cbn [fst snd] in *.
  - destruct (Hclose s1) as (Hp' & Hq').
    destruct (Db.close pg s1) as [[[] | e |] s2]; cbn [fst snd] in *;
      cbn [Db.logged Db.on_client Db.pool Db.queries]; split; congruence.
  - set (s2 := Db.logged ERROR _ _ s1).
    destruct (Hclose s2) as (Hp' & Hq').
    change (Db.pool s2) with (Db.pool s1) in Hp'.
    change (Db.queries s2) with (Db.queries s1) in Hq'.
    destruct (Db.close pg s2) as [[[] | e' |] s3]; cbn [fst snd] in *;
      cbn [Db.logged Db.on_client Db.pool Db.queries]; split; congruence.
  - split; assumption.
Qed.

(** X20. With a real database, the loop of [start] counts a record as a
    success only after its statement has been issued: the statements issued
    during the loop are at least the successes, and at most one per record. *)
Theorem successes_are_persisted
    (cfg : Conf.Config) (remote : Api.Remote) (pg : Db.Postgres)
    (campaigns : list Value) (total i : nat) (s s' : Db.State)
    (successCount failureCount : nat) :
  Conf.useMock (Conf.db cfg) = false ->
  Sync.syncEach cfg remote pg campaigns total i 0 0 s
  = (Returned (successCount, failureCount), s') ->
  (successCount + length (Db.queries s) <= length (Db.queries s'))%nat /\
  (length (Db.queries s') <= length (Db.queries s) + length campaigns)%nat.
Proof.
  intros Hreal Hrun.
  destruct (syncEach_database cfg remote pg campaigns total i 0 0 s) as (_ & Hq & _ & Hs).
  cbv zeta in *. rewrite Hrun in Hq, Hs. cbn [fst snd] in *.
  specialize (Hs Hreal successCount failureCount eq_refl). lia.
Qed.


(** X18. After any number of pages that say that more is to come, a
    response that is refused makes [fetchAllCampaigns] throw the [ApiError] of
    the call: the records already read are dropped, and the process exits with
    code 1. *)
Theorem failed_page_fails_the_run
    (cfg : Conf.Config) (remote : Api.Remote) (pg : Db.Postgres)
    (xs : list (Api.Exchange Value)) (pages : list (list Value))
    (x : Api.Exchange Value) (r : Api.Response Value)
    (rest : list (Api.Exchange Value)) (s : Db.State) :
  (forall j, Api.authenticates (Api.authServer remote j) = true) ->
  Forall2 (fun x records => Sync.serves records true x) xs pages ->
  Api.settles x = Api.Responds r ->
  Api.refused x = true ->
  Api.apiServer (Db.client s) = xs ++ x :: rest ->
  fst (Sync.fetchAllCampaigns cfg remote s)
  = Threw (ApiError ("API Error: " +:+ pretty (Api.status r) +:+ " " +:+ Api.statusText r)
                    (Some (Api.status r))) /\
  fst (Sync.main cfg remote pg s) = Some 1.
Proof.
  intros Hauth Hpages Hr Href Hsrv.
  assert (Hthrows : forall s0,
             Api.apiServer (Db.client s0) = xs ++ x :: rest ->
             fst (Sync.fetchAllCampaigns cfg remote s0)
             = Threw (ApiError ("API Error: " +:+ pretty (Api.status r) +:+ " "
                                +:+ Api.statusText r) (Some (Api.status r)))).
  { intros s0 H0. unfold Sync.fetchAllCampaigns. rewrite H0, length_app. cbn [length].
    replace (S (length xs + S (length rest))) with (length xs + S (S (length rest)))%nat
      by lia.
    destruct (fetchPages_prefix cfg remote Hauth xs pages Hpages (x :: rest)
                (S (S (length rest))) [] 1%nat s0 H0) as (s1 & Hrun & Hleft & _).
    change (Z.of_nat 1) with 1 in Hrun. rewrite Hrun.
    set (s2 := Db.logged INFO ("Fetching campaigns page "
                               +:+ pretty (Z.of_nat (1 + length xs)) +:+ "...") NoMeta s1).
    destruct (getAccessToken_returns cfg remote (Db.client s2) Hauth) as (token & Htoken).
    destruct (request_from_refused cfg remote x rest
                ("/api/campaigns?page=" +:+ pretty (Z.of_nat (1 + length xs))
                 +:+ "&limit=" +:+ pretty 10)
                {| Api.method := "GET"; Api.payload := None |} 0 (Db.client s2) r token
                Htoken Hr Href) as (Hthrown & _).
    assert (Hget : exists s3,
               Sync.on_api (Api.getCampaigns cfg remote (Z.of_nat (1 + length xs)) 10) s2
               = (Threw (ApiError ("API Error: " +:+ pretty (Api.status r) +:+ " "
                                   +:+ Api.statusText r) (Some (Api.status r))), s3)).
    { unfold Sync.on_api, Api.getCampaigns, Api.request.
      change (Api.apiServer (Db.client s2)) with (Api.apiServer (Db.client s1)).
      rewrite Hleft.
      destruct (Api.request_from _ _ _ _ _ _ _) as [o c]. cbn [fst] in Hthrown. subst o.
      eauto. }
    destruct Hget as (s3 & Hget).
    rewrite (fetchPages_throws cfg remote _ _ _ s1 s3 _ Hget). reflexivity. }
  split; [apply Hthrows, Hsrv |].
  unfold Sync.main, Sync.start, Sync.run.
  set (s0 := Db.logged INFO "Starting Campaign Sync Service..." NoMeta s).
  destruct (connect_frame cfg pg s0) as (Hnp & Hleft).
  destruct (Db.connect cfg pg s0) as [[[] | e |] s1]; cbn [fst snd] in *.
  - specialize (Hthrows s1 (eq_trans Hleft Hsrv)).
    destruct (Sync.fetchAllCampaigns cfg remote s1) as [o s2]. cbn [fst] in Hthrows.
    subst o.
    set (s3 := Db.logged ERROR _ _ s2).
    pose proof (close_frame pg s3) as Hc.
    destruct (Db.close pg s3) as [[[] | e |] s4]; cbn [fst] in *;
      [reflexivity | reflexivity | contradiction].
  - set (s3 := Db.logged ERROR _ _ s1).
    pose proof (close_frame pg s3) as Hc.
    destruct (Db.close pg s3) as [[[] | e' |] s4]; cbn [fst] in *;
      [reflexivity | reflexivity | contradiction].
  - contradiction.
Qed.

(** X24. When the database cannot be reached, the run ends before any call
    is made: the process exits with code 1, no call has gone out and no
    answer of the server is taken, no statement is issued, the pool that was
    created is shut down, and the log is the five lines of this path. *)
Theorem connect_failure_is_fatal
    (cfg : Conf.Config) (remote : Api.Remote) (pg : Db.Postgres) (s : Db.State)
    (e : Error) :
  Conf.useMock (Conf.db cfg) = false ->
  Db.pool s = false ->
  Db.connectError pg = Some e ->
  let rs := Sync.main cfg remote pg s in
  fst rs = Some 1 /\
  Api.calls (Db.client (snd rs)) = Api.calls (Db.client s) /\
  Api.apiServer (Db.client (snd rs)) = Api.apiServer (Db.client s) /\
  Db.queries (snd rs) = Db.queries s /\
  Db.pool (snd rs) = true /\
  (Db.endError pg = None ->
   Sync.journal (snd rs)
   = Sync.journal s
     ++ [{| level := INFO; text := "Starting Campaign Sync Service..."; meta := NoMeta |};
         {| level := ERROR; text := "Failed to connect to database";
            meta := MetaValue (Obj [("error", Str (message e))]) |};
         {| level := ERROR; text := "Fatal error in Sync Service";
            meta := MetaValue (Obj [("error", Str (message e))]) |};
         {| level := INFO; text := "Database connection pool closed"; meta := NoMeta |};
         {| level := ERROR; text := "Application finished with errors."; meta := NoMeta |}]).
Proof.
  intros Hreal Hpool Hconnect. cbv zeta.
  unfold Sync.main, Sync.start, Sync.run, Db.connect, Db.close.
  rewrite Hreal. cbn [Db.logged Db.on_client Db.pool]. rewrite Hpool. cbn [negb].
  rewrite Hconnect. cbn [Db.logged Db.on_client Db.set_pool Db.pool].
  destruct (Db.endError pg) as [e' |]; cbn; repeat split; try discriminate.
  intros _. unfold Sync.journal. cbn. rewrite <- !app_assoc. reflexivity.
Qed.

(** X25. A pool that does not shut down turns a completed run into a
    failure: every record has been processed and the summary is the last line
    of the log, but [start] throws the error of [pool.end()] from its
    [finally], and the process exits with code 1. *)
Theorem close_failure_fails_the_run
    (cfg : Conf.Config) (remote : Api.Remote) (pg : Db.Postgres)
    (s s1 s2 : Db.State) (allCampaigns : list Value) (e : Error) :
  Db.connect cfg pg (Db.logged INFO "Starting Campaign Sync Service..." NoMeta s)
  = (Returned tt, s1) ->
  Sync.fetchAllCampaigns cfg remote s1 = (Returned allCampaigns, s2) ->
  Forall Sync.is_record allCampaigns ->
  (length allCampaigns <= Api.conclusives (Api.apiServer (Db.client s2)))%nat ->
  Db.pool s1 = true ->
  Db.endError pg = Some e ->
  exists successCount failureCount s',
    Sync.start cfg remote pg s = (Threw e, s') /\
    fst (Sync.main cfg remote pg s) = Some 1 /\
    (successCount + failureCount = length allCampaigns)%nat /\
    List.last (Sync.journal s') {| level := INFO; text := ""; meta := NoMeta |}
    = {| level := INFO; text := "Sync Service Completed";
         meta := Sync.report successCount failureCount (length allCampaigns) |}.
Proof.
  intros Hconnect Hfetch Hrecords Henough Hpool Hend.
  set (s3 := Db.logged INFO
               ("Fetched " +:+ pretty (length allCampaigns) +:+ " total campaigns from API.")
               NoMeta s2).
  destruct (syncEach_total cfg remote pg allCampaigns Hrecords
              (length allCampaigns) 0%nat 0%nat 0%nat s3 Henough)
    as (sc & fc & s4 & Heach & Hsum).
  assert (Hp4 : Db.pool s4 = true).
  { destruct (syncEach_database cfg remote pg allCampaigns (length allCampaigns) 0 0 0 s3)
      as (Hp & _).
    cbv zeta in Hp. rewrite Heach in Hp. cbn [snd] in Hp. rewrite Hp.
    change (Db.pool s3) with (Db.pool s2).
    unfold Sync.fetchAllCampaigns in Hfetch.
    destruct (fetchPages_database cfg remote (S (length (Api.apiServer (Db.client s1)))) [] 1 s1)
      as (Hp2 & _).
    rewrite Hfetch in Hp2. cbn [snd] in Hp2. rewrite Hp2. exact Hpool. }
  set (s5 := Db.logged INFO "Sync Service Completed"
               (Sync.report sc fc (length allCampaigns)) s4).
  assert (Hstart : Sync.start cfg remote pg s = (Threw e, s5)).
  { unfold Sync.start, Sync.run. rewrite Hconnect, Hfetch. fold s3. rewrite Heach. fold s5.
    unfold Db.close. change (Db.pool s5) with (Db.pool s4). rewrite Hp4, Hend. reflexivity. }
  exists sc, fc, s5. split; [exact Hstart |]. split; [| split; [lia |]].
  - unfold Sync.main. rewrite Hstart. reflexivity.
  - unfold Sync.journal. cbn [s5 Db.logged Db.on_client Db.client Api.logged Api.log].
    apply last_last.
Qed.

(** X23. With a real database, [connect] leaves the pool set whether the
    connection test succeeds or not, and a second [connect] returns without
    testing anything and without a line in the log, also after a first one
    that has thrown. *)
Theorem second_connect_is_silent
    (cfg : Conf.Config) (pg : Db.Postgres) (s : Db.State) :
  Conf.useMock (Conf.db cfg) = false ->
  let rs := Db.connect cfg pg s in
  Db.pool (snd rs) = true /\
  Db.connect cfg pg (snd rs) = (Returned tt, snd rs).
Proof.
  intros Hreal. cbv zeta. unfold Db.connect. rewrite Hreal.
  destruct (Db.pool s) eqn:Hpool; cbn [negb snd].
  - rewrite Hpool. split; reflexivity.
  - destruct (Db.connectError pg); cbn [snd Db.logged Db.on_client Db.set_pool Db.pool negb];
      split; reflexivity.
Qed.

(** ** The quota over a whole run *)

Section Quota.

Variable cfg : Conf.Config.
Variable remote : Api.Remote.
Variable pg : Db.Postgres.
Variable gap : Z.

(** Every step of a run keeps the invariant of the rate limiter. *)
Lemma metered_request_from server endpoint options retryCount c :
  Api.metered gap c ->
  Api.metered gap (snd (Api.request_from cfg remote server endpoint options retryCount c)).
Proof.
  intros [Hp Hg]. split; [apply request_from_paced, Hp |].
  rewrite request_from_interval. exact Hg.
Qed.

Lemma metered_on_api {A} (f : Api.State -> Outcome A * Api.State) s :
  (forall c, Api.metered gap c -> Api.metered gap (snd (f c))) ->
  Api.metered gap (Db.client s) -> Api.metered gap (Db.client (snd (Sync.on_api f s))).
Proof.
  intros Hf H. unfold Sync.on_api. specialize (Hf (Db.client s) H).
  destruct (f (Db.client s)) as [o c]. exact Hf.
Qed.

Lemma metered_connect s :
  Api.metered gap (Db.client s) -> Api.metered gap (Db.client (snd (Db.connect cfg pg s))).
Proof.
  intros H. unfold Db.connect. destruct (Conf.useMock _); [exact H |].
  destruct (negb (Db.pool s)); [| exact H]. destruct (Db.connectError pg); exact H.
Qed.

Lemma metered_close s :
  Api.metered gap (Db.client s) -> Api.metered gap (Db.client (snd (Db.close pg s))).
Proof.
  intros H. unfold Db.close. destruct (Db.pool s); [| exact H].
  destruct (Db.endError pg); exact H.
Qed.

Lemma metered_upsertCampaign campaign s :
  Api.metered gap (Db.client s) ->
  Api.metered gap (Db.client (snd (Db.upsertCampaign cfg pg campaign s))).
Proof.
  intros H. unfold Db.upsertCampaign. destruct (Conf.useMock _).
  - destruct (prop "id" campaign); cbn [reading snd]; try exact H.
    destruct (prop "name" campaign); cbn [reading snd]; exact H.
  - destruct (negb (Db.pool s)); [exact H |].
    destruct (Db.props _ campaign); cbn [snd]; try exact H.
    assert (Ht : Api.metered gap
                   (Api.tick (Z.of_N (Db.queryTime pg (length (Db.queries s)))) (Db.client s)))
      by (destruct H as [Hp Hg]; split; [apply paced_tick; [lia | exact Hp] | exact Hg]).
    destruct (Db.queryError pg _); exact Ht.
Qed.

Lemma metered_fetchPages fuel :
  forall allCampaigns page s,
    Api.metered gap (Db.client s) ->
    Api.metered gap (Db.client (snd (Sync.fetchPages cfg remote fuel allCampaigns page s))).
Proof.
  induction fuel as [| fuel IH]; intros allCampaigns page s H; [exact H |].
  cbn [Sync.fetchPages].
  set (s0 := Db.logged INFO _ NoMeta s).
  pose proof (metered_on_api (Api.getCampaigns cfg remote page 10) s0
                (fun c Hc => metered_request_from _ _ _ _ c Hc) H) as H1.
  destruct (Sync.on_api (Api.getCampaigns cfg remote page 10) s0) as [[response | e |] s1];
    cbn [snd] in *; try exact H1.
  destruct (if truthy response then prop "data" response else Returned response)
    as [guard | e |]; cbn [reading snd]; try exact H1.
  destruct (truthy guard); [| exact H1].
  destruct (prop "pagination" response) as [pagination | e |]; cbn [reading snd];
    try exact H1.
  destruct (prop "has_more" pagination) as [hasMore | e |]; cbn [reading snd]; try exact H1.
  destruct (truthy hasMore); [| exact H1].
  apply IH, H1.
Qed.

Lemma metered_syncOne campaign name s :
  Api.metered gap (Db.client s) ->
  Api.metered gap (Db.client (snd (Sync.syncOne cfg remote pg campaign name s))).
Proof.
  intros H. unfold Sync.syncOne.
  destruct (prop "id" campaign) as [id | e |]; cbn [reading snd]; try exact H.
  pose proof (metered_on_api (Api.syncCampaign cfg remote id) s
                (fun c Hc => metered_request_from _ _ _ _ c Hc) H) as H1.
  destruct (Sync.on_api (Api.syncCampaign cfg remote id) s) as [[v | e |] s1];
    cbn [snd] in *; try exact H1.
  pose proof (metered_upsertCampaign campaign s1 H1) as H2.
  destruct (Db.upsertCampaign cfg pg campaign s1) as [[[] | e |] s2]; cbn [snd] in *;
    exact H2.
Qed.

Lemma metered_syncEach campaigns :
  forall total i successCount failureCount s,
    Api.metered gap (Db.client s) ->
    Api.metered gap (Db.client
                 (snd (Sync.syncEach cfg remote pg campaigns total i successCount
                         failureCount s))).
Proof.
  induction campaigns as [| campaign rest IH];
    intros total i successCount failureCount s H; [exact H |].
  cbn [Sync.syncEach].
  destruct (prop "name" campaign) as [name | e |]; cbn [reading snd]; try exact H.
  destruct (prop "id" campaign) as [id | e |]; cbn [reading snd]; try exact H.
  set (s0 := Db.logged INFO _ NoMeta s).
  pose proof (metered_syncOne campaign name s0 H) as H1.
  destruct (Sync.syncOne cfg remote pg campaign name s0) as [[[] | e |] s1]; cbn [snd] in *.
  - apply IH, H1.
  - apply IH. exact H1.
  - exact H1.
Qed.

Lemma metered_main s :
  Api.metered gap (Db.client s) -> Api.metered gap (Db.client (snd (Sync.main cfg remote pg s))).
Proof.
  intros H.
  assert (Hrun : forall s0, Api.metered gap (Db.client s0) ->
                            Api.metered gap (Db.client (snd (Sync.run cfg remote pg s0)))).
  { intros s0 H0. unfold Sync.run.
    pose proof (metered_connect s0 H0) as H1.
    destruct (Db.connect cfg pg s0) as [[[] | e |] s1]; cbn [snd] in *; try exact H1.
    pose proof (metered_fetchPages (S (length (Api.apiServer (Db.client s1)))) [] 1 s1 H1) as H2.
    unfold Sync.fetchAllCampaigns.
    destruct (Sync.fetchPages cfg remote _ [] 1 s1) as [[allCampaigns | e |] s2];
      cbn [snd] in *; try exact H2.
    set (s3 := Db.logged INFO _ NoMeta s2).
    pose proof (metered_syncEach allCampaigns (length allCampaigns) 0%nat 0%nat 0%nat s3 H2)
      as H3.
    destruct (Sync.syncEach cfg remote pg allCampaigns _ 0 0 0 s3) as [[[sc fc] | e |] s4];
      cbn [snd] in *; exact H3. }
  unfold Sync.main, Sync.start.
  set (s0 := Db.logged INFO "Starting Campaign Sync Service..." NoMeta s).
  pose proof (Hrun s0 H) as H1.
  destruct (Sync.run cfg remote pg s0) as [[[] | e |] s1]; cbn [snd] in *.
  - pose proof (metered_close s1 H1) as H2.
    destruct (Db.close pg s1) as [[[] | e |] s2]; cbn [snd] in *; exact H2.
  - set (s2 := Db.logged ERROR _ _ s1).
    pose proof (metered_close s2 H1) as H2.
    destruct (Db.close pg s2) as [[[] | e' |] s3]; cbn [snd] in *; exact H2.
  - exact H1.
Qed.

End Quota.

(** X21. The whole run keeps the quota: in a process started at a time
    [t0], whatever the environment, the server, the timers and the database
    do, two consecutive calls of the run (token exchanges, pages and remote
    triggers) start at least 6500 ms apart. *)
Theorem run_keeps_the_quota
    (env : gmap string string) (remote : Api.Remote) (pg : Db.Postgres) (t0 : Z)
    (script : list (Api.Exchange Value)) :
  0 <= t0 ->
  let cfg := Conf.config env in
  Api.spaced 6500
    (Api.calls (Db.client (snd (Sync.main cfg remote pg (Sync.create cfg t0 script))))).
Proof.
  intros Ht cfg.
  assert (Hc : Api.metered 6500 (Db.client (Sync.create cfg t0 script))).
  { split; [| reflexivity]. apply create_paced; [assumption | simpl; lia]. }
  destruct (metered_main cfg remote pg 6500 _ Hc) as ((_ & _ & _ & Hsp) & Hmin).
  rewrite Hmin in Hsp. exact Hsp.
Qed.

(** Calls that are spaced are spread out. *)
Lemma spaced_span gap cs :
  Api.spaced gap cs ->
  forall (n i : nat) c1 c2,
    cs !! i = Some c1 -> cs !! (i + n)%nat = Some c2 ->
    Z.of_nat n * gap <= Api.startedAt c2 - Api.startedAt c1.
Proof.
  intros Hsp. induction n as [| n IH]; intros i c1 c2 H1 H2.
  - rewrite Nat.add_0_r, H1 in H2. injection H2 as <-. lia.
  - assert (Hlt : (i + n < length cs)%nat)
      by (apply lookup_lt_Some in H2; lia).
    destruct (lookup_lt_is_Some_2 cs (i + n) Hlt) as (c & Hc).
    pose proof (IH i c1 c H1 Hc) as IH'.
    replace (i + S n)%nat with (S (i + n)) in H2 by lia.
    pose proof (Hsp (i + n)%nat c c2 Hc H2). lia.
Qed.

(** X22. A run that has made [n] calls has lasted at least
    [(n - 1) * 6500] ms since the first of them. *)
Theorem run_lasts_as_long_as_its_calls
    (env : gmap string string) (remote : Api.Remote) (pg : Db.Postgres) (t0 : Z)
    (script : list (Api.Exchange Value)) (first : Api.Call) :
  0 <= t0 ->
  let cfg := Conf.config env in
  let final := Db.client (snd (Sync.main cfg remote pg (Sync.create cfg t0 script))) in
  Api.calls final !! 0%nat = Some first ->
  (Z.of_nat (length (Api.calls final)) - 1) * 6500 <= Api.now final - Api.startedAt first.
Proof.
  intros Ht cfg final Hfirst.
  assert (Hc : Api.metered 6500 (Db.client (Sync.create cfg t0 script))).
  { split; [| reflexivity]. apply create_paced; [assumption | simpl; lia]. }
  destruct (metered_main cfg remote pg 6500 _ Hc) as ((_ & Hnow & Hall & Hsp) & Hmin).
  fold final in Hnow, Hall, Hsp, Hmin. rewrite Hmin in Hsp.
  assert (Hpos : (0 < length (Api.calls final))%nat)
    by (apply lookup_lt_Some in Hfirst; exact Hfirst).
  destruct (lookup_lt_is_Some_2 (Api.calls final) (length (Api.calls final) - 1)
              ltac:(lia)) as (c & Hlast).
  pose proof (spaced_span 6500 _ Hsp (length (Api.calls final) - 1) 0 first c Hfirst Hlast)
    as Hspan.
  rewrite Forall_forall in Hall.
  assert (Hin : c ∈ Api.calls final) by (eapply list_elem_of_lookup_2; exact Hlast).
  specialize (Hall c Hin). cbn beta in Hall.
  replace (Z.of_nat (length (Api.calls final) - 1))
    with (Z.of_nat (length (Api.calls final)) - 1) in Hspan by lia.
  lia.
Qed.

(** ** Edge cases of the token and of the answers *)

Section Edges.

Variable cfg : Conf.Config.
Variable remote : Api.Remote.

(** A cache miss makes one exchange, whatever its answer. *)
Lemma getAccessToken_exchanges s :
  Api.cached (Api.accessToken s) && (Api.now s <? Api.tokenExpiry s) = false ->
  Api.authExchanges (snd (Api.getAccessToken cfg remote s)) = S (Api.authExchanges s).
Proof.
  intros Hmiss. rewrite getAccessToken_miss by exact Hmiss. cbv zeta.
  destruct (exchanged_frame cfg remote s) as (Hn & _).
  destruct (Api.settles _) as [r | | reason];
    [destruct (negb (Api.ok r)); [| destruct (Api.body r)] | |];
    rewrite ?authenticationFailed_state; cbn [snd];
    rewrite ?authExchanges_logged, ?authExchanges_set_token; exact Hn.
Qed.

(** A 2xx whose body does not parse goes the way of the errors of the
    network, with the error [e] that [response.json()] rejects with. *)
Lemma onResponse_unparsable retry endpoint retryCount r s :
  Api.ok r = true -> Api.body r = None ->
  exists e,
    is_ApiError e = false /\
    Api.onResponse cfg remote retry endpoint retryCount r s
    = Api.networkError cfg remote retry endpoint retryCount e s.
Proof.
  intros Hok Hbody. destruct (ok_status r Hok) as (H429 & H500 & H401).
  unfold Api.onResponse. rewrite H429, H500, H401, Hok, Hbody.
  eexists. split; [| reflexivity]. reflexivity.
Qed.

(** The clock after a sleep. *)
Lemma sleep_clock ms s :
  Api.now (Api.sleep remote ms s)
  = Api.now s + Js.timer_delay ms + Z.of_N (Api.timerLag remote (Api.timers s)).
Proof. unfold Api.sleep. cbn. lia. Qed.

End Edges.

(** X4. A token whose lifetime is 30 seconds or less is expired as soon as
    it is cached, the safety margin being 30 seconds: the exchange returns it,
    and every later [getAccessToken] makes another exchange. *)
Theorem short_lived_token_is_never_reused
    (cfg : Conf.Config) (remote : Api.Remote) (s : Api.State)
    (r : Api.Response Api.AuthPayload) (data : Api.AuthPayload) (n : Z) :
  Api.cached (Api.accessToken s) && (Api.now s <? Api.tokenExpiry s) = false ->
  Api.settles (Api.authServer remote (Api.authExchanges s)) = Api.Responds r ->
  Api.ok r = true ->
  Api.body r = Some data ->
  Api.expires_in data = Some n -> n <> 0 -> n <= 30 ->
  let rs := Api.getAccessToken cfg remote s in
  fst rs = Returned (Api.access_token data) /\
  Api.tokenExpiry (snd rs) <= Api.now (snd rs) /\
  forall d, 0 <= d ->
    Api.authExchanges (snd (Api.getAccessToken cfg remote (Api.tick d (snd rs))))
    = S (Api.authExchanges (snd rs)).
Proof.
  intros Hmiss Hr Hok Hbody Hn Hnz Hle. cbv zeta.
  rewrite getAccessToken_miss by exact Hmiss. cbv zeta. rewrite Hr, Hok, Hbody.
  cbn [negb fst snd].
  set (s1 := Api.exchanged cfg remote s).
  assert (Hexp : Api.now s1 + Api.expiresIn data - 30000 <= Api.now s1).
  { unfold Api.expiresIn. rewrite Hn. destruct (Z.eqb_spec n 0); [contradiction | lia]. }
  split; [reflexivity |]. split; [exact Hexp |].
  intros d Hd. rewrite getAccessToken_exchanges; [reflexivity |].
  apply andb_false_iff. right. apply Z.ltb_ge.
  cbn [Api.tick Api.logged Api.set_token Api.now Api.tokenExpiry]. lia.
Qed.

(** X14. A 2xx whose body is not JSON is not given to the caller. Below
    [maxRetries] the call is made again after the backoff of a network error:
    every call the client goes on to make starts at least
    [1000 * 2^retryCount] ms after the answer (the time of the state [s2]);
    and when the token service answers and the next answer is a 2xx whose
    body parses, that body is what [request] returns. At [maxRetries] the call
    throws an error that is not an [ApiError], without asking the server
    again. *)
Theorem unparsable_body_is_tried_again
    (cfg : Conf.Config) (remote : Api.Remote)
    (x : Api.Exchange Value) (rest : list (Api.Exchange Value))
    (endpoint : string) (options : Api.RequestInit) (retryCount : nat)
    (s s1 : Api.State) (token : option string) (r : Api.Response Value) :
  Api.getAccessToken cfg remote s = (Returned token, s1) ->
  Api.settles x = Api.Responds r ->
  Api.ok r = true -> Api.body r = None ->
  let s2 := Api.arrived cfg remote endpoint options x rest token s1 in
  let rs := Api.request_from cfg remote (x :: rest) endpoint options retryCount s in
  (Api.below retryCount (Conf.maxRetries (Conf.api cfg)) = true ->
   (1000 * 2 ^ Z.of_nat retryCount <= 2147483647 ->
    exists added,
      Api.calls (snd rs) = Api.calls s2 ++ added /\
      Forall (fun c => Api.now s2 + 1000 * 2 ^ Z.of_nat retryCount <= Api.startedAt c)
             added) /\
   (forall y v rest',
      (forall j, Api.authenticates (Api.authServer remote j) = true) ->
      rest = y :: rest' -> Api.delivers v y ->
      fst rs = Returned v /\ Api.apiServer (snd rs) = rest')) /\
  (Api.below retryCount (Conf.maxRetries (Conf.api cfg)) = false ->
   exists e,
     fst rs = Threw e /\ is_ApiError e = false /\ Api.apiServer (snd rs) = rest).
Proof.
  intros Hg Hr Hok Hbody. cbv zeta.
  rewrite request_from_cons, Hg. cbv zeta. rewrite Hr.
  destruct (arrived_frame cfg remote endpoint options x rest token s1) as (Hsrv & _).
  cbv zeta in Hsrv.
  set (s2 := Api.arrived cfg remote endpoint options x rest token s1) in *. clearbody s2.
  destruct (onResponse_unparsable cfg remote
              (Api.request_from cfg remote rest endpoint options (S retryCount))
              endpoint retryCount r s2 Hok Hbody) as (e & He & ->).
  unfold Api.networkError. split.
  - intros Hb. rewrite Hb. split.
    + intros Hmax.
      apply after_sleep; [rewrite backoff_delay by lia; lia | reflexivity | reflexivity].
    + intros y v rest' Hauth -> Hy.
      destruct (limited_then_delivered cfg remote Hauth [] (Forall_nil_2 _)
                  y v rest' endpoint options (S retryCount)
                  (Api.sleep remote (Api.backoff 1000 retryCount)
                     (Api.logged WARN
                        ("Network error: " +:+ message e +:+ ". Retrying in "
                         +:+ Api.show (Api.backoff 1000 retryCount) +:+ "ms...")
                        (MetaError e) s2)) Hy) as (H1 & H2 & _).
      split; [exact H1 | exact H2].
  - intros Hb. rewrite Hb. exists e.
    destruct (finalFailure_frame endpoint retryCount e s2) as (H1 & _ & H2 & _).
    cbv zeta in H1, H2. rewrite H2. auto.
Qed.

(** X13. A [retry-after] header that [parseInt] cannot read (an HTTP date,
    for one), or that gives zero or a negative number of seconds, makes the
    wait after a 429 a timer of 1 ms: the retry goes on in a state [s3] whose
    clock is 1 ms (and the lateness of the timer) after the answer. *)
Theorem unreadable_retry_after_is_no_wait
    (cfg : Conf.Config) (remote : Api.Remote)
    (x : Api.Exchange Value) (rest : list (Api.Exchange Value))
    (endpoint : string) (options : Api.RequestInit) (retryCount : nat)
    (s s1 : Api.State) (token : option string)
    (r : Api.Response Value) (header : string) :
  Api.getAccessToken cfg remote s = (Returned token, s1) ->
  Api.settles x = Api.Responds r -> Api.status r = 429 ->
  Api.retryAfter r = Some header -> header <> "" ->
  (Js.parseInt header = None \/
   exists seconds, Js.parseInt header = Some seconds /\ seconds <= 0) ->
  let s2 := Api.arrived cfg remote endpoint options x rest token s1 in
  exists s3,
    Api.request_from cfg remote (x :: rest) endpoint options retryCount s
    = Api.request_from cfg remote rest endpoint options (S retryCount) s3 /\
    Api.now s3 = Api.now s2 + 1 + Z.of_N (Api.timerLag remote (Api.timers s2)) /\
    Api.calls s3 = Api.calls s2.
Proof.
  intros Hg Hr H429 Hh Hne Hp. cbv zeta.
  rewrite request_from_cons, Hg. cbv zeta. rewrite Hr, onResponse_limited by exact H429.
  set (s2 := Api.arrived cfg remote endpoint options x rest token s1). clearbody s2.
  assert (Hdelay : Js.timer_delay (Api.rateLimitWait (Api.retryAfter r) retryCount) = 1).
  { rewrite Hh. unfold Api.rateLimitWait.
    destruct (String.eqb_spec header ""); [contradiction |].
    destruct Hp as [-> | (seconds & -> & Hle)]; [reflexivity |].
    cbn [fmap option_fmap option_map]. unfold Js.timer_delay.
    destruct (Z.leb_spec 1 (seconds * 1000)); [lia | reflexivity]. }
  set (ms := Api.rateLimitWait (Api.retryAfter r) retryCount) in *. clearbody ms.
  set (s3 := Api.logged WARN _ NoMeta s2).
  exists (Api.sleep remote ms s3). split; [reflexivity |].
  rewrite sleep_clock, Hdelay.
  destruct (sleep_frame remote ms s3) as (_ & _ & _ & _ & _ & _ & Hc).
  cbv zeta in Hc. rewrite Hc. split; reflexivity.
Qed.

(** X3 on a client that made a request one second ago: it waits the 5500
    ms that are left. *)
Lemma enforceRateLimit_exact_witness :
  let s := Api.set_lastRequestTime 999000 (Sample.warm []) in
  let s' := Api.enforceRateLimit Sample.remote s in
  Api.now s' = 1005500 /\ Api.lastRequestTime s' = 1005500 /\ Api.timers s' = 1%nat.
Proof.
  cbv zeta.
  destruct (enforceRateLimit_exact Sample.remote
              (Api.set_lastRequestTime 999000 (Sample.warm [])))
    as (Hnow & Hlast & Htimers).
  - vm_compute. discriminate.
  - vm_compute. discriminate.
  - reflexivity.
  - cbv zeta in *. rewrite Hlast, Hnow, Htimers. repeat split.
Defined.

(** X11 on a 503 at the first attempt: nothing goes out for 1000 ms. *)
Lemma retry_waits_are_honoured_witness :
  let s := Sample.warm [Sample.unavailable; Sample.done] in
  let opts := {| Api.method := "POST"; Api.payload := None |} in
  let s2 := Api.arrived Sample.cfg Sample.remote "/api/x" opts Sample.unavailable
              [Sample.done] (Some "token-1") s in
  exists added,
    Api.calls (snd (Api.request_from Sample.cfg Sample.remote
                      [Sample.unavailable; Sample.done] "/api/x" opts 0 s))
    = Api.calls s2 ++ added /\
    Forall (fun c => Api.now s2 + 1000 * 2 ^ Z.of_nat 0 <= Api.startedAt c) added.
Proof.
  cbv zeta.
  destruct (retry_waits_are_honoured Sample.cfg Sample.remote Sample.unavailable
              [Sample.done] "/api/x" {| Api.method := "POST"; Api.payload := None |} 0
              (Sample.warm [Sample.unavailable; Sample.done])
              (Sample.warm [Sample.unavailable; Sample.done]) (Some "token-1") eq_refl)
    as (Hwait & _).
  apply Hwait.
  - eexists. split; [reflexivity | vm_compute; discriminate].
  - reflexivity.
  - vm_compute. discriminate.
Defined.

(** X12 on a timeout of 10 s at the first attempt. *)
Lemma timeout_retry_is_immediate_witness :
  let s := Sample.warm [Sample.timedOut; Sample.done] in
  let opts := {| Api.method := "POST"; Api.payload := None |} in
  exists c1 c2 added,
    Api.calls (snd (Api.request_from Sample.cfg Sample.remote
                      [Sample.timedOut; Sample.done] "/api/x" opts 0 s))
    = Api.calls s ++ c1 :: c2 :: added /\
    Api.startedAt c2 = Api.startedAt c1 + Z.of_N (Api.elapsed Sample.timedOut) /\
    Api.startedAt c2
    = Api.now (Api.arrived Sample.cfg Sample.remote "/api/x" opts Sample.timedOut
                 [Sample.done] (Api.accessToken s) s).
Proof.
  cbv zeta.
  apply (timeout_retry_is_immediate Sample.cfg Sample.remote Sample.timedOut Sample.done []
           "/api/x" {| Api.method := "POST"; Api.payload := None |} 0
           (Sample.warm [Sample.timedOut; Sample.done])).
  - reflexivity.
  - vm_compute. reflexivity.
  - reflexivity.
  - reflexivity.
  - vm_compute. discriminate.
Defined.

(** X8 on a 503 followed by a 200. *)
Lemma returned_value_is_a_response_body_witness :
  let s := Sample.warm [Sample.unavailable; Sample.done; Sample.notFound] in
  let rs := Api.request Sample.cfg Sample.remote "/api/x"
              {| Api.method := "POST"; Api.payload := None |} 0 s in
  exists before x,
    Api.apiServer s = before ++ x :: Api.apiServer (snd rs) /\
    Api.delivers (Obj [("success", Bool true)]) x.
Proof.
  cbv zeta.
  apply (returned_value_is_a_response_body Sample.cfg Sample.remote "/api/x"
           {| Api.method := "POST"; Api.payload := None |} 0
           (Sample.warm [Sample.unavailable; Sample.done; Sample.notFound])).
  vm_compute. reflexivity.
Defined.

(** X5 on a token service that answers 401. *)
Lemma failed_authentication_fails_the_call_witness :
  let s := Api.create Sample.cfg 1000000 [Sample.done] in
  let rs := Api.request Sample.cfg Sample.lockedOut "/api/x"
              {| Api.method := "POST"; Api.payload := None |} 0 s in
  fst rs = Threw (ApiError "Auth failed: Unauthorized" (Some 401)) /\
  Api.apiServer (snd rs) = [Sample.done] /\
  length (Api.calls (snd rs)) = 1%nat.
Proof.
  cbv zeta.
  destruct (failed_authentication_fails_the_call Sample.cfg Sample.lockedOut "/api/x"
              {| Api.method := "POST"; Api.payload := None |} 0
              (Api.create Sample.cfg 1000000 [Sample.done]))
    as ((e & He & Hg) & Hsrv & _ & _ & _ & (c & Hc & _) & _).
  - reflexivity.
  - reflexivity.
  - cbv zeta in *. rewrite He, Hsrv, Hc. split; [| split; reflexivity].
    vm_compute in Hg. injection Hg as <-. reflexivity.
Defined.

(** X9 on a 404. *)
Lemma refused_call_is_not_retried_witness :
  let s := Sample.warm [Sample.notFound; Sample.done] in
  let rs := Api.request Sample.cfg Sample.remote "/api/x"
              {| Api.method := "POST"; Api.payload := None |} 0 s in
  fst rs = Threw (ApiError "API Error: 404 Not Found" (Some 404)) /\
  Api.apiServer (snd rs) = [Sample.done] /\
  Api.retryWarnings (snd rs) = Api.retryWarnings s.
Proof.
  cbv zeta.
  apply (refused_call_is_not_retried Sample.cfg Sample.remote Sample.notFound [Sample.done]
           "/api/x" {| Api.method := "POST"; Api.payload := None |} 0
           (Sample.warm [Sample.notFound; Sample.done])
           {| Api.status := 404; Api.statusText := "Not Found"; Api.retryAfter := None;
              Api.body := Some Null |} (Some "token-1")); reflexivity.
Defined.

(** X15 on a 503 that outlasts the retries: the call throws and the log has
    no line [Final failure]. *)
Lemma final_failure_line_is_for_first_attempts_witness :
  let e := Sample.unavailable in
  let s := Sample.warm [e; e; e; e] in
  let rs := Api.request Sample.cfg Sample.remote "/api/x"
              {| Api.method := "POST"; Api.payload := None |} 0 s in
  Api.finalFailures (snd rs) = Api.finalFailures s /\
  fst rs = Threw (ApiError "API Error: 503 Service Unavailable" (Some 503)).
Proof.
  cbv zeta.
  destruct (final_failure_line_is_for_first_attempts Sample.cfg Sample.remote "/api/x"
              {| Api.method := "POST"; Api.payload := None |}
              (Sample.warm [Sample.unavailable; Sample.unavailable; Sample.unavailable;
                            Sample.unavailable]))
    as (_ & Hretried & _).
  split.
  - apply (Hretried Sample.unavailable
             [Sample.unavailable; Sample.unavailable; Sample.unavailable] (Some "token-1"));
      try reflexivity.
    eexists. split; [reflexivity | vm_compute; discriminate].
  - vm_compute. reflexivity.
Defined.

(** X17 on a page of two records followed by an error object. *)
Lemma malformed_page_ends_pagination_witness :
  let c := Sample.campaign in
  let script := [Sample.answer 200 "OK" (Sample.page [c 1; c 2] 1 true);
                 Sample.answer 200 "OK" (Obj [("error", Str "maintenance")]);
                 Sample.done] in
  exists s',
    Sync.fetchAllCampaigns Sample.mockCfg Sample.remote
      (Sync.create Sample.mockCfg 1000000 script)
    = (Returned (List.concat [[c 1; c 2]]), s') /\
    Api.apiServer (Db.client s') = [Sample.done] /\
    Api.fetched (Db.client s')
    = Api.fetched (Db.client (Sync.create Sample.mockCfg 1000000 script))
      ++ (Sync.page_url Sample.mockCfg <$> seq 1 2) /\
    List.last (Sync.journal s') {| level := INFO; text := ""; meta := NoMeta |}
    = {| level := WARN; text := "Unexpected response format from API";
         meta := MetaValue (Obj [("response", Obj [("error", Str "maintenance")])]) |}.
Proof.
  cbv zeta.
  apply (malformed_page_ends_pagination Sample.mockCfg Sample.remote
           [Sample.answer 200 "OK" (Sample.page [Sample.campaign 1; Sample.campaign 2] 1 true)]
           [[Sample.campaign 1; Sample.campaign 2]]
           (Sample.answer 200 "OK" (Obj [("error", Str "maintenance")]))
           (Obj [("error", Str "maintenance")]) [Sample.done]).
  - exact sample_token_service.
  - repeat constructor; apply sample_serves.
  - apply sample_delivers.
  - reflexivity.
  - reflexivity.
Defined.

(** X18 on a page of two records followed by a 404. *)
Lemma failed_page_fails_the_run_witness :
  let c := Sample.campaign in
  let script := [Sample.answer 200 "OK" (Sample.page [c 1; c 2] 1 true); Sample.notFound] in
  let s := Sync.create Sample.cfg 1000000 script in
  fst (Sync.fetchAllCampaigns Sample.cfg Sample.remote s)
  = Threw (ApiError "API Error: 404 Not Found" (Some 404)) /\
  fst (Sync.main Sample.cfg Sample.remote Sample.postgres s) = Some 1.
Proof.
  cbv zeta.
  apply (failed_page_fails_the_run Sample.cfg Sample.remote Sample.postgres
           [Sample.answer 200 "OK" (Sample.page [Sample.campaign 1; Sample.campaign 2] 1 true)]
           [[Sample.campaign 1; Sample.campaign 2]]
           Sample.notFound
           {| Api.status := 404; Api.statusText := "Not Found"; Api.retryAfter := None;
              Api.body := Some Null |} []).
  - exact sample_token_service.
  - repeat constructor; apply sample_serves.
  - reflexivity.
  - reflexivity.
  - reflexivity.
Defined.


(** X24 on a database that refuses the connection. *)
Lemma connect_failure_is_fatal_witness :
  let s := Sync.create Sample.cfg 1000000 Sample.hundred in
  let rs := Sync.main Sample.cfg Sample.remote Sample.unreachable s in
  fst rs = Some 1 /\
  Api.calls (Db.client (snd rs)) = [] /\
  length (Sync.journal (snd rs)) = 5%nat.
Proof.
  cbv zeta.
  destruct (connect_failure_is_fatal Sample.cfg Sample.remote Sample.unreachable
              (Sync.create Sample.cfg 1000000 Sample.hundred)
              (Failure "connect ECONNREFUSED 127.0.0.1:5432"))
    as (Hexit & Hcalls & _ & _ & _ & Hlog); try reflexivity.
  cbv zeta in *. rewrite Hexit, Hcalls, Hlog by reflexivity. repeat split.
Defined.

(** X25 on two records and a pool that cannot be shut down. *)
Lemma close_failure_fails_the_run_witness :
  let c := Sample.campaign in
  let script := [Sample.answer 200 "OK" (Sample.page [c 1; c 2] 1 false);
                 Sample.done; Sample.done] in
  let s := Sync.create Sample.cfg 1000000 script in
  exists successCount failureCount s',
    Sync.start Sample.cfg Sample.remote Sample.stuck s
    = (Threw (Failure "Called end on pool more than once"), s') /\
    fst (Sync.main Sample.cfg Sample.remote Sample.stuck s) = Some 1 /\
    (successCount + failureCount = 2)%nat /\
    List.last (Sync.journal s') {| level := INFO; text := ""; meta := NoMeta |}
    = {| level := INFO; text := "Sync Service Completed";
         meta := Sync.report successCount failureCount 2 |}.
Proof.
  cbv zeta.
  set (s := Sync.create Sample.cfg 1000000
              [Sample.answer 200 "OK"
                 (Sample.page [Sample.campaign 1; Sample.campaign 2] 1 false);
               Sample.done; Sample.done]).
  set (s1 := snd (Db.connect Sample.cfg Sample.stuck
                    (Db.logged INFO "Starting Campaign Sync Service..." NoMeta s))).
  set (s2 := snd (Sync.fetchAllCampaigns Sample.cfg Sample.remote s1)).
  apply (close_failure_fails_the_run Sample.cfg Sample.remote Sample.stuck s s1 s2
           [Sample.campaign 1; Sample.campaign 2]
           (Failure "Called end on pool more than once")).
  - vm_compute. reflexivity.
  - vm_compute. reflexivity.
  - repeat constructor.
  - vm_compute. repeat constructor.
  - reflexivity.
  - reflexivity.
Defined.

(** X23 on a database that refuses the connection. *)
Lemma second_connect_is_silent_witness :
  let s := Sync.create Sample.cfg 1000000 [] in
  let rs := Db.connect Sample.cfg Sample.unreachable s in
  (exists e, fst rs = Threw e) /\
  Db.pool (snd rs) = true /\
  Db.connect Sample.cfg Sample.unreachable (snd rs) = (Returned tt, snd rs).
Proof.
  cbv zeta. split; [eexists; reflexivity |].
  apply (second_connect_is_silent Sample.cfg Sample.unreachable
           (Sync.create Sample.cfg 1000000 [])).
  reflexivity.
Defined.

(** X26 on the run over a hundred records. *)
Lemma mock_mode_leaves_the_database_alone_witness :
  let s := Sync.create Sample.mockCfg 1000000 Sample.hundred in
  Db.pool (snd (Sync.main Sample.mockCfg Sample.remote Sample.postgres s)) = false /\
  Db.queries (snd (Sync.main Sample.mockCfg Sample.remote Sample.postgres s)) = [].
Proof.
  cbv zeta.
  apply (mock_mode_leaves_the_database_alone Sample.mockCfg Sample.remote Sample.postgres
           (Sync.create Sample.mockCfg 1000000 Sample.hundred)).
  reflexivity.
Defined.

(** X20 on three records: one success, one statement that is rejected, one
    remote trigger that is refused. *)
Lemma successes_are_persisted_witness :
  let c := Sample.campaign in
  let s := Db.set_pool true
             (Sync.create Sample.cfg 1000000 [Sample.done; Sample.done; Sample.notFound]) in
  let rs := Sync.syncEach Sample.cfg Sample.remote Sample.postgres [c 1; c 2; c 3] 3 0 0 0 s in
  fst rs = Returned (1%nat, 2%nat) /\
  (1 + length (Db.queries s) <= length (Db.queries (snd rs)))%nat /\
  (length (Db.queries (snd rs)) <= length (Db.queries s) + 3)%nat.
Proof.
  cbv zeta. split; [vm_compute; reflexivity |].
  apply (successes_are_persisted Sample.cfg Sample.remote Sample.postgres
           [Sample.campaign 1; Sample.campaign 2; Sample.campaign 3] 3 0
           (Db.set_pool true
              (Sync.create Sample.cfg 1000000 [Sample.done; Sample.done; Sample.notFound]))
           _ 1 2).
  - reflexivity.
  - vm_compute. reflexivity.
Defined.

(** X21 on the run over a hundred records. *)
Lemma run_keeps_the_quota_witness :
  Api.spaced 6500
    (Api.calls (Db.client (snd (Sync.main (Conf.config ∅) Sample.remote Sample.postgres
                                  (Sync.create (Conf.config ∅) 1000000 Sample.hundred))))).
Proof.
  apply (run_keeps_the_quota ∅ Sample.remote Sample.postgres 1000000 Sample.hundred). lia.
Defined.

(** X22 on the run over a hundred records: 111 calls, so at least 715
    seconds. *)
Lemma run_lasts_as_long_as_its_calls_witness :
  let final := Db.client (snd (Sync.main (Conf.config ∅) Sample.remote Sample.postgres
                                 (Sync.create (Conf.config ∅) 1000000 Sample.hundred))) in
  length (Api.calls final) = 111%nat /\
  110 * 6500 <= Api.now final - 1000000.
Proof.
  cbv zeta. split; [vm_compute; reflexivity |].
  pose proof (run_lasts_as_long_as_its_calls ∅ Sample.remote Sample.postgres 1000000
                Sample.hundred
                {| Api.startedAt := 1000000; Api.verb := "POST";
                   Api.url := "http://localhost:3001/auth/token";
                   Api.authorization :=
                     "Basic " +:+ Api.base64 "admin@mixoads.com:SuperSecret123!" |}
                ltac:(lia)) as H.
  cbv zeta in H.
  assert (Hlen : length (Api.calls (Db.client (snd (Sync.main (Conf.config ∅) Sample.remote
                   Sample.postgres (Sync.create (Conf.config ∅) 1000000 Sample.hundred)))))
                 = 111%nat) by (vm_compute; reflexivity).
  rewrite Hlen in H. cbn [Api.startedAt] in H. apply H. vm_compute. reflexivity.
Defined.

(** X4 on a token service whose tokens last thirty seconds. *)
Lemma short_lived_token_is_never_reused_witness :
  let s := Api.create Sample.cfg 1000000 [] in
  let rs := Api.getAccessToken Sample.cfg Sample.hasty s in
  fst rs = Returned (Some "token-2") /\
  Api.authExchanges (snd (Api.getAccessToken Sample.cfg Sample.hasty (Api.tick 0 (snd rs))))
  = 2%nat.
Proof.
  cbv zeta.
  destruct (short_lived_token_is_never_reused Sample.cfg Sample.hasty
              (Api.create Sample.cfg 1000000 [])
              {| Api.status := 200; Api.statusText := "OK"; Api.retryAfter := None;
                 Api.body := Some {| Api.access_token := Some "token-2";
                                     Api.expires_in := Some 30 |} |}
              {| Api.access_token := Some "token-2"; Api.expires_in := Some 30 |} 30)
    as (Hret & _ & Hagain); try reflexivity; try lia.
  cbv zeta in *. split; [exact Hret |]. rewrite Hagain by lia. vm_compute. reflexivity.
Defined.

(** X14 on a 200 whose body is not JSON, followed by a 200 whose body is. *)
Lemma unparsable_body_is_tried_again_witness :
  let s := Sample.warm [Sample.garbled; Sample.done] in
  let opts := {| Api.method := "POST"; Api.payload := None |} in
  let s2 := Api.arrived Sample.cfg Sample.remote "/api/x" opts Sample.garbled [Sample.done]
              (Some "token-1") s in
  let rs := Api.request_from Sample.cfg Sample.remote [Sample.garbled; Sample.done]
              "/api/x" opts 0 s in
  (exists added,
     Api.calls (snd rs) = Api.calls s2 ++ added /\
     Forall (fun c => Api.now s2 + 1000 <= Api.startedAt c) added) /\
  fst rs = Returned (Obj [("success", Bool true)]) /\
  Api.apiServer (snd rs) = [].
Proof.
  cbv zeta.
  destruct (unparsable_body_is_tried_again Sample.cfg Sample.remote Sample.garbled
              [Sample.done] "/api/x" {| Api.method := "POST"; Api.payload := None |} 0
              (Sample.warm [Sample.garbled; Sample.done])
              (Sample.warm [Sample.garbled; Sample.done]) (Some "token-1")
              {| Api.status := 200; Api.statusText := "OK"; Api.retryAfter := None;
                 Api.body := None |} eq_refl eq_refl eq_refl eq_refl) as (Hbelow & _).
  destruct (Hbelow eq_refl) as (Hwait & Hnext).
  split.
  - apply Hwait. vm_compute. discriminate.
  - apply (Hnext Sample.done (Obj [("success", Bool true)]) []);
      [apply sample_token_service | reflexivity | apply sample_delivers].
Defined.

(** X13 on a [retry-after] header that is an HTTP date. *)
Lemma unreadable_retry_after_is_no_wait_witness :
  let x := Sample.tooManyAfter "Wed, 21 Oct 2015 07:28:00 GMT" in
  let s := Sample.warm [x; Sample.done] in
  let opts := {| Api.method := "POST"; Api.payload := None |} in
  let s2 := Api.arrived Sample.cfg Sample.remote "/api/x" opts x [Sample.done]
              (Some "token-1") s in
  exists s3,
    Api.request_from Sample.cfg Sample.remote [x; Sample.done] "/api/x" opts 0 s
    = Api.request_from Sample.cfg Sample.remote [Sample.done] "/api/x" opts 1 s3 /\
    Api.now s3 = Api.now s2 + 1 + Z.of_N (Api.timerLag Sample.remote (Api.timers s2)) /\
    Api.calls s3 = Api.calls s2.
Proof.
  cbv zeta.
  apply (unreadable_retry_after_is_no_wait Sample.cfg Sample.remote
           (Sample.tooManyAfter "Wed, 21 Oct 2015 07:28:00 GMT") [Sample.done] "/api/x"
           {| Api.method := "POST"; Api.payload := None |} 0
           (Sample.warm [Sample.tooManyAfter "Wed, 21 Oct 2015 07:28:00 GMT"; Sample.done])
           (Sample.warm [Sample.tooManyAfter "Wed, 21 Oct 2015 07:28:00 GMT"; Sample.done])
           (Some "token-1")
           {| Api.status := 429; Api.statusText := "Too Many Requests";
              Api.retryAfter := Some "Wed, 21 Oct 2015 07:28:00 GMT";
              Api.body := Some Null |}
           "Wed, 21 Oct 2015 07:28:00 GMT"); try reflexivity.
  - discriminate.
  - left. vm_compute. reflexivity.
Defined.


(** X16 on the sample world: three pages are read with the fuel
    [fetchAllCampaigns] gives, and with any larger one. *)
Lemma fetchPages_fuel_witness :
  let c := Sample.campaign in
  let s := Sync.create Sample.mockCfg 1000000
             [Sample.answer 200 "OK" (Sample.page [c 1; c 2] 1 true);
              Sample.answer 200 "OK" (Sample.page [c 3; c 4] 2 true);
              Sample.answer 200 "OK" (Sample.page [c 5] 3 false)] in
  Sync.fetchPages Sample.mockCfg Sample.remote 4 [] 1 s
  = Sync.fetchPages Sample.mockCfg Sample.remote 1000 [] 1 s.
Proof.
  cbv zeta. apply (fetchPages_fuel Sample.mockCfg Sample.remote 4 1000); simpl; lia.
Defined.
